(** * Usage-based overage billing: a shallow embedding of the billing core

    Embedded sources:
    - [apps/sim/lib/billing/core/billing.ts]: [getOrganizationSubscription],
      [getPlanPricing], [getStripeCustomerId], [createOverageBillingInvoice],
      [calculateUserOverage], [processUserOverageBilling],
      [processOrganizationOverageBilling];
    - [apps/sim/lib/billing/webhooks/invoices.ts], which holds three
      revisions of the handlers: [resetUsageForSubscription],
      [handleInvoicePaymentSucceeded], [handleInvoicePaymentFailed] and
      [handleInvoiceCreated] of the first (lines 1-298),
      [handleInvoiceUpcoming] of the second and [handleInvoiceFinalized] of
      the third;
    - the subscription webhooks: [handleSubscriptionUpdated], as far as it
      writes the store, and [handleSubscriptionWebhook];
    - further down: [getSimplifiedBillingSummary] and
      [getDefaultBillingSummary] of [billing.ts], the payment handlers of
      the second and third revision of [invoices.ts], both revisions
      of [@/lib/billing/subscriptions/utils] ([checkProPlan],
      [checkTeamPlan], [checkEnterprisePlan], [getSubscriptionAllowance],
      [getPerUserMinimumLimit], [canEditUsageLimit],
      [getMinimumUsageLimit]) and [apps/sim/lib/billing/plans.ts].

    Conventions of the embedding.
    - A JavaScript number that carries money is an exact rational ([Qc]),
      so the rounding of binary floating point is not modelled; [NaN] only
      arises from [parseFloat] and is kept apart in [number].
    - A table of the relational store is the list of its rows;
      [select ... where ... limit 1] is the first matching row and
      [update ... where ...] rewrites every matching row.  Store statements
      themselves never fail in the model.
    - Code that calls the payment provider runs in a state-and-exception
      monad over [World]; [try]/[catch] is [try_catch].
    - Calls to the logger have no effect on any result and are left out. *)

From Stdlib Require Import QArith Qcanon Qround Ascii.
From stdpp Require Import base decidable option list strings gmap numbers pretty.

Local Open Scope string_scope.
Local Open Scope Z_scope.

(** ** JavaScript values *)

(** A number: [NaN] or a finite value. *)
Inductive number :=
| NaN
| Num (q : Qc).

(** The primitive values a metadata field can hold. *)
Inductive JsValue :=
| JsUndefined
| JsNull
| JsBoolean (b : bool)
| JsNumber (n : number)
| JsString (s : string).

(** Outcome of a computation that can raise. *)
Inductive Outcome (A : Type) :=
| Return (a : A)
| Throw (message : string).
Arguments Return {A} a.
Arguments Throw {A} message.

(** [Math.max(a, b)] on finite numbers. *)
Definition Math_max (a b : Qc) : Qc :=
  if decide (a ≤ b)%Qc then b else a.

(** [Math.round(x)]: the nearest integer, halves rounded up. *)
Definition Math_round (x : Qc) : Z :=
  Qfloor (x + Q2Qc (1 # 2))%Qc.

(** Truthiness of a value that is a string or [null]. *)
Definition truthy_string (s : option string) : bool :=
  match s with
  | Some s => negb (bool_decide (s = ""))
  | None => false
  end.

(** [x || d] for such a value. *)
Definition string_or (s : option string) (d : string) : string :=
  match s with
  | Some s => if bool_decide (s = "") then d else s
  | None => d
  end.

(** Truthiness of a number: neither zero nor [NaN]. *)
Definition number_truthy (n : number) : bool :=
  match n with
  | NaN => false
  | Num q => negb (bool_decide (q = 0%Qc))
  end.

(** [n > q]; a comparison with [NaN] is false. *)
Definition number_gt (n : number) (q : Qc) : bool :=
  match n with
  | NaN => false
  | Num x => bool_decide (q < x)%Qc
  end.

(** [Number.isNaN(n)] *)
Definition Number_isNaN (n : number) : bool :=
  match n with
  | NaN => true
  | Num _ => false
  end.

(** The value of a number that is known not to be [NaN]. *)
Definition finite_value (n : number) : Qc :=
  match n with
  | NaN => 0%Qc
  | Num q => q
  end.

(** Truthiness of a primitive value. *)
Definition truthy (v : JsValue) : bool :=
  match v with
  | JsUndefined | JsNull => false
  | JsBoolean b => b
  | JsNumber n => number_truthy n
  | JsString s => negb (bool_decide (s = ""))
  end.

(** ** The relational store *)

(** The [metadata] column of a subscription: SQL [NULL], a text, or an
    object of type [EnterpriseSubscriptionMetadata]. *)
Record EnterpriseSubscriptionMetadata := {
  perSeatPrice : JsValue
}.

Inductive MetadataColumn :=
| MetadataNull
| MetadataText (s : string)
| MetadataObject (m : EnterpriseSubscriptionMetadata).

Record UserRow := {
  user_id : string;
  user_name : option string;
  user_email : option string;
  user_stripeCustomerId : option string
}.

Record OrganizationRow := {
  organization_id : string
}.

Record MemberRow := {
  member_id : string;
  member_userId : string;
  member_organizationId : string;
  member_role : string
}.

Record SubscriptionRow := {
  subscription_id : string;
  subscription_plan : option string;
  subscription_referenceId : string;
  subscription_status : option string;
  subscription_seats : option Z;
  subscription_metadata : MetadataColumn;
  subscription_stripeSubscriptionId : option string
}.

(** A row of [userStats]; the two cost columns are nullable decimals. *)
Record UserStatsRow := {
  userStats_userId : string;
  currentPeriodCost : option Qc;
  lastPeriodCost : option Qc;
  billingBlocked : bool
}.

Record DB := {
  user : list UserRow;
  organization : list OrganizationRow;
  member : list MemberRow;
  subscription : list SubscriptionRow;
  userStats : list UserStatsRow
}.

Definition set_userStats (d : DB) (rows : list UserStatsRow) : DB :=
  {| user := user d; organization := organization d; member := member d;
     subscription := subscription d; userStats := rows |}.

(** [select ... limit 1]: the first row that satisfies the condition. *)
Definition select_first {A} (p : A → bool) (rows : list A) : option A :=
  List.find p rows.

(** [select ... where]: every row that satisfies the condition. *)
Definition select_where {A} (p : A → bool) (rows : list A) : list A :=
  List.filter p rows.

(** [update userStats set ... where userId = uid]. *)
Definition update_userStats (uid : string) (f : UserStatsRow → UserStatsRow)
    (d : DB) : DB :=
  set_userStats d
    ((λ r, if bool_decide (userStats_userId r = uid) then f r else r)
     <$> userStats d).

(** What [getUserUsageData] hands back (the fields the billing core reads). *)
Record UsageData := {
  currentUsage : Qc;
  usage_limit : Qc
}.

(** ** Collaborators that are not part of the embedded sources

    The tier limits come from [@/lib/billing/subscriptions/utils], the two
    accessors from [@/lib/billing/core/subscription] and
    [@/lib/billing/core/usage]; the remaining fields are JavaScript
    built-ins.  Every definition below is parametric in them. *)
Record Env := {
  getFreeTierLimit : Qc;
  getProTierLimit : Qc;
  getTeamTierLimitPerSeat : Qc;
  getEnterpriseTierLimitPerSeat : Qc;
  getHighestPrioritySubscription : DB → string → Outcome (option SubscriptionRow);
  getUserUsageData : DB → string → Outcome UsageData;
  (** [Number.parseFloat] *)
  parseFloat : string → number;
  (** [JSON.parse], read at type [EnterpriseSubscriptionMetadata]: it raises
      on a malformed text, yields [None] for the text [null], and otherwise
      the object whose [perSeatPrice] is the property of that name
      ([JsUndefined] when there is none). *)
  JSON_parse : string → Outcome (option EnterpriseSubscriptionMetadata);
  (** [Number.prototype.toString] and [toFixed(2)] *)
  Number_toString : Qc → string;
  Number_toFixed2 : Qc → string;
  (** [JSON.stringify] of the per-member usage breakdown *)
  JSON_stringify_usage : list (string * option string * option string * Qc) → string;
  (** [new Date(ms).toISOString().slice(0, 7)] *)
  Date_isoMonth : Z → string;
  (** [new Date(text).getTime()]; [None] is an invalid date *)
  Date_parse : string → option Z
}.

(** [String(v)] *)
Definition String_of (env : Env) (v : JsValue) : string :=
  match v with
  | JsUndefined => "undefined"
  | JsNull => "null"
  | JsBoolean true => "true"
  | JsBoolean false => "false"
  | JsNumber NaN => "NaN"
  | JsNumber (Num q) => Number_toString env q
  | JsString s => s
  end.

(** ** Plan pricing ([billing.ts]) *)

Record PlanPricing := {
  basePrice : Qc
}.

(** [subscription?.metadata] is truthy. *)
Definition metadata_truthy (m : MetadataColumn) : bool :=
  match m with
  | MetadataNull => false
  | MetadataText s => negb (bool_decide (s = ""))
  | MetadataObject _ => true
  end.

(** [metadata.perSeatPrice ? Number.parseFloat(String(metadata.perSeatPrice)) : undefined] *)
Definition parsed_perSeatPrice (env : Env)
    (metadata : EnterpriseSubscriptionMetadata) : option number :=
  if truthy (perSeatPrice metadata)
  then Some (parseFloat env (String_of env (perSeatPrice metadata)))
  else None.

(** The [enterprise] case once the metadata object is at hand: the test
    [perSeatPrice && perSeatPrice > 0 && !Number.isNaN(perSeatPrice)] and
    the two results. *)
Definition enterprise_pricing (env : Env)
    (metadata : EnterpriseSubscriptionMetadata) : PlanPricing :=
  match parsed_perSeatPrice env metadata with
  | Some perSeatPrice =>
      if number_truthy perSeatPrice && number_gt perSeatPrice 0
         && negb (Number_isNaN perSeatPrice)
      then {| basePrice := finite_value perSeatPrice |}
      else {| basePrice := getEnterpriseTierLimitPerSeat env |}
  | None => {| basePrice := getEnterpriseTierLimitPerSeat env |}
  end.

Definition getPlanPricing (env : Env) (plan : option string)
    (subscription : option SubscriptionRow) : Outcome PlanPricing :=
  if bool_decide (plan = Some "free") then Return {| basePrice := 0 |}
  else if bool_decide (plan = Some "pro") then
    Return {| basePrice := getProTierLimit env |}
  else if bool_decide (plan = Some "team") then
    Return {| basePrice := getTeamTierLimitPerSeat env |}
  else if bool_decide (plan = Some "enterprise") then
    match subscription_metadata <$> subscription with
    | Some (MetadataText s) =>
        if metadata_truthy (MetadataText s) then
          match JSON_parse env s with
          | Return (Some metadata) => Return (enterprise_pricing env metadata)
          | Return None => Throw "TypeError"
          | Throw e => Throw e
          end
        else Return {| basePrice := getEnterpriseTierLimitPerSeat env |}
    | Some (MetadataObject metadata) => Return (enterprise_pricing env metadata)
    | Some MetadataNull | None =>
        Return {| basePrice := getEnterpriseTierLimitPerSeat env |}
    end
  else Return {| basePrice := 0 |}.

(** [plan === 'team' || plan === 'enterprise'] *)
Definition is_team_or_enterprise (plan : option string) : bool :=
  bool_decide (plan = Some "team") || bool_decide (plan = Some "enterprise").

(** [subscription.seats || 1] *)
Definition licensedSeats_of (seats : option Z) : Z :=
  match seats with
  | Some n => if bool_decide (n = 0) then 1 else n
  | None => 1
  end.

(** ** Resetting the usage counters ([invoices.ts]) *)

Definition has_userId (uid : string) (r : UserStatsRow) : bool :=
  bool_decide (userStats_userId r = uid).

(** [.set({ lastPeriodCost: current, currentPeriodCost: '0' })] *)
Definition set_reset (current : Qc) (r : UserStatsRow) : UserStatsRow :=
  {| userStats_userId := userStats_userId r;
     currentPeriodCost := Some 0%Qc;
     lastPeriodCost := Some current;
     billingBlocked := billingBlocked r |}.

(** [.set({ billingBlocked: b })] *)
Definition set_billingBlocked (b : bool) (r : UserStatsRow) : UserStatsRow :=
  {| userStats_userId := userStats_userId r;
     currentPeriodCost := currentPeriodCost r;
     lastPeriodCost := lastPeriodCost r;
     billingBlocked := b |}.

(** The body shared by both branches of [resetUsageForSubscription]: read
    the current cost of one user, then move it to [lastPeriodCost]. *)
Definition reset_user (uid : string) (d : DB) : DB :=
  match select_first (has_userId uid) (userStats d) with
  | Some currentStats =>
      let current := default 0%Qc (currentPeriodCost currentStats) in
      update_userStats uid (set_reset current) d
  | None => d
  end.

(** [select userId from member where organizationId = ref] *)
Definition members_of (d : DB) (organizationId : string) : list string :=
  member_userId <$>
    select_where (λ m, bool_decide (member_organizationId m = organizationId))
      (member d).

Definition resetUsageForSubscription (plan : option string)
    (referenceId : string) (d : DB) : DB :=
  if is_team_or_enterprise plan then
    foldl (λ d m, reset_user m d) d (members_of d referenceId)
  else reset_user referenceId d.

(** ** The payment provider

    The provider is outside the repository.  It is modelled as a store of
    invoices (newest first), invoice items and customers.  [stripe_faults]
    scripts its failures: every call consumes one flag and raises when the
    flag is set. *)

Inductive InvoiceStatus := draft | open | paid | uncollectible | void.

Global Instance InvoiceStatus_eq_dec : EqDecision InvoiceStatus.
Proof. solve_decision. Defined.

Record Invoice := {
  invoice_id : string;
  invoice_customer : string;
  invoice_subscription : option string;
  invoice_billing_reason : option string;
  invoice_metadata : gmap string string;
  invoice_status : InvoiceStatus;
  invoice_created : Z;
  invoice_amount_due : Z;
  invoice_amount_paid : Z;
  invoice_attempt_count : Z;
  invoice_attempted : bool;
  (** [lines.data[0].period.end] *)
  invoice_period_end : option Z
}.

Record InvoiceItem := {
  item_id : string;
  item_customer : string;
  item_subscription : option string;
  item_amount : Z;
  item_currency : string;
  item_description : string;
  item_metadata : gmap string string;
  (** the invoice the item has been put on, if any *)
  item_invoice : option string
}.

Record Customer := {
  customer_id : string;
  customer_email : option string
}.

Record Stripe := {
  stripe_invoices : list Invoice;
  stripe_invoiceItems : list InvoiceItem;
  stripe_customers : list Customer;
  (** idempotency keys already used, with the item each produced *)
  stripe_idempotency : list (string * InvoiceItem);
  stripe_faults : list bool;
  stripe_nextId : nat
}.

Record Event := {
  event_id : string;
  event_object : Invoice
}.

(** ** State and exceptions *)

Record World := {
  world_db : DB;
  world_stripe : Stripe;
  (** the clock, in milliseconds *)
  world_now : Z
}.

Definition M (A : Type) : Type := World → Outcome A * World.

Definition ret {A} (a : A) : M A := λ w, (Return a, w).

Definition bind {A B} (m : M A) (k : A → M B) : M B :=
  λ w, match m w with
       | (Return a, w') => k a w'
       | (Throw e, w') => (Throw e, w')
       end.

Definition throw {A} (e : string) : M A := λ w, (Throw e, w).

Definition try_catch {A} (m : M A) (handler : string → M A) : M A :=
  λ w, match m w with
       | (Return a, w') => (Return a, w')
       | (Throw e, w') => handler e w'
       end.

Definition lift {A} (o : Outcome A) : M A := λ w, (o, w).

Definition get_db : M DB := λ w, (Return (world_db w), w).

Definition get_now : M Z := λ w, (Return (world_now w), w).

Definition modify_db (f : DB → DB) : M unit :=
  λ w, (Return tt,
        {| world_db := f (world_db w); world_stripe := world_stripe w;
           world_now := world_now w |}).

Declare Scope billing_scope.
Delimit Scope billing_scope with billing.
Notation "x <- m ;; k" := (bind m (λ x, k))
  (at level 100, m at next level, right associativity) : billing_scope.
Notation "m ;;; k" := (bind m (λ _, k))
  (at level 100, right associativity) : billing_scope.

Local Open Scope billing_scope.

Definition set_stripe (w : World) (s : Stripe) : World :=
  {| world_db := world_db w; world_stripe := s; world_now := world_now w |}.

Definition set_now (w : World) (t : Z) : World :=
  {| world_db := world_db w; world_stripe := world_stripe w; world_now := t |}.

Definition with_faults (s : Stripe) (faults : list bool) : Stripe :=
  {| stripe_invoices := stripe_invoices s;
     stripe_invoiceItems := stripe_invoiceItems s;
     stripe_customers := stripe_customers s;
     stripe_idempotency := stripe_idempotency s;
     stripe_faults := faults;
     stripe_nextId := stripe_nextId s |}.

Definition with_invoices (s : Stripe) (invoices : list Invoice) : Stripe :=
  {| stripe_invoices := invoices;
     stripe_invoiceItems := stripe_invoiceItems s;
     stripe_customers := stripe_customers s;
     stripe_idempotency := stripe_idempotency s;
     stripe_faults := stripe_faults s;
     stripe_nextId := stripe_nextId s |}.

Definition with_customers (s : Stripe) (customers : list Customer) : Stripe :=
  {| stripe_invoices := stripe_invoices s;
     stripe_invoiceItems := stripe_invoiceItems s;
     stripe_customers := customers;
     stripe_idempotency := stripe_idempotency s;
     stripe_faults := stripe_faults s;
     stripe_nextId := stripe_nextId s |}.

(** One call to the provider. *)
Definition api {A} (op : Stripe → Z → Outcome A * Stripe) : M A :=
  λ w,
    let s := world_stripe w in
    match stripe_faults s with
    | true :: rest => (Throw "StripeError", set_stripe w (with_faults s rest))
    | _ =>
        let '(r, s') := op (with_faults s (tail (stripe_faults s))) (world_now w) in
        (r, set_stripe w s')
    end.

Definition has_customer (s : Stripe) (customer : string) : bool :=
  existsb (λ c, bool_decide (customer_id c = customer)) (stripe_customers s).

(** [invoices.list({ customer, created: { gte }, limit })]: the newest
    [limit] invoices of the customer that were created at or after [gte];
    a [gte] that is not a number is refused by the provider. *)
Definition invoices_list (customer : string) (gte : option Z) (limit : nat)
    : M (list Invoice) :=
  api (λ s _,
    match gte with
    | Some t =>
        (Return (take limit
           (List.filter (λ i, bool_decide (invoice_customer i = customer)
                              && bool_decide (t ≤ invoice_created i))
              (stripe_invoices s))), s)
    | None => (Throw "Invalid integer", s)
    end).

Definition customers_retrieve (customer : string) : M Customer :=
  api (λ s _,
    match List.find (λ c, bool_decide (customer_id c = customer)) (stripe_customers s) with
    | Some c => (Return c, s)
    | None => (Throw "No such customer", s)
    end).

Definition customers_update (customer : string) (email : string) : M unit :=
  api (λ s _,
    if has_customer s customer then
      (Return tt,
       with_customers s
         ((λ c, if bool_decide (customer_id c = customer)
                then {| customer_id := customer_id c; customer_email := Some email |}
                else c)
          <$> stripe_customers s))
    else (Throw "No such customer", s)).

Record InvoiceItemParams := {
  params_customer : string;
  params_subscription : option string;
  params_amount : Z;
  params_currency : string;
  params_description : string;
  params_metadata : gmap string string
}.

Definition same_params (p : InvoiceItemParams) (i : InvoiceItem) : bool :=
  bool_decide (item_customer i = params_customer p)
  && bool_decide (item_subscription i = params_subscription p)
  && bool_decide (item_amount i = params_amount p)
  && bool_decide (item_currency i = params_currency p)
  && bool_decide (item_description i = params_description p)
  && bool_decide (item_metadata i = params_metadata p).

(** [invoiceItems.create(params, { idempotencyKey })]: a key that was used
    before replays the item it produced (and is refused with other
    parameters); otherwise a pending item is added. *)
Definition invoiceItems_create (p : InvoiceItemParams)
    (idempotencyKey : option string) : M InvoiceItem :=
  api (λ s _,
    let replay :=
      idempotencyKey ≫= λ k,
        snd <$> List.find (λ e, bool_decide (fst e = k)) (stripe_idempotency s) in
    match replay with
    | Some item =>
        if same_params p item then (Return item, s)
        else (Throw "idempotency_error", s)
    | None =>
        if has_customer s (params_customer p) then
          let item :=
            {| item_id := "ii_" +:+ pretty (stripe_nextId s);
               item_customer := params_customer p;
               item_subscription := params_subscription p;
               item_amount := params_amount p;
               item_currency := params_currency p;
               item_description := params_description p;
               item_metadata := params_metadata p;
               item_invoice := None |} in
          (Return item,
           {| stripe_invoices := stripe_invoices s;
              stripe_invoiceItems := item :: stripe_invoiceItems s;
              stripe_customers := stripe_customers s;
              stripe_idempotency :=
                match idempotencyKey with
                | Some k => (k, item) :: stripe_idempotency s
                | None => stripe_idempotency s
                end;
              stripe_faults := stripe_faults s;
              stripe_nextId := S (stripe_nextId s) |})
        else (Throw "No such customer", s)
    end).

(** A pending item that a new stand-alone invoice of [customer] picks up. *)
Definition pending_for (customer : string) (i : InvoiceItem) : bool :=
  bool_decide (item_customer i = customer)
  && bool_decide (item_invoice i = None)
  && bool_decide (item_subscription i = None).

Definition attach (invoice : string) (i : InvoiceItem) : InvoiceItem :=
  {| item_id := item_id i; item_customer := item_customer i;
     item_subscription := item_subscription i; item_amount := item_amount i;
     item_currency := item_currency i; item_description := item_description i;
     item_metadata := item_metadata i; item_invoice := Some invoice |}.

(** [invoices.create({ customer, metadata, pending_invoice_items_behavior:
    'include', ... })]: a draft invoice over the customer's pending items. *)
Definition invoices_create (customer : string) (metadata : gmap string string)
    : M Invoice :=
  api (λ s now,
    if has_customer s customer then
      let id := "in_" +:+ pretty (stripe_nextId s) in
      let invoice :=
        {| invoice_id := id;
           invoice_customer := customer;
           invoice_subscription := None;
           invoice_billing_reason := Some "manual";
           invoice_metadata := metadata;
           invoice_status := draft;
           invoice_created := now `div` 1000;
           invoice_amount_due :=
             foldr Z.add 0
               (item_amount <$> List.filter (pending_for customer) (stripe_invoiceItems s));
           invoice_amount_paid := 0;
           invoice_attempt_count := 0;
           invoice_attempted := false;
           invoice_period_end := None |} in
      (Return invoice,
       {| stripe_invoices := invoice :: stripe_invoices s;
          stripe_invoiceItems :=
            (λ i, if pending_for customer i then attach id i else i)
            <$> stripe_invoiceItems s;
          stripe_customers := stripe_customers s;
          stripe_idempotency := stripe_idempotency s;
          stripe_faults := stripe_faults s;
          stripe_nextId := S (stripe_nextId s) |})
    else (Throw "No such customer", s)).

Definition set_status (i : Invoice) (status : InvoiceStatus) (paidAmount : Z)
    (attempted : bool) : Invoice :=
  {| invoice_id := invoice_id i; invoice_customer := invoice_customer i;
     invoice_subscription := invoice_subscription i;
     invoice_billing_reason := invoice_billing_reason i;
     invoice_metadata := invoice_metadata i;
     invoice_status := status;
     invoice_created := invoice_created i;
     invoice_amount_due := invoice_amount_due i;
     invoice_amount_paid := paidAmount;
     invoice_attempt_count := invoice_attempt_count i;
     invoice_attempted := attempted;
     invoice_period_end := invoice_period_end i |}.

Definition replace_invoice (i : Invoice) (invoices : list Invoice) : list Invoice :=
  (λ j, if bool_decide (invoice_id j = invoice_id i) then i else j) <$> invoices.

Definition find_invoice (s : Stripe) (id : string) : option Invoice :=
  List.find (λ i, bool_decide (invoice_id i = id)) (stripe_invoices s).

(** [invoices.finalizeInvoice(id)]: a draft becomes open. *)
Definition invoices_finalizeInvoice (id : string) : M Invoice :=
  api (λ s _,
    match find_invoice s id with
    | Some i =>
        if bool_decide (invoice_status i = draft) then
          let i' := set_status i open (invoice_amount_paid i) (invoice_attempted i) in
          (Return i', with_invoices s (replace_invoice i' (stripe_invoices s)))
        else (Throw "Invoice is already finalized", s)
    | None => (Throw "No such invoice", s)
    end).

(** [invoices.pay(id)]: an open invoice becomes paid. *)
Definition invoices_pay (id : string) : M Invoice :=
  api (λ s _,
    match find_invoice s id with
    | Some i =>
        if bool_decide (invoice_status i = open) then
          let i' := set_status i paid (invoice_amount_due i) true in
          (Return i', with_invoices s (replace_invoice i' (stripe_invoices s)))
        else (Throw "Invoice cannot be paid", s)
    | None => (Throw "No such invoice", s)
    end).

(** ** The billing core ([billing.ts]) *)

Record BillingResult := {
  success : bool;
  chargedAmount : option Qc;
  invoiceId : option string;
  error : option string
}.

Definition succeeded (charged : Qc) (invoice : option string) : BillingResult :=
  {| success := true; chargedAmount := Some charged; invoiceId := invoice;
     error := None |}.

Definition failed (message : string) : BillingResult :=
  {| success := false; chargedAmount := None; invoiceId := None;
     error := Some message |}.

(** Result of [calculateUserOverage]. *)
Record UserOverage := {
  overage_basePrice : Qc;
  actualUsage : Qc;
  overageAmount : Qc;
  overage_plan : string
}.

(** A row of the member/user join of [processOrganizationOverageBilling]. *)
Record MemberInfo := {
  info_userId : string;
  info_userName : option string;
  info_userEmail : option string
}.

(** The figures [processOrganizationOverageBilling] derives (and logs as
    'Organization overage calculation'). *)
Record OrganizationOverage := {
  licensedSeats : Z;
  basePricePerSeat : Qc;
  baseSubscriptionAmount : Qc;
  totalTeamUsage : Qc;
  totalOverage : Qc;
  memberUsageDetails : list (string * option string * option string * Qc)
}.

Definition getOrganizationSubscription (d : DB) (organizationId : string)
    : option SubscriptionRow :=
  select_first
    (λ s, bool_decide (subscription_referenceId s = organizationId)
          && bool_decide (subscription_status s = Some "active"))
    (subscription d).

(** [from(member).innerJoin(user, member.userId = user.id)
     .where(member.organizationId = organizationId)] *)
Definition members_with_user (d : DB) (organizationId : string)
    : list (MemberRow * UserRow) :=
  m ← select_where (λ m, bool_decide (member_organizationId m = organizationId))
        (member d);
  u ← select_where (λ u, bool_decide (member_userId m = user_id u)) (user d);
  [(m, u)].

(** The owner rows of the same join, as [getStripeCustomerId] reads them
    ([from(user).innerJoin(member, ...)], restricted to the role 'owner'). *)
Definition owners_with_member (d : DB) (organizationId : string)
    : list (UserRow * MemberRow) :=
  u ← user d;
  m ← select_where
        (λ m, bool_decide (member_userId m = user_id u)
              && bool_decide (member_organizationId m = organizationId)
              && bool_decide (member_role m = "owner"))
        (member d);
  [(u, m)].

Definition getStripeCustomerId (d : DB) (referenceId : string) : option string :=
  let userRecord := select_first (λ u, bool_decide (user_id u = referenceId)) (user d) in
  match userRecord with
  | Some u =>
      if truthy_string (user_stripeCustomerId u) then user_stripeCustomerId u
      else None
  | None => None
  end
  ∪
  (let orgRecord :=
     select_first (λ o, bool_decide (organization_id o = referenceId)) (organization d) in
   match orgRecord with
   | Some _ =>
       match head (owners_with_member d referenceId) with
       | Some (owner, _) =>
           if truthy_string (user_stripeCustomerId owner)
           then user_stripeCustomerId owner else None
       | None => None
       end
   | None => None
   end).

(** The predicate of [recentInvoices.data.find(...)]. *)
Definition is_overage_invoice_for (billingPeriod : string) (i : Invoice) : bool :=
  bool_decide (invoice_metadata i !! "type" = Some "overage_billing")
  && bool_decide (invoice_metadata i !! "billingPeriod" = Some billingPeriod)
  && negb (bool_decide (invoice_status i = void)).

Section Core.
Context (env : Env).

Definition createOverageBillingInvoice (customerId : string) (overageAmount : Qc)
    (description : string) (metadata : gmap string string) : M BillingResult :=
  try_catch
    (if decide (overageAmount ≤ 0)%Qc then ret (succeeded 0 None)
     else
       now <- get_now;;
       let billingPeriod :=
         string_or (metadata !! "billingPeriod") (Date_isoMonth env now) in
       let periodStartTimestamp :=
         (λ ms, ms `div` 1000) <$> Date_parse env (billingPeriod +:+ "-01") in
       recentInvoices <- invoices_list customerId periodStartTimestamp 100;;
       match List.find (is_overage_invoice_for billingPeriod) recentInvoices with
       | Some existingOverageInvoice =>
           ret (succeeded 0 (Some (invoice_id existingOverageInvoice)))
       | None =>
           customer <- customers_retrieve customerId;;
           invoiceItem <-
             invoiceItems_create
               {| params_customer := customerId;
                  params_subscription := None;
                  params_amount := Math_round (overageAmount * Qc_of_Z 100);
                  params_currency := "usd";
                  params_description := description;
                  params_metadata := <["type" := "overage_billing"]> metadata |}
               None;;
           invoice <-
             invoices_create customerId (<["type" := "overage_billing"]> metadata);;
           finalInvoice <-
             (if bool_decide (invoice_status invoice = draft)
              then invoices_finalizeInvoice (invoice_id invoice)
              else ret invoice);;
           finalInvoice <-
             (if bool_decide (invoice_status finalInvoice = open)
              then try_catch (invoices_pay (invoice_id finalInvoice))
                     (λ _, ret finalInvoice)
              else ret finalInvoice);;
           ret (succeeded overageAmount (Some (invoice_id finalInvoice)))
       end)
    (λ e, ret (failed e)).

Definition calculateUserOverage (d : DB) (userId : string) : option UserOverage :=
  match getHighestPrioritySubscription env d userId,
        getUserUsageData env d userId with
  | Return subscription, Return usageData =>
      match select_first (λ u, bool_decide (user_id u = userId)) (user d) with
      | None => None
      | Some _ =>
          let plan := string_or (subscription ≫= subscription_plan) "free" in
          match getPlanPricing env (Some plan) subscription with
          | Return pricing =>
              let actualUsage := currentUsage usageData in
              Some {| overage_basePrice := basePrice pricing;
                      actualUsage := actualUsage;
                      overageAmount := Math_max 0 (actualUsage - basePrice pricing);
                      overage_plan := plan |}
          | Throw _ => None
          end
      end
  | _, _ => None
  end.

Definition processUserOverageBilling (userId : string) : M BillingResult :=
  try_catch
    (d <- get_db;;
     match calculateUserOverage d userId with
     | None => ret (failed "Failed to calculate overage information")
     | Some overageInfo =>
         if bool_decide (overage_plan overageInfo = "free") then ret (succeeded 0 None)
         else if decide (overageAmount overageInfo ≤ 0)%Qc then ret (succeeded 0 None)
         else
           match getStripeCustomerId d userId with
           | None => ret (failed "No Stripe customer ID found")
           | Some stripeCustomerId =>
               let userRecord :=
                 select_first (λ u, bool_decide (user_id u = userId)) (user d) in
               (match userRecord ≫= user_email with
                | Some email =>
                    if truthy_string (Some email)
                    then try_catch (customers_update stripeCustomerId email)
                           (λ _, ret tt)
                    else ret tt
                | None => ret tt
                end);;;
               now <- get_now;;
               let description :=
                 "Usage overage for " +:+ overage_plan overageInfo +:+ " plan - $"
                 +:+ Number_toFixed2 env (overageAmount overageInfo) +:+ " above $"
                 +:+ Number_toString env (overage_basePrice overageInfo) +:+ " base" in
               let metadata : gmap string string :=
                 list_to_map
                   [("userId", userId);
                    ("plan", overage_plan overageInfo);
                    ("basePrice", Number_toString env (overage_basePrice overageInfo));
                    ("actualUsage", Number_toString env (actualUsage overageInfo));
                    ("overageAmount", Number_toString env (overageAmount overageInfo));
                    ("billingPeriod", Date_isoMonth env now)] in
               createOverageBillingInvoice stripeCustomerId
                 (overageAmount overageInfo) description metadata
           end
     end)
    (λ _, ret (failed "Failed to process overage billing")).

(** The loop over the members: the running total and the breakdown. *)
Fixpoint sum_member_usage (d : DB) (members : list MemberInfo) (total : Qc)
    (details : list (string * option string * option string * Qc))
    : Outcome (Qc * list (string * option string * option string * Qc)) :=
  match members with
  | [] => Return (total, details)
  | memberInfo :: rest =>
      match getUserUsageData env d (info_userId memberInfo) with
      | Return usageData =>
          sum_member_usage d rest (total + currentUsage usageData)%Qc
            (details ++ [(info_userId memberInfo, info_userName memberInfo,
                          info_userEmail memberInfo, currentUsage usageData)])
      | Throw e => Throw e
      end
  end.

(** The members of an organization as [processOrganizationOverageBilling]
    selects them. *)
Definition organization_members (d : DB) (organizationId : string) : list MemberInfo :=
  (λ mu, {| info_userId := member_userId mu.1;
            info_userName := user_name mu.2;
            info_userEmail := user_email mu.2 |})
  <$> members_with_user d organizationId.

(** Lines 516-537 of [billing.ts]: the overage of an organization. *)
Definition organizationOverage (d : DB) (subscription : SubscriptionRow)
    (members : list MemberInfo) : Outcome OrganizationOverage :=
  match getPlanPricing env (subscription_plan subscription) (Some subscription) with
  | Return pricing =>
      let basePricePerSeat := basePrice pricing in
      let licensedSeats := licensedSeats_of (subscription_seats subscription) in
      let baseSubscriptionAmount := (Qc_of_Z licensedSeats * basePricePerSeat)%Qc in
      match sum_member_usage d members 0%Qc [] with
      | Return (totalTeamUsage, memberUsageDetails) =>
          Return {| licensedSeats := licensedSeats;
                    basePricePerSeat := basePricePerSeat;
                    baseSubscriptionAmount := baseSubscriptionAmount;
                    totalTeamUsage := totalTeamUsage;
                    totalOverage := Math_max 0 (totalTeamUsage - baseSubscriptionAmount);
                    memberUsageDetails := memberUsageDetails |}
      | Throw e => Throw e
      end
  | Throw e => Throw e
  end.

Definition processOrganizationOverageBilling (organizationId : string)
    : M BillingResult :=
  try_catch
    (d <- get_db;;
     match getOrganizationSubscription d organizationId with
     | None => ret (failed "No valid subscription found")
     | Some subscription =>
         if negb (is_team_or_enterprise (subscription_plan subscription))
         then ret (failed "No valid subscription found")
         else
           match getStripeCustomerId d organizationId with
           | None => ret (failed "No Stripe customer ID found")
           | Some stripeCustomerId =>
               let orgOwner :=
                 head (List.filter (λ mu, bool_decide (member_role mu.1 = "owner"))
                         (members_with_user d organizationId)) in
               (match orgOwner ≫= (λ mu, user_email mu.2) with
                | Some email =>
                    if truthy_string (Some email)
                    then try_catch (customers_update stripeCustomerId email)
                           (λ _, ret tt)
                    else ret tt
                | None => ret tt
                end);;;
               let members := organization_members d organizationId in
               if bool_decide (members = []) then ret (succeeded 0 None)
               else
                 o <- lift (organizationOverage d subscription members);;
                 if decide (totalOverage o ≤ 0)%Qc then ret (succeeded 0 None)
                 else
                   now <- get_now;;
                   let plan := default "null" (subscription_plan subscription) in
                   let description :=
                     "Team usage overage for " +:+ plan +:+ " plan - "
                     +:+ pretty (licensedSeats o) +:+ " licensed seats, $"
                     +:+ Number_toFixed2 env (totalTeamUsage o) +:+ " total usage, $"
                     +:+ Number_toFixed2 env (totalOverage o) +:+ " overage" in
                   let metadata : gmap string string :=
                     list_to_map
                       [("organizationId", organizationId);
                        ("plan", plan);
                        ("licensedSeats", pretty (licensedSeats o));
                        ("memberCount", pretty (length members));
                        ("basePricePerSeat", Number_toString env (basePricePerSeat o));
                        ("baseSubscriptionAmount",
                         Number_toString env (baseSubscriptionAmount o));
                        ("totalTeamUsage", Number_toString env (totalTeamUsage o));
                        ("totalOverage", Number_toString env (totalOverage o));
                        ("billingPeriod", Date_isoMonth env now);
                        ("memberDetails",
                         JSON_stringify_usage env (memberUsageDetails o))] in
                   createOverageBillingInvoice stripeCustomerId (totalOverage o)
                     description metadata
           end
     end)
    (λ _, ret (failed "Failed to process organization overage billing")).

End Core.

(** ** Webhook handlers ([invoices.ts]) *)

(** [select * from subscription where stripeSubscriptionId = id limit 1] *)
Definition subscription_by_stripe_id (d : DB) (id : string) : option SubscriptionRow :=
  select_first (λ s, bool_decide (subscription_stripeSubscriptionId s = Some id))
    (subscription d).

(** The first [userStats] row of a user says it is blocked. *)
Definition user_blocked (d : DB) (uid : string) : bool :=
  match select_first (has_userId uid) (userStats d) with
  | Some row => billingBlocked row
  | None => false
  end.

(** The [wasBlocked] flag of [handleInvoicePaymentSucceeded]. *)
Definition wasBlocked (d : DB) (sub : SubscriptionRow) : bool :=
  if is_team_or_enterprise (subscription_plan sub) then
    existsb (user_blocked d) (members_of d (subscription_referenceId sub))
  else user_blocked d (subscription_referenceId sub).

(** [billingBlocked := b] for every subject of the subscription. *)
Definition set_blocked_for (b : bool) (sub : SubscriptionRow) (d : DB) : DB :=
  if is_team_or_enterprise (subscription_plan sub) then
    foldl (λ d m, update_userStats m (set_billingBlocked b) d) d
      (members_of d (subscription_referenceId sub))
  else update_userStats (subscription_referenceId sub) (set_billingBlocked b) d.

Definition handleInvoicePaymentSucceeded (event : Event) (d : DB) : DB :=
  let invoice := event_object event in
  if negb (truthy_string (invoice_subscription invoice)) then d
  else
    let stripeSubscriptionId := default "" (invoice_subscription invoice) in
    match subscription_by_stripe_id d stripeSubscriptionId with
    | None => d
    | Some sub =>
        let wasBlocked := wasBlocked d sub in
        let d := set_blocked_for false sub d in
        if wasBlocked then
          resetUsageForSubscription (subscription_plan sub)
            (subscription_referenceId sub) d
        else d
    end.

(** [invoice.attempt_count || 1] *)
Definition attemptCount_of (invoice : Invoice) : Z :=
  if bool_decide (invoice_attempt_count invoice = 0) then 1
  else invoice_attempt_count invoice.

Definition handleInvoicePaymentFailed (event : Event) (d : DB) : DB :=
  let invoice := event_object event in
  if negb (bool_decide (invoice_metadata invoice !! "type" = Some "overage_billing"))
  then d
  else
    let attemptCount := attemptCount_of invoice in
    if bool_decide (1 ≤ attemptCount) then
      let stripeSubscriptionId := string_or (invoice_subscription invoice) "" in
      if negb (bool_decide (stripeSubscriptionId = "")) then
        match subscription_by_stripe_id d stripeSubscriptionId with
        | Some sub => set_blocked_for true sub d
        | None => d
        end
      else d
    else d.

(** The notification of a subscription update ([Stripe.Subscription]). *)
Record StripeSubscription := {
  stripeSubscription_id : string;
  stripeSubscription_status : string
}.

(** [handleSubscriptionUpdated]: refreshes the status of the matching
    subscription rows (the period bounds are not part of [SubscriptionRow]). *)
Definition handleSubscriptionUpdated (stripeSubscription : StripeSubscription)
    (d : DB) : DB :=
  match subscription_by_stripe_id d (stripeSubscription_id stripeSubscription) with
  | None => d
  | Some _ =>
      {| user := user d; organization := organization d; member := member d;
         subscription :=
           (λ s, if bool_decide (subscription_stripeSubscriptionId s
                                 = Some (stripeSubscription_id stripeSubscription))
                 then {| subscription_id := subscription_id s;
                         subscription_plan := subscription_plan s;
                         subscription_referenceId := subscription_referenceId s;
                         subscription_status :=
                           Some (stripeSubscription_status stripeSubscription);
                         subscription_seats := subscription_seats s;
                         subscription_metadata := subscription_metadata s;
                         subscription_stripeSubscriptionId :=
                           subscription_stripeSubscriptionId s |}
                 else s)
           <$> subscription d;
         userStats := userStats d |}
  end.

Section Handlers.
Context (env : Env).

(** The running total of [handleInvoiceCreated] and [handleInvoiceUpcoming]. *)
Fixpoint sum_usage (d : DB) (members : list string) (total : Qc) : Outcome Qc :=
  match members with
  | [] => Return total
  | m :: rest =>
      match getUserUsageData env d m with
      | Return usage => sum_usage d rest (total + currentUsage usage)%Qc
      | Throw e => Throw e
      end
  end.

(** [addOverageItem], given the billing period its caller works out. *)
Definition addOverageItem (billingPeriod : string) (customerId : string)
    (subscriptionId : string) (amountDollars : Qc)
    (metadata : gmap string string) : M unit :=
  invoiceItems_create
    {| params_customer := customerId;
       params_subscription := Some subscriptionId;
       params_amount := Math_round (amountDollars * Qc_of_Z 100);
       params_currency := "usd";
       params_description := "Overage for " +:+ billingPeriod;
       params_metadata :=
         metadata ∪ {[ "type" := "overage_billing"; "billingPeriod" := billingPeriod ]} |}
    (Some (customerId +:+ ":" +:+ subscriptionId +:+ ":" +:+ billingPeriod
           +:+ ":overage"));;;
  ret tt.

(** Overage of the subscription, the part both handlers share: the amount
    and the metadata of the invoice item. *)
Definition renewal_overage (d : DB) (sub : SubscriptionRow)
    : Outcome (Qc * gmap string string) :=
  if is_team_or_enterprise (subscription_plan sub) then
    match sum_usage d (members_of d (subscription_referenceId sub)) 0%Qc with
    | Return totalTeamUsage =>
        let licensedSeats := licensedSeats_of (subscription_seats sub) in
        match getPlanPricing env (subscription_plan sub) (Some sub) with
        | Return pricing =>
            let baseSubscriptionAmount :=
              (Qc_of_Z licensedSeats * basePrice pricing)%Qc in
            Return (Math_max 0 (totalTeamUsage - baseSubscriptionAmount),
                    {[ "organizationId" := subscription_referenceId sub ]})
        | Throw e => Throw e
        end
    | Throw e => Throw e
    end
  else
    match getUserUsageData env d (subscription_referenceId sub) with
    | Return usage =>
        match getPlanPricing env (subscription_plan sub) (Some sub) with
        | Return pricing =>
            Return (Math_max 0 (currentUsage usage - basePrice pricing),
                    {[ "userId" := subscription_referenceId sub ]})
        | Throw e => Throw e
        end
    | Throw e => Throw e
    end.

Definition handleInvoiceCreated (event : Event) : M unit :=
  let invoice := event_object event in
  if negb (truthy_string (invoice_subscription invoice))
     || negb (bool_decide (invoice_billing_reason invoice = Some "subscription_cycle"))
  then ret tt
  else
    let stripeSubscriptionId := default "" (invoice_subscription invoice) in
    d <- get_db;;
    match subscription_by_stripe_id d stripeSubscriptionId with
    | None => ret tt
    | Some sub =>
        r <- lift (renewal_overage d sub);;
        let overage := r.1 in
        let metadata := r.2 in
        (if decide (0 < overage)%Qc then
           now <- get_now;;
           let periodEnd :=
             match invoice_period_end invoice with
             | Some t => if bool_decide (t = 0) then now `div` 1000 else t
             | None => now `div` 1000
             end in
           let billingPeriod := Date_isoMonth env (periodEnd * 1000) in
           addOverageItem billingPeriod (invoice_customer invoice)
             stripeSubscriptionId overage metadata
         else ret tt);;;
        modify_db
          (resetUsageForSubscription (subscription_plan sub)
             (subscription_referenceId sub))
    end.

Definition handleInvoiceUpcoming (event : Event) : M unit :=
  let invoice := event_object event in
  if negb (truthy_string (invoice_subscription invoice)) then ret tt
  else
    let stripeSubscriptionId := default "" (invoice_subscription invoice) in
    d <- get_db;;
    match subscription_by_stripe_id d stripeSubscriptionId with
    | None => ret tt
    | Some sub =>
        r <- lift (renewal_overage d sub);;
        let overage := r.1 in
        let metadata := r.2 in
        if decide (0 < overage)%Qc then
          now <- get_now;;
          addOverageItem (Date_isoMonth env now) (invoice_customer invoice)
            stripeSubscriptionId overage metadata
        else ret tt
    end.

Definition handleInvoiceFinalized (event : Event) : M unit :=
  let invoice := event_object event in
  if bool_decide (invoice_metadata invoice !! "type" = Some "overage_billing")
  then ret tt
  else if truthy_string (invoice_subscription invoice)
          && bool_decide (invoice_billing_reason invoice = Some "subscription_cycle")
  then
    let stripeSubscriptionId := default "" (invoice_subscription invoice) in
    d <- get_db;;
    match subscription_by_stripe_id d stripeSubscriptionId with
    | None => ret tt
    | Some sub =>
        try_catch
          (if is_team_or_enterprise (subscription_plan sub) then
             processOrganizationOverageBilling env (subscription_referenceId sub);;;
             ret tt
           else
             processUserOverageBilling env (subscription_referenceId sub);;;
             ret tt)
          (λ _, ret tt)
    end
  else ret tt.

End Handlers.

(** ** The payment handlers of the later revisions ([invoices.ts])

    The second and the third revision of the file (lines 299-592 and
    593-893) share these two handlers: a paid renewal invoice resets the
    usage counters, with the statements of [reset_user] written out in the
    handler, and a failed payment is only reported. *)
Module Later.

Definition handleInvoicePaymentSucceeded (event : Event) (d : DB) : DB :=
  let invoice := event_object event in
  if bool_decide (invoice_metadata invoice !! "type" = Some "overage_billing")
  then d
  else if truthy_string (invoice_subscription invoice) then
    let reason := invoice_billing_reason invoice in
    let isCycle := bool_decide (reason = Some "subscription_cycle") in
    if negb isCycle then d
    else
      let stripeSubscriptionId := default "" (invoice_subscription invoice) in
      match subscription_by_stripe_id d stripeSubscriptionId with
      | None => d
      | Some sub =>
          if is_team_or_enterprise (subscription_plan sub) then
            let members := members_of d (subscription_referenceId sub) in
            foldl (λ d memberRecord, reset_user memberRecord d) d members
          else reset_user (subscription_referenceId sub) d
      end
  else d.

(** Every branch only writes to the log. *)
Definition handleInvoicePaymentFailed (event : Event) (d : DB) : DB :=
  let invoice := event_object event in
  if negb (bool_decide (invoice_metadata invoice !! "type" = Some "overage_billing"))
  then d
  else
    let attemptCount := attemptCount_of invoice in
    if bool_decide (3 ≤ attemptCount) then d else d.

End Later.

(** ** The subscription webhook *)

(** [handleSubscriptionWebhook]: the dispatch on [event.type]. *)
Definition handleSubscriptionWebhook (eventType : string)
    (stripeSubscription : StripeSubscription) (d : DB) : DB :=
  if bool_decide (eventType = "customer.subscription.updated")
  then handleSubscriptionUpdated stripeSubscription d
  else d.

(** ** The billing summary ([billing.ts]) *)

(** [Math.ceil(x)] *)
Definition Math_ceil (x : Qc) : Z := Qceiling x.

Inductive SummaryType :=
| type_individual
| type_organization.

(** The fields of the object [getUserUsageData] returns that only the
    summary reads. *)
Record UsagePeriod := {
  billingPeriodStart : option Z;
  billingPeriodEnd : option Z;
  period_lastPeriodCost : Qc
}.

(** The [usage] part of a summary. *)
Record UsageSummary := {
  usage_current : Qc;
  usage_limit_shown : Qc;
  usage_percentUsed : Z;
  usage_isWarning : bool;
  usage_isExceeded : bool;
  usage_billingPeriodStart : option Z;
  usage_billingPeriodEnd : option Z;
  usage_lastPeriodCost : Qc;
  usage_daysRemaining : Z
}.

Record OrganizationData := {
  seatCount : Z;
  memberCount : nat;
  totalBasePrice : Qc;
  totalCurrentUsage : Qc;
  organization_totalOverage : Qc
}.

(** The summary; its field [periodEnd] copies a column that [SubscriptionRow]
    does not carry and is left out. *)
Record BillingSummary := {
  summary_type : SummaryType;
  summary_plan : option string;
  summary_basePrice : Qc;
  summary_currentUsage : Qc;
  summary_overageAmount : Qc;
  totalProjected : Qc;
  usageLimit : Qc;
  percentUsed : Z;
  isWarning : bool;
  isExceeded : bool;
  daysRemaining : Z;
  isPaid : bool;
  isPro : bool;
  isTeam : bool;
  isEnterprise : bool;
  summary_status : option string;
  summary_seats : option Z;
  summary_metadata : MetadataColumn;
  summary_stripeSubscriptionId : option string;
  usage : UsageSummary;
  organizationData : option OrganizationData
}.

(** [limit > 0 ? Math.round((usage / limit) * 100) : 0] *)
Definition percentUsed_of (usage limit : Qc) : Z :=
  if decide (0 < limit)%Qc then Math_round (usage / limit * Qc_of_Z 100) else 0.

(** [percentUsed >= 80 && percentUsed < 100] *)
Definition isWarning_of (percentUsed : Z) : bool :=
  bool_decide (80 ≤ percentUsed) && bool_decide (percentUsed < 100).

(** [billingPeriodEnd ? Math.max(0, Math.ceil((billingPeriodEnd.getTime()
    - Date.now()) / (1000 * 60 * 60 * 24))) : 0] *)
Definition daysRemaining_of (billingPeriodEnd : option Z) (now : Z) : Z :=
  match billingPeriodEnd with
  | Some t =>
      Z.max 0 (Math_ceil (Qc_of_Z (t - now) / Qc_of_Z (1000 * 60 * 60 * 24)))
  | None => 0
  end.

(** [x || null] on the columns the summary copies. *)
Definition string_or_null (s : option string) : option string :=
  if truthy_string s then s else None.

Definition seats_or_null (seats : option Z) : option Z :=
  match seats with
  | Some n => if bool_decide (n = 0) then None else Some n
  | None => None
  end.

Definition metadata_or_null (m : MetadataColumn) : MetadataColumn :=
  if metadata_truthy m then m else MetadataNull.

Section Summary.
Context (env : Env).
(** The remaining fields of what [getUserUsageData] returns for a user. *)
Context (getUsagePeriod : DB → string → UsagePeriod).

Definition getDefaultBillingSummary (type : SummaryType) : BillingSummary :=
  {| summary_type := type;
     summary_plan := Some "free";
     summary_basePrice := 0;
     summary_currentUsage := 0;
     summary_overageAmount := 0;
     totalProjected := 0;
     usageLimit := getFreeTierLimit env;
     percentUsed := 0;
     isWarning := false;
     isExceeded := false;
     daysRemaining := 0;
     isPaid := false;
     isPro := false;
     isTeam := false;
     isEnterprise := false;
     summary_status := None;
     summary_seats := None;
     summary_metadata := MetadataNull;
     summary_stripeSubscriptionId := None;
     usage :=
       {| usage_current := 0;
          usage_limit_shown := getFreeTierLimit env;
          usage_percentUsed := 0;
          usage_isWarning := false;
          usage_isExceeded := false;
          usage_billingPeriodStart := None;
          usage_billingPeriodEnd := None;
          usage_lastPeriodCost := 0;
          usage_daysRemaining := 0 |};
     organizationData := None |}.

(** The body of the [try] block of [getSimplifiedBillingSummary]. *)
Definition billing_summary (d : DB) (now : Z) (userId : string)
    (organizationId : option string) : Outcome BillingSummary :=
  match (if truthy_string organizationId
         then Return (getOrganizationSubscription d (default "" organizationId))
         else getHighestPrioritySubscription env d userId),
        getUserUsageData env d userId with
  | Return subscription, Return usageData =>
      let period := getUsagePeriod d userId in
      let plan := string_or (subscription ≫= subscription_plan) "free" in
      let isPaid := negb (bool_decide (plan = "free")) in
      let isPro := bool_decide (plan = "pro") in
      let isTeam := bool_decide (plan = "team") in
      let isEnterprise := bool_decide (plan = "enterprise") in
      if truthy_string organizationId then
        match subscription with
        | None => Return (getDefaultBillingSummary type_organization)
        | Some subscription =>
            let members := members_of d (default "" organizationId) in
            match getPlanPricing env (subscription_plan subscription)
                    (Some subscription) with
            | Throw e => Throw e
            | Return pricing =>
                let basePricePerSeat := basePrice pricing in
                let licensedSeats := licensedSeats_of (subscription_seats subscription) in
                let totalBasePrice := (basePricePerSeat * Qc_of_Z licensedSeats)%Qc in
                match sum_usage env d members 0%Qc with
                | Throw e => Throw e
                | Return totalCurrentUsage =>
                    let totalOverage :=
                      Math_max 0 (totalCurrentUsage - totalBasePrice) in
                    let percentUsed :=
                      percentUsed_of (currentUsage usageData) (usage_limit usageData) in
                    let daysRemaining :=
                      daysRemaining_of (billingPeriodEnd period) now in
                    Return
                      {| summary_type := type_organization;
                         summary_plan := subscription_plan subscription;
                         summary_basePrice := totalBasePrice;
                         summary_currentUsage := totalCurrentUsage;
                         summary_overageAmount := totalOverage;
                         totalProjected := (totalBasePrice + totalOverage)%Qc;
                         usageLimit := usage_limit usageData;
                         percentUsed := percentUsed;
                         isWarning := isWarning_of percentUsed;
                         isExceeded :=
                           bool_decide (usage_limit usageData ≤ currentUsage usageData)%Qc;
                         daysRemaining := daysRemaining;
                         isPaid := isPaid;
                         isPro := isPro;
                         isTeam := isTeam;
                         isEnterprise := isEnterprise;
                         summary_status :=
                           string_or_null (subscription_status subscription);
                         summary_seats := seats_or_null (subscription_seats subscription);
                         summary_metadata :=
                           metadata_or_null (subscription_metadata subscription);
                         summary_stripeSubscriptionId :=
                           string_or_null (subscription_stripeSubscriptionId subscription);
                         usage :=
                           {| usage_current := currentUsage usageData;
                              usage_limit_shown := usage_limit usageData;
                              usage_percentUsed := percentUsed;
                              usage_isWarning := isWarning_of percentUsed;
                              usage_isExceeded :=
                                bool_decide
                                  (usage_limit usageData ≤ currentUsage usageData)%Qc;
                              usage_billingPeriodStart := billingPeriodStart period;
                              usage_billingPeriodEnd := billingPeriodEnd period;
                              usage_lastPeriodCost := period_lastPeriodCost period;
                              usage_daysRemaining := daysRemaining |};
                         organizationData :=
                           Some {| seatCount := licensedSeats;
                                   memberCount := length members;
                                   totalBasePrice := totalBasePrice;
                                   totalCurrentUsage := totalCurrentUsage;
                                   organization_totalOverage := totalOverage |} |}
                end
            end
        end
      else
        match getPlanPricing env (Some plan) subscription with
        | Throw e => Throw e
        | Return pricing =>
            let basePrice := basePrice pricing in
            let teamReference :=
              if isTeam || isEnterprise
              then string_or_null (subscription_referenceId <$> subscription)
              else None in
            match (match teamReference with
                   | Some referenceId => sum_usage env d (members_of d referenceId) 0%Qc
                   | None => Return (currentUsage usageData)
                   end) with
            | Throw e => Throw e
            | Return currentUsage =>
                let overageAmount := Math_max 0 (currentUsage - basePrice) in
                let percentUsed := percentUsed_of currentUsage (usage_limit usageData) in
                let daysRemaining :=
                  daysRemaining_of (billingPeriodEnd period) now in
                Return
                  {| summary_type := type_individual;
                     summary_plan := Some plan;
                     summary_basePrice := basePrice;
                     summary_currentUsage := currentUsage;
                     summary_overageAmount := overageAmount;
                     totalProjected := (basePrice + overageAmount)%Qc;
                     usageLimit := usage_limit usageData;
                     percentUsed := percentUsed;
                     isWarning := isWarning_of percentUsed;
                     isExceeded := bool_decide (usage_limit usageData ≤ currentUsage)%Qc;
                     daysRemaining := daysRemaining;
                     isPaid := isPaid;
                     isPro := isPro;
                     isTeam := isTeam;
                     isEnterprise := isEnterprise;
                     summary_status :=
                       string_or_null (subscription ≫= subscription_status);
                     summary_seats := seats_or_null (subscription ≫= subscription_seats);
                     summary_metadata :=
                       match subscription with
                       | Some s => metadata_or_null (subscription_metadata s)
                       | None => MetadataNull
                       end;
                     summary_stripeSubscriptionId :=
                       string_or_null
                         (subscription ≫= subscription_stripeSubscriptionId);
                     usage :=
                       {| usage_current := currentUsage;
                          usage_limit_shown := usage_limit usageData;
                          usage_percentUsed := percentUsed;
                          usage_isWarning := isWarning_of percentUsed;
                          usage_isExceeded :=
                            bool_decide (usage_limit usageData ≤ currentUsage)%Qc;
                          usage_billingPeriodStart := billingPeriodStart period;
                          usage_billingPeriodEnd := billingPeriodEnd period;
                          usage_lastPeriodCost := period_lastPeriodCost period;
                          usage_daysRemaining := daysRemaining |};
                     organizationData := None |}
            end
        end
  | Throw e, _ => Throw e
  | _, Throw e => Throw e
  end.

Definition getSimplifiedBillingSummary (d : DB) (now : Z) (userId : string)
    (organizationId : option string) : BillingSummary :=
  match billing_summary d now userId organizationId with
  | Return summary => summary
  | Throw _ =>
      getDefaultBillingSummary
        (if truthy_string organizationId then type_organization else type_individual)
  end.

End Summary.

(** ** Allowances ([@/lib/billing/subscriptions/utils], second revision)

    The limits come from the application's settings and from
    [@/lib/billing/constants], neither of which is among the sources; both
    are fields of [Config].  A setting is a number or is not set. *)
Record Config := {
  FREE_TIER_COST_LIMIT : option Qc;
  PRO_TIER_COST_LIMIT : option Qc;
  TEAM_TIER_COST_LIMIT : option Qc;
  ENTERPRISE_TIER_COST_LIMIT : option Qc;
  STRIPE_FREE_PRICE_ID : option string;
  STRIPE_PRO_PRICE_ID : option string;
  STRIPE_TEAM_PRICE_ID : option string;
  DEFAULT_FREE_CREDITS : Qc;
  DEFAULT_PRO_TIER_COST_LIMIT : Qc;
  DEFAULT_TEAM_TIER_COST_LIMIT : Qc;
  DEFAULT_ENTERPRISE_TIER_COST_LIMIT : Qc
}.

(** [x || d] for a setting: zero counts as not set. *)
Definition setting_or (x : option Qc) (d : Qc) : Qc :=
  match x with
  | Some q => if bool_decide (q = 0%Qc) then d else q
  | None => d
  end.

(** [subscription?.plan === plan && subscription?.status === 'active'] *)
Definition check_plan (plan : string) (subscription : option SubscriptionRow) : bool :=
  bool_decide (subscription ≫= subscription_plan = Some plan)
  && bool_decide (subscription ≫= subscription_status = Some "active").

Definition checkEnterprisePlan (subscription : option SubscriptionRow) : bool :=
  check_plan "enterprise" subscription.

Definition checkProPlan (subscription : option SubscriptionRow) : bool :=
  check_plan "pro" subscription.

Definition checkTeamPlan (subscription : option SubscriptionRow) : bool :=
  check_plan "team" subscription.

Section Allowance.
Context (cfg : Config) (env : Env).

(** The per-seat price of an enterprise subscription: the setting, unless
    [metadata?.perSeatPrice] parses to a positive number.  A metadata
    column that is empty or holds a text has no such property. *)
Definition enterprise_perSeatPrice (metadata : MetadataColumn) : Qc :=
  let custom :=
    match metadata with
    | MetadataObject m => perSeatPrice m
    | MetadataText _ | MetadataNull => JsUndefined
    end in
  let perSeatPrice :=
    setting_or (ENTERPRISE_TIER_COST_LIMIT cfg)
      (DEFAULT_ENTERPRISE_TIER_COST_LIMIT cfg) in
  if truthy custom then
    let parsed := parseFloat env (String_of env custom) in
    if number_gt parsed 0 && negb (Number_isNaN parsed)
    then finite_value parsed
    else perSeatPrice
  else perSeatPrice.

Definition getSubscriptionAllowance (subscription : option SubscriptionRow) : Qc :=
  match subscription with
  | None => setting_or (FREE_TIER_COST_LIMIT cfg) (DEFAULT_FREE_CREDITS cfg)
  | Some s =>
      if negb (bool_decide (subscription_status s = Some "active")) then
        setting_or (FREE_TIER_COST_LIMIT cfg) (DEFAULT_FREE_CREDITS cfg)
      else
        let seats := licensedSeats_of (subscription_seats s) in
        if bool_decide (subscription_plan s = Some "pro") then
          setting_or (PRO_TIER_COST_LIMIT cfg) (DEFAULT_PRO_TIER_COST_LIMIT cfg)
        else if bool_decide (subscription_plan s = Some "team") then
          (Qc_of_Z seats
           * setting_or (TEAM_TIER_COST_LIMIT cfg) (DEFAULT_TEAM_TIER_COST_LIMIT cfg))%Qc
        else if bool_decide (subscription_plan s = Some "enterprise") then
          let metadata := subscription_metadata s in
          let perSeatPrice := enterprise_perSeatPrice metadata in
          (Qc_of_Z seats * perSeatPrice)%Qc
        else setting_or (FREE_TIER_COST_LIMIT cfg) (DEFAULT_FREE_CREDITS cfg)
  end.

Definition getPerUserMinimumLimit (subscription : option SubscriptionRow) : Qc :=
  match subscription with
  | None => setting_or (FREE_TIER_COST_LIMIT cfg) (DEFAULT_FREE_CREDITS cfg)
  | Some s =>
      if negb (bool_decide (subscription_status s = Some "active")) then
        setting_or (FREE_TIER_COST_LIMIT cfg) (DEFAULT_FREE_CREDITS cfg)
      else
        let seats := licensedSeats_of (subscription_seats s) in
        if bool_decide (subscription_plan s = Some "pro") then
          setting_or (PRO_TIER_COST_LIMIT cfg) (DEFAULT_PRO_TIER_COST_LIMIT cfg)
        else if bool_decide (subscription_plan s = Some "team") then
          (Qc_of_Z seats
           * setting_or (TEAM_TIER_COST_LIMIT cfg) (DEFAULT_TEAM_TIER_COST_LIMIT cfg))%Qc
        else if bool_decide (subscription_plan s = Some "enterprise") then
          let perSeatPrice := enterprise_perSeatPrice (subscription_metadata s) in
          (Qc_of_Z seats * perSeatPrice)%Qc
        else setting_or (FREE_TIER_COST_LIMIT cfg) (DEFAULT_FREE_CREDITS cfg)
  end.

Definition canEditUsageLimit (subscription : option SubscriptionRow) : bool :=
  match subscription with
  | None => false
  | Some s =>
      if negb (bool_decide (subscription_status s = Some "active")) then false
      else bool_decide (subscription_plan s = Some "pro")
           || bool_decide (subscription_plan s = Some "team")
           || bool_decide (subscription_plan s = Some "enterprise")
  end.

Definition getMinimumUsageLimit (subscription : option SubscriptionRow) : Qc :=
  getPerUserMinimumLimit subscription.

End Allowance.

(** ** Plans ([plans.ts]) *)

Record BillingPlan := {
  plan_name : string;
  plan_priceId : string;
  (** [limits.cost] *)
  plan_cost : Qc
}.

(** [x ?? d] for a setting: only a setting that is not set gives way. *)
Definition setting_else (x : option Qc) (d : Qc) : Qc := default d x.

Definition getPlans (cfg : Config) : list BillingPlan :=
  [ {| plan_name := "free";
       plan_priceId := string_or (STRIPE_FREE_PRICE_ID cfg) "";
       plan_cost := setting_else (FREE_TIER_COST_LIMIT cfg) (DEFAULT_FREE_CREDITS cfg) |};
    {| plan_name := "pro";
       plan_priceId := string_or (STRIPE_PRO_PRICE_ID cfg) "";
       plan_cost := setting_else (PRO_TIER_COST_LIMIT cfg) (Qc_of_Z 20) |};
    {| plan_name := "team";
       plan_priceId := string_or (STRIPE_TEAM_PRICE_ID cfg) "";
       plan_cost := setting_else (TEAM_TIER_COST_LIMIT cfg) (Qc_of_Z 40) |} ].

Definition getPlanByName (cfg : Config) (planName : string) : option BillingPlan :=
  List.find (λ plan, bool_decide (plan_name plan = planName)) (getPlans cfg).

Definition getPlanLimits (cfg : Config) (planName : string) : Qc :=
  match getPlanByName cfg planName with
  | Some plan => plan_cost plan
  | None => DEFAULT_FREE_CREDITS cfg
  end.

(** ** Allowances, first revision ([@/lib/billing/subscriptions/utils])

    The first revision of the file reads the allowance of an enterprise
    subscription from the metadata fields [perSeatAllowance] and
    [totalAllowance] and passes what [Number.parseFloat] makes of them on,
    [NaN] included. *)
Module FirstRevision.

Record AllowanceMetadata := {
  perSeatAllowance : JsValue;
  totalAllowance : JsValue
}.

(** The properties of its argument that the revision reads; a metadata
    that is not an object has none of the two fields. *)
Record Subscription := {
  plan : option string;
  status : option string;
  seats : option Z;
  metadata : option AllowanceMetadata
}.

(** [seats * x] and [x / seats] for a seat count, which is never zero. *)
Definition times_seats (seats : Z) (x : number) : number :=
  match x with
  | Num q => Num (Qc_of_Z seats * q)
  | NaN => NaN
  end.

Definition per_seat (x : number) (seats : Z) : number :=
  match x with
  | Num q => Num (q / Qc_of_Z seats)
  | NaN => NaN
  end.

Section Allowance.
Context (cfg : Config) (env : Env).

(** [metadata.field], with [subscription.metadata || {}] for [metadata]. *)
Definition metadata_field (field : AllowanceMetadata → JsValue)
    (subscription : Subscription) : JsValue :=
  match metadata subscription with
  | Some m => field m
  | None => JsUndefined
  end.

Definition getSubscriptionAllowance (subscription : option Subscription) : number :=
  match subscription with
  | None => Num (setting_or (FREE_TIER_COST_LIMIT cfg) (DEFAULT_FREE_CREDITS cfg))
  | Some s =>
      if negb (bool_decide (status s = Some "active")) then
        Num (setting_or (FREE_TIER_COST_LIMIT cfg) (DEFAULT_FREE_CREDITS cfg))
      else
        let seats := licensedSeats_of (seats s) in
        if bool_decide (plan s = Some "pro") then
          Num (setting_or (PRO_TIER_COST_LIMIT cfg) (DEFAULT_PRO_TIER_COST_LIMIT cfg))
        else if bool_decide (plan s = Some "team") then
          Num (Qc_of_Z seats
               * setting_or (TEAM_TIER_COST_LIMIT cfg)
                   (DEFAULT_TEAM_TIER_COST_LIMIT cfg))
        else if bool_decide (plan s = Some "enterprise") then
          if truthy (metadata_field perSeatAllowance s) then
            times_seats seats
              (parseFloat env (String_of env (metadata_field perSeatAllowance s)))
          else if truthy (metadata_field totalAllowance s) then
            parseFloat env (String_of env (metadata_field totalAllowance s))
          else
            Num (Qc_of_Z seats
                 * setting_or (ENTERPRISE_TIER_COST_LIMIT cfg)
                     (DEFAULT_ENTERPRISE_TIER_COST_LIMIT cfg))
        else Num (setting_or (FREE_TIER_COST_LIMIT cfg) (DEFAULT_FREE_CREDITS cfg))
  end.

Definition getPerUserMinimumLimit (subscription : option Subscription) : number :=
  match subscription with
  | None => Num (setting_or (FREE_TIER_COST_LIMIT cfg) (DEFAULT_FREE_CREDITS cfg))
  | Some s =>
      if negb (bool_decide (status s = Some "active")) then
        Num (setting_or (FREE_TIER_COST_LIMIT cfg) (DEFAULT_FREE_CREDITS cfg))
      else
        let seats := licensedSeats_of (seats s) in
        if bool_decide (plan s = Some "pro") then
          Num (setting_or (PRO_TIER_COST_LIMIT cfg) (DEFAULT_PRO_TIER_COST_LIMIT cfg))
        else if bool_decide (plan s = Some "team") then Num 0
        else if bool_decide (plan s = Some "enterprise") then
          if truthy (metadata_field perSeatAllowance s) then
            parseFloat env (String_of env (metadata_field perSeatAllowance s))
          else if truthy (metadata_field totalAllowance s) then
            per_seat
              (parseFloat env (String_of env (metadata_field totalAllowance s)))
              seats
          else
            Num (setting_or (ENTERPRISE_TIER_COST_LIMIT cfg)
                   (DEFAULT_ENTERPRISE_TIER_COST_LIMIT cfg))
        else Num (setting_or (FREE_TIER_COST_LIMIT cfg) (DEFAULT_FREE_CREDITS cfg))
  end.

Definition getMinimumUsageLimit (subscription : option Subscription) : number :=
  getPerUserMinimumLimit subscription.

End Allowance.

End FirstRevision.

(** ** A reference environment

    Concrete collaborators, used to run the embedding on examples. *)
Module Reference.

(** *** Decimal literals *)

Definition is_digit (c : ascii) : bool :=
  (48 <=? nat_of_ascii c)%nat && (nat_of_ascii c <=? 57)%nat.

Definition digit_value (c : ascii) : Z := Z.of_nat (nat_of_ascii c) - 48.

(** Reads a run of digits: its value, its length and the rest. *)
Fixpoint take_digits (s : string) (acc : Z) (count : nat) : Z * nat * string :=
  match s with
  | String c rest =>
      if is_digit c then take_digits rest (acc * 10 + digit_value c) (S count)
      else (acc, count, s)
  | EmptyString => (acc, count, s)
  end.

Definition is_space (c : ascii) : bool :=
  bool_decide (nat_of_ascii c ∈ [9; 10; 11; 12; 13; 32]%nat).

Fixpoint skip_space (s : string) : string :=
  match s with
  | String c rest => if is_space c then skip_space rest else s
  | EmptyString => s
  end.

(** An optional sign: [true] for a minus. *)
Definition take_sign (s : string) : bool * string :=
  match s with
  | String "-" rest => (true, rest)
  | String "+" rest => (false, rest)
  | _ => (false, s)
  end.

Definition pow10 (n : Z) : Qc :=
  if bool_decide (0 ≤ n) then Qc_of_Z (10 ^ n)
  else (/ Qc_of_Z (10 ^ (- n)))%Qc.

(** [Number.parseFloat] on decimal literals: leading white space, a sign,
    digits with an optional fraction and exponent; the rest of the text is
    ignored, and a text without a leading literal is [NaN]. *)
Definition parseFloat (s : string) : number :=
  let '(negative, s) := take_sign (skip_space s) in
  let '(whole, n1, s) := take_digits s 0 0 in
  let '(fraction, n2, s) :=
    match s with
    | String "." rest => take_digits rest 0 0
    | _ => (0, 0%nat, s)
    end in
  if bool_decide ((n1 + n2)%nat = 0%nat) then NaN
  else
    let mantissa := (Qc_of_Z (whole * 10 ^ Z.of_nat n2 + fraction)
                     * pow10 (- Z.of_nat n2))%Qc in
    let exponent :=
      match s with
      | String c rest =>
          if bool_decide (c = "e"%char ∨ c = "E"%char) then
            let '(minus, rest) := take_sign rest in
            let '(e, n3, _) := take_digits rest 0 0 in
            if bool_decide (n3 = 0%nat) then 0 else if minus then - e else e
          else 0
      | EmptyString => 0
      end in
    let value := (mantissa * pow10 exponent)%Qc in
    Num (if negative then (- value)%Qc else value).

(** [toFixed(2)] *)
Definition pad2 (n : Z) : string :=
  if bool_decide (n < 10) then "0" +:+ pretty n else pretty n.

Definition Number_toFixed2 (x : Qc) : string :=
  let cents := Math_round (x * Qc_of_Z 100) in
  let magnitude := Z.abs cents in
  (if bool_decide (cents < 0) then "-" else "")
  +:+ pretty (magnitude `div` 100) +:+ "." +:+ pad2 (magnitude `mod` 100).

(** [toString]: an integer prints without a fraction; other values are
    printed to two places here. *)
Definition Number_toString (x : Qc) : string :=
  if bool_decide (Qc_of_Z (Qfloor x) = x) then pretty (Qfloor x)
  else Number_toFixed2 x.

(** *** The civil calendar (UTC) *)

(** Year and month of a day counted from 1970-01-01. *)
Definition civil_from_days (z : Z) : Z * Z :=
  let z := z + 719468 in
  let era := z `div` 146097 in
  let doe := z - era * 146097 in
  let yoe := (doe - doe `div` 1460 + doe `div` 36524 - doe `div` 146096) `div` 365 in
  let doy := doe - (365 * yoe + yoe `div` 4 - yoe `div` 100) in
  let mp := (5 * doy + 2) `div` 153 in
  let m := if bool_decide (mp < 10) then mp + 3 else mp - 9 in
  let y := yoe + era * 400 in
  (if bool_decide (m ≤ 2) then y + 1 else y, m).

(** Day number of a civil date. *)
Definition days_from_civil (y m d : Z) : Z :=
  let y := if bool_decide (m ≤ 2) then y - 1 else y in
  let era := y `div` 400 in
  let yoe := y - era * 400 in
  let mp := if bool_decide (m ≤ 2) then m + 9 else m - 3 in
  let doy := (153 * mp + 2) `div` 5 + d - 1 in
  let doe := yoe * 365 + yoe `div` 4 - yoe `div` 100 + doy in
  era * 146097 + doe - 719468.

Definition pad4 (n : Z) : string :=
  (if bool_decide (n < 10) then "000"
   else if bool_decide (n < 100) then "00"
   else if bool_decide (n < 1000) then "0" else "") +:+ pretty n.

(** [new Date(ms).toISOString().slice(0, 7)], for the years 0 to 9999. *)
Definition Date_isoMonth (ms : Z) : string :=
  let '(y, m) := civil_from_days (ms `div` 86400000) in
  pad4 y +:+ "-" +:+ pad2 m.

(** [new Date(text).getTime()] for a text of the form YYYY-MM-DD. *)
Definition Date_parse (text : string) : option Z :=
  let '(y, n1, s) := take_digits text 0 0 in
  match s with
  | String "-" s =>
      let '(m, n2, s) := take_digits s 0 0 in
      match s with
      | String "-" s =>
          let '(d, n3, s) := take_digits s 0 0 in
          if bool_decide (n1 = 4%nat ∧ n2 = 2%nat ∧ n3 = 2%nat ∧ s = ""
                          ∧ 1 ≤ m ≤ 12 ∧ 1 ≤ d ≤ 31)
          then Some (days_from_civil y m d * 86400000)
          else None
      | _ => None
      end
  | _ => None
  end.

(** *** The accessors *)

(** Modelled from the spec: [getUserUsageData] of
    [@/lib/billing/core/usage], which is not among the sources.  The
    current usage of a subject is the current-period cost of its usage
    counter (zero when it has none). *)
Definition getUserUsageData (d : DB) (userId : string) : Outcome UsageData :=
  Return
    {| currentUsage :=
         default 0%Qc (select_first (has_userId userId) (userStats d)
                       ≫= currentPeriodCost);
       usage_limit := 0%Qc |}.

(** Modelled from the spec: [getHighestPrioritySubscription] of
    [@/lib/billing/core/subscription], which is not among the sources.
    Among the active subscriptions of the subject the highest-priority one
    wins, in the order enterprise, team, pro, then any other. *)
Definition getHighestPrioritySubscription (d : DB) (userId : string)
    : Outcome (option SubscriptionRow) :=
  let active :=
    select_where
      (λ s, bool_decide (subscription_referenceId s = userId)
            && bool_decide (subscription_status s = Some "active"))
      (subscription d) in
  let of_plan (p : string) :=
    select_first (λ s, bool_decide (subscription_plan s = Some p)) active in
  Return (of_plan "enterprise" ∪ of_plan "team" ∪ of_plan "pro" ∪ head active).

(** A reader of metadata texts that accepts [null] and the empty object and
    refuses every other text. *)
Definition JSON_parse (s : string) : Outcome (option EnterpriseSubscriptionMetadata) :=
  if bool_decide (s = "null") then Return None
  else if bool_decide (s = "{}") then Return (Some {| perSeatPrice := JsUndefined |})
  else Throw "SyntaxError".

(** The environment: pro at $20, team at $40 a seat, enterprise at $200 a
    seat, $10 of free credits. *)
Definition env : Env :=
  Build_Env
    (Qc_of_Z 10) (Qc_of_Z 20) (Qc_of_Z 40) (Qc_of_Z 200)
    getHighestPrioritySubscription
    getUserUsageData
    parseFloat
    JSON_parse
    Number_toString
    Number_toFixed2
    (λ details, "[" +:+ pretty (length details) +:+ " members]")
    Date_isoMonth
    Date_parse.

End Reference.


(** ** Vocabulary of the statements *)

(** The users a subscription bills: the members of the organization for a
    team or enterprise plan, the referenced user otherwise. *)
Definition subjects (d : DB) (plan : option string) (referenceId : string)
    : list string :=
  if is_team_or_enterprise plan then members_of d referenceId else [referenceId].

(** What a usage row says about costs. *)
Definition cost_view (r : UserStatsRow) : string * option Qc * option Qc :=
  (userStats_userId r, currentPeriodCost r, lastPeriodCost r).

(** Every row of [uid] has a zero current cost. *)
Definition zeroed (uid : string) (d : DB) : Prop :=
  ∀ r, r ∈ userStats d → userStats_userId r = uid →
       currentPeriodCost r = Some 0%Qc.

(** Every row of [uid] has a zero current and a zero last cost. *)
Definition cleared (uid : string) (d : DB) : Prop :=
  ∀ r, r ∈ userStats d → userStats_userId r = uid →
       currentPeriodCost r = Some 0%Qc ∧ lastPeriodCost r = Some 0%Qc.

(** The statement that a second reset keeps the last-period cost captured
    by the first one. *)
Definition second_reset_keeps_lastPeriodCost (plan : option string)
    (referenceId : string) (d : DB) : Prop :=
  let d1 := resetUsageForSubscription plan referenceId d in
  let d2 := resetUsageForSubscription plan referenceId d1 in
  ∀ i r1 r2,
    userStats d1 !! i = Some r1 → userStats d2 !! i = Some r2 →
    userStats_userId r1 ∈ subjects d plan referenceId →
    currentPeriodCost r2 = Some 0%Qc ∧ lastPeriodCost r2 = lastPeriodCost r1.

(** The metadata object [getPlanPricing] works with for an enterprise
    subscription: none when the column is empty, and a raised error when
    its text cannot be read as an object. *)
Definition metadata_of (env : Env) (subscription : option SubscriptionRow)
    : Outcome (option EnterpriseSubscriptionMetadata) :=
  match subscription_metadata <$> subscription with
  | Some (MetadataObject m) => Return (Some m)
  | Some (MetadataText s) =>
      if bool_decide (s = "") then Return None
      else match JSON_parse env s with
           | Return (Some m) => Return (Some m)
           | Return None => Throw "TypeError"
           | Throw e => Throw e
           end
  | Some MetadataNull | None => Return None
  end.

(** A number that is positive and not [NaN]. *)
Definition valid_perSeatPrice (n : number) : option Qc :=
  match n with
  | NaN => None
  | Num q => if decide (0 < q)%Qc then Some q else None
  end.

(** The per-seat price the metadata carries, in the words of the
    specification: the value of [perSeatPrice] when it parses to a positive
    number that is not [NaN]. *)
Definition price_override (env : Env)
    (o : option EnterpriseSubscriptionMetadata) : option Qc :=
  m ← o; valid_perSeatPrice (parseFloat env (String_of env (perSeatPrice m))).

(** The built-ins read no positive number out of a falsy value
    ([undefined], [null], [false], [0], [NaN], the empty text). *)
Definition parses_falsy (env : Env) : Prop :=
  ∀ v, truthy v = false →
       valid_perSeatPrice (parseFloat env (String_of env v)) = None.

(** The statement that [getPlanPricing] returns a price for every
    enterprise subscription: the valid per-seat price of its metadata, or
    else the default. *)
Definition enterprise_price_or_default (env : Env)
    (subscription : option SubscriptionRow) : Prop :=
  ∃ o : option Qc,
    getPlanPricing env (Some "enterprise") subscription
    = Return {| basePrice := default (getEnterpriseTierLimitPerSeat env) o |}.

(** The statement that [calculateUserOverage] returns the overage of every
    existing user. *)
Definition existing_user_has_overage (env : Env) (d : DB) (userId : string)
    : Prop :=
  is_Some (select_first (λ u, bool_decide (user_id u = userId)) (user d)) →
  ∃ r, calculateUserOverage env d userId = Some r
       ∧ overageAmount r = Math_max 0 (actualUsage r - overage_basePrice r).

(** The statement that a user is blocked once the payment of the overage
    invoice billed to the user has failed: whenever
    [processUserOverageBilling] has put an invoice at the head of the
    provider's list, the failure of its payment (tagged, attempt count at
    the threshold) leaves every usage row of the user blocked. *)
Definition failed_overage_payment_blocks (env : Env) (userId : string)
    (w : World) : Prop :=
  ∀ r w' i event,
    processUserOverageBilling env userId w = (Return r, w') →
    head (stripe_invoices (world_stripe w')) = Some i →
    event_object event = i →
    invoice_metadata i !! "type" = Some "overage_billing" →
    1 ≤ attemptCount_of i →
    ∀ row, row ∈ userStats (handleInvoicePaymentFailed event (world_db w')) →
           userStats_userId row = userId →
           billingBlocked row = true.


(** The statement that a second call for the same customer and billing
    period creates no invoice and reports an existing one with a zero
    charge. *)
Definition second_call_creates_nothing (env : Env) (customerId : string)
    (amount : Qc) (description : string) (metadata : gmap string string)
    (w : World) : Prop :=
  ∀ r1 w1 r2 w2,
    createOverageBillingInvoice env customerId amount description metadata w
    = (Return r1, w1) →
    createOverageBillingInvoice env customerId amount description metadata w1
    = (Return r2, w2) →
    stripe_invoices (world_stripe w2) = stripe_invoices (world_stripe w1)
    ∧ success r2 = true ∧ chargedAmount r2 = Some 0%Qc
    ∧ ∃ existing, existing ∈ stripe_invoices (world_stripe w1)
                  ∧ invoiceId r2 = Some (invoice_id existing).

(** The statement that a webhook handler never zeroes a current-period
    cost: a usage row whose current cost is zero afterwards had a zero
    current cost before. *)
Definition never_zeroes_usage (handler : Event → M unit) : Prop :=
  ∀ event w i r r',
    userStats (world_db w) !! i = Some r →
    userStats (world_db (handler event w).2) !! i = Some r' →
    currentPeriodCost r' = Some 0%Qc →
    currentPeriodCost r = Some 0%Qc.

(** ** Vocabulary of the proofs *)

(** The reset of each listed user in turn. *)
Definition reset_all (ms : list string) (d : DB) : DB :=
  foldl (λ d m, reset_user m d) d ms.

(** The same update of the rows of each listed user in turn. *)
Definition update_all (ms : list string) (f : UserStatsRow → UserStatsRow)
    (d : DB) : DB :=
  foldl (λ d m, update_userStats m f d) d ms.

(** The sum of a list of amounts. *)
Definition total (xs : list Qc) : Qc := foldr Qcplus 0%Qc xs.


(** A computation that leaves the store and the clock as they are. *)
Definition keeps_db {A} (m : M A) : Prop :=
  ∀ w, world_db (m w).2 = world_db w ∧ world_now (m w).2 = world_now w.

(** Every value a computation returns satisfies [P]. *)
Definition returns {A} (P : A → Prop) (m : M A) : Prop :=
  ∀ w a w', m w = (Return a, w') → P a.

(** A computation that cannot raise. *)
Definition total_computation {A} (m : M A) : Prop :=
  ∀ w, ∃ a w', m w = (Return a, w').

(** Two provider states that differ at most in the scripted faults. *)
Definition same_data (s s' : Stripe) : Prop :=
  stripe_invoices s' = stripe_invoices s
  ∧ stripe_invoiceItems s' = stripe_invoiceItems s
  ∧ stripe_customers s' = stripe_customers s
  ∧ stripe_idempotency s' = stripe_idempotency s
  ∧ stripe_nextId s' = stripe_nextId s.

(** What is known of an invoice that was just created or advanced. *)
Definition is_invoice (id customer : string) (metadata : gmap string string)
    (created : Z) (i : Invoice) : Prop :=
  invoice_id i = id ∧ invoice_customer i = customer
  ∧ invoice_metadata i = metadata ∧ invoice_created i = created
  ∧ invoice_status i ≠ void.

(** ** Example stores, provider states and events *)

Module Scenario.

Definition person (id : string) : UserRow :=
  {| user_id := id; user_name := Some id;
     user_email := Some (id +:+ "@example.com");
     user_stripeCustomerId := Some ("cus_" +:+ id) |}.

Definition usage_row (id : string) (cost : Z) : UserStatsRow :=
  {| userStats_userId := id; currentPeriodCost := Some (Qc_of_Z cost);
     lastPeriodCost := Some (Qc_of_Z 7); billingBlocked := false |}.

Definition subscription_row (plan : option string) (referenceId : string)
    (seats : option Z) (metadata : MetadataColumn) : SubscriptionRow :=
  {| subscription_id := "sub_1"; subscription_plan := plan;
     subscription_referenceId := referenceId;
     subscription_status := Some "active";
     subscription_seats := seats; subscription_metadata := metadata;
     subscription_stripeSubscriptionId := Some "stripe_sub_1" |}.

(** One user "u1" on an individual plan, with the given current cost (and
    7 spent in the last period). *)
Definition individual (plan : option string) (cost : Z) : DB :=
  {| user := [person "u1"];
     organization := [];
     member := [];
     subscription := [subscription_row plan "u1" None MetadataNull];
     userStats := [usage_row "u1" cost] |}.

Definition one_user : DB := individual (Some "pro") 42.

(** The user "u1" on an enterprise plan whose metadata column holds a text
    that is not JSON. *)
Definition unreadable_metadata : DB :=
  {| user := [person "u1"];
     organization := [];
     member := [];
     subscription :=
       [subscription_row (Some "enterprise") "u1" None (MetadataText "{oops")];
     userStats := [usage_row "u1" 42] |}.

(** The same user, blocked after a failed payment. *)
Definition blocked_user : DB :=
  set_userStats one_user (set_billingBlocked true <$> userStats one_user).

(** The organization "org_1" with the given subscription and members, each
    with a current cost; the first member is the owner. *)
Definition organization_of (plan : string) (seats : option Z)
    (metadata : MetadataColumn) (members : list (string * Z)) : DB :=
  {| user := person <$> members.*1;
     organization := [ {| organization_id := "org_1" |} ];
     member :=
       imap (λ i id, {| member_id := "mem_" +:+ id; member_userId := id;
                        member_organizationId := "org_1";
                        member_role := if bool_decide (i = 0%nat)
                                       then "owner" else "member" |})
         members.*1;
     subscription := [subscription_row (Some plan) "org_1" seats metadata];
     userStats := (λ m, usage_row m.1 m.2) <$> members |}.

(** A team of three on three licensed seats: usages 50, 40 and 45. *)
Definition team : DB :=
  organization_of "team" (Some 3) MetadataNull [("a", 50); ("b", 40); ("c", 45)].

(** An enterprise of two seats at a custom price of "75" a seat: usages
    120 and 80. *)
Definition enterprise : DB :=
  organization_of "enterprise" (Some 2)
    (MetadataObject {| perSeatPrice := JsString "75" |}) [("a", 120); ("b", 80)].

(** The provider knows the customers of "u1" and "a" and has no invoice
    yet; it is 2026-11-03 (UTC). *)
Definition provider : Stripe :=
  {| stripe_invoices := [];
     stripe_invoiceItems := [];
     stripe_customers :=
       [ {| customer_id := "cus_u1"; customer_email := None |};
         {| customer_id := "cus_a"; customer_email := None |} ];
     stripe_idempotency := [];
     stripe_faults := [];
     stripe_nextId := 1 |}.

Definition world (d : DB) : World :=
  {| world_db := d; world_stripe := provider; world_now := 1793664000000 |}.

(** The renewal invoice of the subscription "stripe_sub_1". *)
Definition renewal : Event :=
  {| event_id := "evt_1";
     event_object :=
       {| invoice_id := "in_renewal"; invoice_customer := "cus_u1";
          invoice_subscription := Some "stripe_sub_1";
          invoice_billing_reason := Some "subscription_cycle";
          invoice_metadata := ∅; invoice_status := draft;
          invoice_created := 1793664000; invoice_amount_due := 2000;
          invoice_amount_paid := 0; invoice_attempt_count := 0;
          invoice_attempted := false; invoice_period_end := None |} |}.

(** A failed payment of an overage invoice on the same subscription. *)
Definition failed_overage_payment : Event :=
  {| event_id := "evt_2";
     event_object :=
       {| invoice_id := "in_overage"; invoice_customer := "cus_u1";
          invoice_subscription := Some "stripe_sub_1";
          invoice_billing_reason := Some "subscription_cycle";
          invoice_metadata := {[ "type" := "overage_billing" ]};
          invoice_status := open;
          invoice_created := 1793664000; invoice_amount_due := 2200;
          invoice_amount_paid := 0; invoice_attempt_count := 1;
          invoice_attempted := true; invoice_period_end := None |} |}.

End Scenario.

(** ** Vocabulary of the further properties *)

(** A result that says what happened: a success names the amount charged,
    a failure carries a message and no amount. *)
Definition well_formed (r : BillingResult) : Prop :=
  if success r then is_Some (chargedAmount r) ∧ error r = None
  else chargedAmount r = None ∧ is_Some (error r).

(** The invoices the provider holds. *)
Definition invoices_of (w : World) : list Invoice :=
  stripe_invoices (world_stripe w).

(** A computation that adds at most [n] invoices and removes none,
    whether it returns or raises. *)
Definition creates_at_most (n : nat) {A} (m : M A) : Prop :=
  ∀ w, (length (invoices_of w) ≤ length (invoices_of (m w).2)
        ≤ length (invoices_of w) + n)%nat.

(** The columns of a subscription other than its status. *)
Definition subscription_identity (s : SubscriptionRow)
    : string * option string * string * option Z * MetadataColumn * option string :=
  (subscription_id s, subscription_plan s, subscription_referenceId s,
   subscription_seats s, subscription_metadata s,
   subscription_stripeSubscriptionId s).

(** The status [handleSubscriptionUpdated] writes into a row. *)
Definition with_status (status : string) (s : SubscriptionRow) : SubscriptionRow :=
  {| subscription_id := subscription_id s;
     subscription_plan := subscription_plan s;
     subscription_referenceId := subscription_referenceId s;
     subscription_status := Some status;
     subscription_seats := subscription_seats s;
     subscription_metadata := subscription_metadata s;
     subscription_stripeSubscriptionId := subscription_stripeSubscriptionId s |}.

(** The tier limits the billing core uses are the settings the allowances
    are computed from. *)
Definition settings_agree (cfg : Config) (env : Env) : Prop :=
  getProTierLimit env
  = setting_or (PRO_TIER_COST_LIMIT cfg) (DEFAULT_PRO_TIER_COST_LIMIT cfg)
  ∧ getTeamTierLimitPerSeat env
    = setting_or (TEAM_TIER_COST_LIMIT cfg) (DEFAULT_TEAM_TIER_COST_LIMIT cfg)
  ∧ getEnterpriseTierLimitPerSeat env
    = setting_or (ENTERPRISE_TIER_COST_LIMIT cfg)
        (DEFAULT_ENTERPRISE_TIER_COST_LIMIT cfg).

(** The current cost a reset of [uid] reads: that of the first usage row of
    the user, zero when there is none or the column is empty. *)
Definition first_cost (d : DB) (uid : string) : Qc :=
  default 0%Qc (select_first (has_userId uid) (userStats d) ≫= currentPeriodCost).

(** ** Examples for the further properties *)

Module Cases.

(** Settings without overrides: $10 of free credits, pro at $20, team at
    $40 and enterprise at $200 a seat, as in [Reference.env]. *)
Definition settings : Config :=
  {| FREE_TIER_COST_LIMIT := None;
     PRO_TIER_COST_LIMIT := None;
     TEAM_TIER_COST_LIMIT := None;
     ENTERPRISE_TIER_COST_LIMIT := None;
     STRIPE_FREE_PRICE_ID := None;
     STRIPE_PRO_PRICE_ID := Some "price_pro";
     STRIPE_TEAM_PRICE_ID := Some "price_team";
     DEFAULT_FREE_CREDITS := Qc_of_Z 10;
     DEFAULT_PRO_TIER_COST_LIMIT := Qc_of_Z 20;
     DEFAULT_TEAM_TIER_COST_LIMIT := Qc_of_Z 40;
     DEFAULT_ENTERPRISE_TIER_COST_LIMIT := Qc_of_Z 200 |}.

(** Every billing period ends on 2026-12-01 (UTC); 7 was spent in the last
    one. *)
Definition period (d : DB) (userId : string) : UsagePeriod :=
  {| billingPeriodStart := Some 1793491200000;
     billingPeriodEnd := Some 1796083200000;
     period_lastPeriodCost := Qc_of_Z 7 |}.

(** The metadata of an overage of November 2026. *)
Definition november : gmap string string := {[ "billingPeriod" := "2026-11" ]}.

(** A charge of 15 to the customer of "u1". *)
Definition charge (w : World) : Outcome BillingResult * World :=
  createOverageBillingInvoice Reference.env "cus_u1" (Qc_of_Z 15) "Overage"
    november w.

(** The world after that customer has been charged once. *)
Definition charged_once : World := (charge (Scenario.world Scenario.one_user)).2.

(** The provider of [Scenario.provider], failing at its sixth call. *)
Definition payment_fails : World :=
  set_stripe (Scenario.world Scenario.one_user)
    (with_faults Scenario.provider [false; false; false; false; false; true]).

(** The organization "org_1" on a team plan of three seats, without a
    member. *)
Definition memberless : DB :=
  Scenario.organization_of "team" (Some 3) MetadataNull [].

(** An enterprise subscription of two seats at a custom price of "75". *)
Definition enterprise_subscription : SubscriptionRow :=
  Scenario.subscription_row (Some "enterprise") "org_1" (Some 2)
    (MetadataObject {| perSeatPrice := JsString "75" |}).

End Cases.

(** * Properties *)

(** ** Tables and updates *)

Lemma set_userStats_id d : set_userStats d (userStats d) = d.
Proof. by destruct d. Qed.

Lemma select_first_Some {A} (p : A → bool) rows x :
  select_first p rows = Some x → x ∈ rows ∧ p x = true.
Proof.
  intros H. apply find_some in H as [Hin Hp]. split; [|done].
  by apply list_elem_of_In.
Qed.

Lemma select_first_None {A} (p : A → bool) rows x :
  select_first p rows = None → x ∈ rows → p x = false.
Proof.
  intros H Hin. apply list_elem_of_In in Hin. by eapply find_none in H.
Qed.

Lemma has_userId_true uid r : has_userId uid r = true ↔ userStats_userId r = uid.
Proof. unfold has_userId. by rewrite bool_decide_eq_true. Qed.

Lemma elem_of_update_userStats uid f d r' :
  r' ∈ userStats (update_userStats uid f d) ↔
  ∃ r, r ∈ userStats d ∧
       r' = if bool_decide (userStats_userId r = uid) then f r else r.
Proof.
  unfold update_userStats; simpl. rewrite list_elem_of_fmap.
  split; intros (r & H1 & H2); exists r; by split.
Qed.

(** ** [reset_user] *)

Lemma reset_user_frame uid d :
  user (reset_user uid d) = user d
  ∧ organization (reset_user uid d) = organization d
  ∧ member (reset_user uid d) = member d
  ∧ subscription (reset_user uid d) = subscription d.
Proof. unfold reset_user. by destruct (select_first _ _). Qed.

Lemma reset_user_rows uid d :
  ∃ f, (∀ r, userStats_userId (f r) = userStats_userId r
             ∧ billingBlocked (f r) = billingBlocked r)
       ∧ userStats (reset_user uid d)
         = (λ r, if bool_decide (userStats_userId r = uid) then f r else r)
           <$> userStats d.
Proof.
  unfold reset_user. destruct (select_first _ _) as [row|].
  - by eexists (set_reset _).
  - exists id. split; [done|].
    transitivity (id <$> userStats d); [symmetry; apply list_fmap_id|].
    apply list_fmap_ext. intros. simpl. by case_bool_decide.
Qed.

Lemma reset_user_userIds uid d :
  userStats_userId <$> userStats (reset_user uid d)
  = userStats_userId <$> userStats d.
Proof.
  destruct (reset_user_rows uid d) as (f & Hf & ->).
  rewrite <- list_fmap_compose. apply list_fmap_ext. intros i r _. simpl.
  case_bool_decide; [apply Hf | done].
Qed.

Lemma reset_user_other uid d i r :
  userStats d !! i = Some r → userStats_userId r ≠ uid →
  userStats (reset_user uid d) !! i = Some r.
Proof.
  intros Hi Hne. destruct (reset_user_rows uid d) as (f & _ & ->).
  rewrite list_lookup_fmap, Hi. simpl. by rewrite bool_decide_eq_false_2.
Qed.

Lemma reset_user_absent uid d :
  select_first (has_userId uid) (userStats d) = None → reset_user uid d = d.
Proof. unfold reset_user. by intros ->. Qed.

Lemma reset_user_zeroed uid d : zeroed uid (reset_user uid d).
Proof.
  intros r' Hin Hid. unfold reset_user in Hin.
  destruct (select_first _ _) as [row|] eqn:E.
  - apply elem_of_update_userStats in Hin as (r & Hr & ->).
    case_bool_decide as Hu; [done|]. by destruct Hu.
  - assert (has_userId uid r' = false) as Hn by by eapply select_first_None.
    apply has_userId_true in Hid. congruence.
Qed.

Lemma reset_user_keeps_zeroed u v d : zeroed u d → zeroed u (reset_user v d).
Proof.
  intros Hz r' Hin Hid. unfold reset_user in Hin.
  destruct (select_first _ _) as [row|] eqn:E; [|by apply Hz].
  apply elem_of_update_userStats in Hin as (r & Hr & ->).
  case_bool_decide; [done|]. by apply Hz.
Qed.

Lemma reset_user_clears uid d : zeroed uid d → cleared uid (reset_user uid d).
Proof.
  intros Hz r' Hin Hid. unfold reset_user in Hin.
  destruct (select_first _ _) as [row|] eqn:E.
  - apply select_first_Some in E as [Hrow Hp]. apply has_userId_true in Hp.
    rewrite (Hz row Hrow Hp) in Hin. simpl in Hin.
    apply elem_of_update_userStats in Hin as (r & Hr & ->).
    case_bool_decide as Hu; [done|]. by destruct Hu.
  - assert (has_userId uid r' = false) as Hn by by eapply select_first_None.
    apply has_userId_true in Hid. congruence.
Qed.

Lemma cleared_zeroed uid d : cleared uid d → zeroed uid d.
Proof. intros H r Hin Hid. by apply H. Qed.

Lemma reset_user_keeps_cleared u v d : cleared u d → cleared u (reset_user v d).
Proof.
  intros Hc. destruct (decide (v = u)) as [->|Hne].
  - by apply reset_user_clears, cleared_zeroed.
  - intros r' Hin Hid. unfold reset_user in Hin.
    destruct (select_first _ _) as [row|] eqn:E; [|by apply Hc].
    apply elem_of_update_userStats in Hin as (r & Hr & ->).
    case_bool_decide as Hu; [|by apply Hc].
    simpl in Hid. congruence.
Qed.

(** ** [resetUsageForSubscription] *)

Lemma reset_as_fold plan referenceId d :
  resetUsageForSubscription plan referenceId d
  = reset_all (subjects d plan referenceId) d.
Proof.
  unfold resetUsageForSubscription, subjects, reset_all.
  by destruct (is_team_or_enterprise plan).
Qed.

Lemma reset_all_frame ms d :
  user (reset_all ms d) = user d
  ∧ organization (reset_all ms d) = organization d
  ∧ member (reset_all ms d) = member d
  ∧ subscription (reset_all ms d) = subscription d.
Proof.
  revert d. induction ms as [|m ms IH]; intros d; [done|].
  simpl. destruct (IH (reset_user m d)) as (-> & -> & -> & ->).
  apply reset_user_frame.
Qed.

Lemma reset_all_userIds ms d :
  userStats_userId <$> userStats (reset_all ms d)
  = userStats_userId <$> userStats d.
Proof.
  revert d. induction ms as [|m ms IH]; intros d; [done|].
  simpl. rewrite IH. apply reset_user_userIds.
Qed.

Lemma reset_all_blocked ms d :
  billingBlocked <$> userStats (reset_all ms d)
  = billingBlocked <$> userStats d.
Proof.
  revert d. induction ms as [|m ms IH]; intros d; [done|].
  simpl. rewrite IH.
  destruct (reset_user_rows m d) as (f & Hf & ->).
  rewrite <- list_fmap_compose. apply list_fmap_ext. intros i r _. simpl.
  case_bool_decide; [apply Hf | done].
Qed.

Lemma reset_all_other ms d i r :
  userStats d !! i = Some r → userStats_userId r ∉ ms →
  userStats (reset_all ms d) !! i = Some r.
Proof.
  revert d. induction ms as [|m ms IH]; intros d Hi Hnot; [done|].
  apply not_elem_of_cons in Hnot as [Hne Hnot].
  simpl. apply IH; [|done]. by apply reset_user_other.
Qed.

Lemma reset_all_absent ms d :
  (∀ uid, uid ∈ ms → select_first (has_userId uid) (userStats d) = None) →
  reset_all ms d = d.
Proof.
  induction ms as [|m ms IH]; intros H; [done|].
  simpl. rewrite reset_user_absent by (apply H; left).
  apply IH. intros uid Hin. apply H. by right.
Qed.

Lemma reset_all_keeps_zeroed u ms d : zeroed u d → zeroed u (reset_all ms d).
Proof.
  revert d. induction ms as [|m ms IH]; intros d Hz; [done|].
  simpl. by apply IH, reset_user_keeps_zeroed.
Qed.

Lemma reset_all_zeroed u ms d : u ∈ ms → zeroed u (reset_all ms d).
Proof.
  revert d. induction ms as [|m ms IH]; intros d Hin; [by apply elem_of_nil in Hin|].
  simpl. apply elem_of_cons in Hin as [->|Hin].
  - apply reset_all_keeps_zeroed, reset_user_zeroed.
  - by apply IH.
Qed.

Lemma reset_all_keeps_cleared u ms d : cleared u d → cleared u (reset_all ms d).
Proof.
  revert d. induction ms as [|m ms IH]; intros d Hz; [done|].
  simpl. by apply IH, reset_user_keeps_cleared.
Qed.

Lemma reset_all_cleared u ms d :
  (∀ v, v ∈ ms → zeroed v d) → u ∈ ms → cleared u (reset_all ms d).
Proof.
  revert d. induction ms as [|m ms IH]; intros d Hall Hin;
    [by apply elem_of_nil in Hin|].
  simpl. apply elem_of_cons in Hin as [->|Hin].
  - apply reset_all_keeps_cleared, reset_user_clears, Hall. left.
  - apply IH; [|done]. intros v Hv. apply reset_user_keeps_zeroed, Hall. by right.
Qed.

Lemma subjects_reset plan referenceId ms d :
  subjects (reset_all ms d) plan referenceId = subjects d plan referenceId.
Proof.
  unfold subjects, members_of.
  by destruct (reset_all_frame ms d) as (_ & _ & -> & _).
Qed.

(** C10.  [resetUsageForSubscription] leaves the other tables alone, keeps
    the usage rows in place with their user ids and blocked flags (so it
    creates none), leaves every row of a user who is not a subject of the
    subscription as it was, and changes nothing at all when no subject has
    a usage row. *)
Theorem resetUsageForSubscription_frame plan referenceId d :
  let d' := resetUsageForSubscription plan referenceId d in
  (user d' = user d ∧ organization d' = organization d
   ∧ member d' = member d ∧ subscription d' = subscription d)
  ∧ userStats_userId <$> userStats d' = userStats_userId <$> userStats d
  ∧ billingBlocked <$> userStats d' = billingBlocked <$> userStats d
  ∧ (∀ i r, userStats d !! i = Some r →
            userStats_userId r ∉ subjects d plan referenceId →
            userStats d' !! i = Some r)
  ∧ ((∀ uid, uid ∈ subjects d plan referenceId →
             select_first (has_userId uid) (userStats d) = None) →
     d' = d).
Proof.
  simpl. rewrite reset_as_fold.
  split; [apply reset_all_frame|]. split_and!.
  - apply reset_all_userIds.
  - apply reset_all_blocked.
  - intros i r. apply reset_all_other.
  - apply reset_all_absent.
Qed.

(** C5, as the code has it.  After one reset every usage row of a subject
    has a zero current cost; after a second reset in succession the
    current cost is still zero and the last-period cost is zero as well:
    the second reset copies the zeroed current cost over the value the
    first one captured. *)
Theorem reset_twice_clears plan referenceId d :
  let d1 := resetUsageForSubscription plan referenceId d in
  let d2 := resetUsageForSubscription plan referenceId d1 in
  (∀ r, r ∈ userStats d1 →
        userStats_userId r ∈ subjects d plan referenceId →
        currentPeriodCost r = Some 0%Qc)
  ∧ (∀ r, r ∈ userStats d2 →
          userStats_userId r ∈ subjects d plan referenceId →
          currentPeriodCost r = Some 0%Qc ∧ lastPeriodCost r = Some 0%Qc).
Proof.
  simpl. rewrite (reset_as_fold plan referenceId d).
  rewrite reset_as_fold, subjects_reset.
  set (ms := subjects d plan referenceId). split.
  - intros r Hin Hs. by eapply (reset_all_zeroed _ ms d Hs).
  - intros r Hin Hs.
    eapply (reset_all_cleared _ ms (reset_all ms d)); [|exact Hs|exact Hin|done].
    intros v Hv. by apply reset_all_zeroed.
Qed.

(** C5, counterexample.  A user with a current cost of 42: the first reset
    captures 42 as the last-period cost, the second one replaces it by 0. *)
Lemma second_reset_overwrites_lastPeriodCost :
  ¬ second_reset_keeps_lastPeriodCost (Some "pro") "u1" Scenario.one_user.
Proof.
  intros H.
  destruct (H 0%nat
              {| userStats_userId := "u1"; currentPeriodCost := Some 0%Qc;
                 lastPeriodCost := Some (Qc_of_Z 42); billingBlocked := false |}
              {| userStats_userId := "u1"; currentPeriodCost := Some 0%Qc;
                 lastPeriodCost := Some 0%Qc; billingBlocked := false |})
    as [_ Hlast]; [reflexivity | reflexivity | by left |].
  discriminate Hlast.
Qed.

(** ** Blocking and unblocking *)

(** Updating the rows of each listed user in turn is one pass over the
    table, when the update is idempotent and keeps the user id. *)
Lemma update_all_rows ms f d :
  (∀ r, f (f r) = f r) →
  (∀ r, userStats_userId (f r) = userStats_userId r) →
  update_all ms f d
  = set_userStats d
      ((λ r, if bool_decide (userStats_userId r ∈ ms) then f r else r)
       <$> userStats d).
Proof.
  intros Hidem Hid. revert d. induction ms as [|m ms IH]; intros d.
  - simpl. transitivity (set_userStats d (userStats d));
      [by rewrite set_userStats_id|].
    f_equal. transitivity (id <$> userStats d); [by rewrite list_fmap_id|].
    apply list_fmap_ext. intros i r _. by simpl.
  - unfold update_all in *. simpl. rewrite IH.
    unfold update_userStats, set_userStats. simpl. f_equal.
    rewrite <- list_fmap_compose. apply list_fmap_ext. intros i r _. simpl.
    destruct (decide (userStats_userId r = m)) as [Heq|Hne].
    + rewrite (bool_decide_eq_true_2 _ Heq).
      rewrite (bool_decide_eq_true_2 (userStats_userId r ∈ m :: ms))
        by (rewrite Heq; left).
      case_bool_decide; [apply Hidem | done].
    + rewrite (bool_decide_eq_false_2 _ Hne).
      rewrite (bool_decide_ext (userStats_userId r ∈ m :: ms)
                 (userStats_userId r ∈ ms)); [done|].
      rewrite elem_of_cons. split; [intros [?|?]; done | by right].
Qed.

Lemma set_blocked_for_rows b sub d :
  set_blocked_for b sub d
  = set_userStats d
      ((λ r, if bool_decide (userStats_userId r
                             ∈ subjects d (subscription_plan sub)
                                 (subscription_referenceId sub))
             then set_billingBlocked b r else r)
       <$> userStats d).
Proof.
  unfold set_blocked_for, subjects.
  destruct (is_team_or_enterprise _).
  - by apply update_all_rows.
  - unfold update_userStats. f_equal. apply list_fmap_ext. intros i r _. simpl.
    rewrite (bool_decide_ext (userStats_userId r ∈ [subscription_referenceId sub])
               (userStats_userId r = subscription_referenceId sub)); [done|].
    apply list_elem_of_singleton.
Qed.

Lemma set_blocked_for_frame b sub d :
  user (set_blocked_for b sub d) = user d
  ∧ organization (set_blocked_for b sub d) = organization d
  ∧ member (set_blocked_for b sub d) = member d
  ∧ subscription (set_blocked_for b sub d) = subscription d.
Proof. by rewrite set_blocked_for_rows. Qed.

Lemma set_blocked_for_costs b sub d :
  cost_view <$> userStats (set_blocked_for b sub d) = cost_view <$> userStats d.
Proof.
  rewrite set_blocked_for_rows. simpl. rewrite <- list_fmap_compose.
  apply list_fmap_ext. intros i r _. simpl. by case_bool_decide.
Qed.

Lemma set_blocked_for_blocked b sub d r :
  r ∈ userStats (set_blocked_for b sub d) →
  userStats_userId r ∈ subjects d (subscription_plan sub)
                         (subscription_referenceId sub) →
  billingBlocked r = b.
Proof.
  rewrite set_blocked_for_rows. simpl.
  intros (r0 & -> & Hin)%list_elem_of_fmap Hs.
  case_bool_decide as Hd; [done|]. by destruct Hd.
Qed.

Lemma subjects_set_blocked_for b sub d plan referenceId :
  subjects (set_blocked_for b sub d) plan referenceId = subjects d plan referenceId.
Proof.
  unfold subjects, members_of.
  by destruct (set_blocked_for_frame b sub d) as (_ & _ & -> & _).
Qed.

Lemma set_blocked_for_idempotent b sub d :
  set_blocked_for b sub (set_blocked_for b sub d) = set_blocked_for b sub d.
Proof.
  rewrite (set_blocked_for_rows b sub (set_blocked_for b sub d)).
  rewrite subjects_set_blocked_for.
  rewrite set_blocked_for_rows. unfold set_userStats. simpl. f_equal.
  rewrite <- list_fmap_compose. apply list_fmap_ext. intros i r _. simpl.
  destruct (decide (userStats_userId r
                    ∈ subjects d (subscription_plan sub)
                        (subscription_referenceId sub))) as [Hs|Hs].
  - rewrite (bool_decide_eq_true_2 _ Hs). simpl.
    by rewrite (bool_decide_eq_true_2 _ Hs).
  - rewrite (bool_decide_eq_false_2 _ Hs).
    by rewrite (bool_decide_eq_false_2 _ Hs).
Qed.

(** Nobody blocked: unblocking changes nothing. *)
Lemma set_blocked_for_same b sub d :
  (∀ r, r ∈ userStats d →
        userStats_userId r ∈ subjects d (subscription_plan sub)
                               (subscription_referenceId sub) →
        billingBlocked r = b) →
  set_blocked_for b sub d = d.
Proof.
  intros H. rewrite set_blocked_for_rows.
  transitivity (set_userStats d (userStats d)); [|apply set_userStats_id].
  f_equal. transitivity (id <$> userStats d); [|apply list_fmap_id].
  apply list_fmap_ext. intros i r Hr. simpl.
  apply list_elem_of_lookup_2 in Hr.
  case_bool_decide as Hs; [|done].
  specialize (H r Hr Hs). destruct r; simpl in *. by subst.
Qed.

Lemma user_blocked_true d uid :
  user_blocked d uid = true →
  ∃ r, r ∈ userStats d ∧ userStats_userId r = uid ∧ billingBlocked r = true.
Proof.
  unfold user_blocked. destruct (select_first _ _) as [row|] eqn:E; [|done].
  intros Hb. apply select_first_Some in E as [Hin Hp].
  apply has_userId_true in Hp. by exists row.
Qed.

Lemma wasBlocked_true d sub :
  wasBlocked d sub = true →
  ∃ r, r ∈ userStats d
       ∧ userStats_userId r ∈ subjects d (subscription_plan sub)
                                (subscription_referenceId sub)
       ∧ billingBlocked r = true.
Proof.
  unfold wasBlocked, subjects. destruct (is_team_or_enterprise _).
  - intros (uid & Hin & Hb)%existsb_exists.
    apply user_blocked_true in Hb as (r & Hr & <- & Hb).
    exists r. split_and!; [done| |done]. by apply list_elem_of_In.
  - intros (r & Hr & <- & Hb)%user_blocked_true.
    exists r. split_and!; [done| |done]. by left.
Qed.

Lemma reset_all_row ms d i r :
  userStats (reset_all ms d) !! i = Some r →
  ∃ r0, userStats d !! i = Some r0
        ∧ userStats_userId r0 = userStats_userId r
        ∧ billingBlocked r0 = billingBlocked r.
Proof.
  intros Hi.
  pose proof (f_equal (λ l, l !! i) (reset_all_userIds ms d)) as Hu.
  pose proof (f_equal (λ l, l !! i) (reset_all_blocked ms d)) as Hb.
  simpl in Hu, Hb. rewrite !list_lookup_fmap in Hu. rewrite !list_lookup_fmap in Hb.
  rewrite Hi in Hu. rewrite Hi in Hb.
  destruct (userStats d !! i) as [r0|]; [|done].
  exists r0. simpl in *. split_and!; congruence.
Qed.

Lemma subscription_by_stripe_id_frame d d' id :
  subscription d' = subscription d →
  subscription_by_stripe_id d' id = subscription_by_stripe_id d id.
Proof. unfold subscription_by_stripe_id. by intros ->. Qed.

Lemma handleInvoicePaymentSucceeded_unfold event d id sub :
  invoice_subscription (event_object event) = Some id → id ≠ "" →
  subscription_by_stripe_id d id = Some sub →
  handleInvoicePaymentSucceeded event d
  = if wasBlocked d sub
    then resetUsageForSubscription (subscription_plan sub)
           (subscription_referenceId sub) (set_blocked_for false sub d)
    else set_blocked_for false sub d.
Proof.
  intros Hsub Hne Hrec. unfold handleInvoicePaymentSucceeded.
  rewrite Hsub. simpl. rewrite (bool_decide_eq_false_2 _ Hne). simpl.
  by rewrite Hrec.
Qed.

(** C8.  When the invoice names a subscription that has a local record,
    [handleInvoicePaymentSucceeded] clears [billingBlocked] on every usage
    row of every subject; it then resets the usage counters exactly when
    [wasBlocked] holds, which requires a blocked row of some subject; and
    when no row of a subject was blocked the store is left as it was. *)
Theorem handleInvoicePaymentSucceeded_unblocks event d id sub :
  invoice_subscription (event_object event) = Some id → id ≠ "" →
  subscription_by_stripe_id d id = Some sub →
  let ss := subjects d (subscription_plan sub) (subscription_referenceId sub) in
  let d' := handleInvoicePaymentSucceeded event d in
  (∀ r, r ∈ userStats d' → userStats_userId r ∈ ss → billingBlocked r = false)
  ∧ d' = (if wasBlocked d sub
          then resetUsageForSubscription (subscription_plan sub)
                 (subscription_referenceId sub) (set_blocked_for false sub d)
          else set_blocked_for false sub d)
  ∧ (wasBlocked d sub = true →
     ∃ r, r ∈ userStats d ∧ userStats_userId r ∈ ss ∧ billingBlocked r = true)
  ∧ ((∀ r, r ∈ userStats d → userStats_userId r ∈ ss → billingBlocked r = false) →
     wasBlocked d sub = false ∧ d' = d).
Proof.
  intros Hsub Hne Hrec ss d'. subst d'.
  rewrite (handleInvoicePaymentSucceeded_unfold _ _ _ _ Hsub Hne Hrec).
  split_and!.
  - intros r Hin Hs. destruct (wasBlocked d sub).
    + rewrite reset_as_fold in Hin.
      apply list_elem_of_lookup_1 in Hin as [i Hi].
      apply reset_all_row in Hi as (r0 & Hi0 & Hu & Hb).
      rewrite <- Hb. apply (set_blocked_for_blocked false sub d).
      * by eapply list_elem_of_lookup_2.
      * by rewrite Hu.
    + by apply (set_blocked_for_blocked false sub d).
  - done.
  - apply wasBlocked_true.
  - intros Hnone.
    assert (wasBlocked d sub = false) as Hw.
    { destruct (wasBlocked d sub) eqn:E; [|done].
      apply wasBlocked_true in E as (r & Hr & Hs & Hb).
      rewrite (Hnone r Hr Hs) in Hb. done. }
    rewrite Hw. split; [done|]. by apply set_blocked_for_same.
Qed.

Lemma handleInvoicePaymentFailed_cases event d :
  handleInvoicePaymentFailed event d = d
  ∨ ∃ sub, handleInvoicePaymentFailed event d = set_blocked_for true sub d
           ∧ subscription_by_stripe_id d
               (string_or (invoice_subscription (event_object event)) "")
             = Some sub
           ∧ invoice_metadata (event_object event) !! "type"
             = Some "overage_billing"
           ∧ 1 ≤ attemptCount_of (event_object event)
           ∧ string_or (invoice_subscription (event_object event)) "" ≠ "".
Proof.
  unfold handleInvoicePaymentFailed.
  case_bool_decide as Ht; simpl; [|by left].
  case_bool_decide as Ha; [|by left].
  case_bool_decide as Hs; simpl; [by left|].
  destruct (subscription_by_stripe_id _ _) as [sub|] eqn:E; [|by left].
  right. by exists sub.
Qed.

(** C9, as the code has it.  [handleInvoicePaymentFailed] leaves the store
    alone for an invoice without the overage tag, for one whose attempt
    count is below the threshold (one), for one that names no subscription
    and for one that names a subscription without a local record; for a
    tagged invoice whose attempt count has reached the threshold and whose
    subscription has a local record it sets [billingBlocked] on every
    usage row of every subject; it never changes a cost; and delivering
    the same event again changes nothing. *)
Theorem handleInvoicePaymentFailed_blocks event d :
  let invoice := event_object event in
  let d' := handleInvoicePaymentFailed event d in
  (invoice_metadata invoice !! "type" ≠ Some "overage_billing" → d' = d)
  ∧ (attemptCount_of invoice < 1 → d' = d)
  ∧ (invoice_subscription invoice = None
     ∨ invoice_subscription invoice = Some "" → d' = d)
  ∧ (∀ id, invoice_subscription invoice = Some id →
           subscription_by_stripe_id d id = None → d' = d)
  ∧ (∀ id sub,
       invoice_metadata invoice !! "type" = Some "overage_billing" →
       1 ≤ attemptCount_of invoice →
       invoice_subscription invoice = Some id → id ≠ "" →
       subscription_by_stripe_id d id = Some sub →
       ∀ r, r ∈ userStats d' →
            userStats_userId r ∈ subjects d (subscription_plan sub)
                                   (subscription_referenceId sub) →
            billingBlocked r = true)
  ∧ cost_view <$> userStats d' = cost_view <$> userStats d
  ∧ handleInvoicePaymentFailed event d' = d'.
Proof.
  simpl. split_and!.
  - intros Ht. unfold handleInvoicePaymentFailed. cbv zeta.
    by case_bool_decide.
  - intros Ha.
    destruct (handleInvoicePaymentFailed_cases event d)
      as [Hd|(sub & _ & _ & _ & Ha' & _)]; [done|lia].
  - intros Hnone.
    destruct (handleInvoicePaymentFailed_cases event d)
      as [Hd|(sub & _ & _ & _ & _ & Hne)]; [done|].
    by destruct Hnone as [Hnone|Hnone]; rewrite Hnone in Hne.
  - intros id Hsub Hrec.
    destruct (handleInvoicePaymentFailed_cases event d)
      as [Hd|(sub & _ & Hrec' & _ & _ & Hne)]; [done|].
    rewrite Hsub in Hrec', Hne. simpl in Hrec', Hne.
    destruct (bool_decide (id = "")); [done|]. congruence.
  - intros id sub Ht Ha Hsub Hne Hrec r.
    destruct (handleInvoicePaymentFailed_cases event d)
      as [Hd|(sub' & -> & Hrec' & _)].
    + rewrite Hd. unfold handleInvoicePaymentFailed in Hd. cbv zeta in Hd.
      rewrite Hsub in Hd. simpl in Hd.
      repeat (case_bool_decide; simpl in Hd; try done).
      rewrite Hrec in Hd. intros Hin Hs.
      apply (set_blocked_for_blocked true sub d); [by rewrite Hd | done].
    + rewrite Hsub in Hrec'. simpl in Hrec'.
      rewrite (bool_decide_eq_false_2 _ Hne) in Hrec'.
      assert (sub' = sub) as -> by congruence.
      apply set_blocked_for_blocked.
  - destruct (handleInvoicePaymentFailed_cases event d) as [->|(sub & -> & _)];
      [done|]. apply set_blocked_for_costs.
  - destruct (handleInvoicePaymentFailed_cases event d)
      as [Hd|(sub & Hd & Hrec & Ht & Ha & Hne)].
    + by rewrite !Hd.
    + rewrite Hd. unfold handleInvoicePaymentFailed. cbv zeta.
      repeat (case_bool_decide; simpl; try done).
      rewrite (subscription_by_stripe_id_frame d); [|by apply set_blocked_for_frame].
      rewrite Hrec. apply set_blocked_for_idempotent.
Qed.

(** C9, on an example: the failed payment of an overage invoice blocks
    the user of the subscription. *)
Lemma handleInvoicePaymentFailed_blocks_witness :
  Forall (λ r, billingBlocked r = true)
    (userStats (handleInvoicePaymentFailed Scenario.failed_overage_payment
                  Scenario.one_user)).
Proof.
  apply Forall_forall. intros r Hr.
  destruct (handleInvoicePaymentFailed_blocks Scenario.failed_overage_payment
              Scenario.one_user) as (_ & _ & _ & _ & Hblocks & _).
  apply (Hblocks "stripe_sub_1"
           (Scenario.subscription_row (Some "pro") "u1" None MetadataNull));
    try reflexivity; try discriminate; try exact Hr.
  apply list_elem_of_singleton in Hr. subst r. by left.
Defined.

(** C9, counterexample.  [processUserOverageBilling] bills the pro user who
    spent 42; the invoice it creates carries the overage tag and names no
    subscription, so the failure of its payment blocks nobody: the usage
    row of the user stays unblocked. *)
Lemma failed_overage_payment_blocks_nobody :
  ¬ failed_overage_payment_blocks Reference.env "u1"
      (Scenario.world Scenario.one_user).
Proof.
  intros H.
  assert (billingBlocked (Scenario.usage_row "u1" 42) = true) as Hblocked;
    [|discriminate Hblocked].
  eapply (H _ _ _ {| event_id := "evt_3"; event_object := _ |}).
  - vm_compute. reflexivity.
  - reflexivity.
  - reflexivity.
  - reflexivity.
  - done.
  - vm_compute. left.
  - reflexivity.
Qed.

(** ** Arithmetic *)

Lemma Math_max_nonneg x : (0 ≤ Math_max 0 x)%Qc.
Proof. unfold Math_max. case_decide; [done | apply Qcle_refl]. Qed.

Lemma Math_max_ge x : (x ≤ Math_max 0 x)%Qc.
Proof.
  unfold Math_max. case_decide as H; [done|].
  apply Qclt_le_weak. by apply Qclt_nge.
Qed.

Lemma Math_max_cases x :
  (Math_max 0 x = x ∧ (0 ≤ x)%Qc) ∨ (Math_max 0 x = 0%Qc ∧ (x ≤ 0)%Qc).
Proof.
  unfold Math_max. case_decide as H; [by left|].
  right. split; [done|]. apply Qclt_le_weak. by apply Qclt_nge.
Qed.

(** ** Plan pricing *)

Lemma enterprise_pricing_override env m :
  parses_falsy env →
  enterprise_pricing env m
  = {| basePrice := default (getEnterpriseTierLimitPerSeat env)
                      (price_override env (Some m)) |}.
Proof.
  intros Hf. unfold enterprise_pricing, parsed_perSeatPrice, price_override.
  simpl. destruct (truthy (perSeatPrice m)) eqn:Ht.
  - destruct (parseFloat env _) as [|q]; simpl; [done|].
    case_decide as Hq.
    + rewrite (bool_decide_eq_true_2 _ Hq).
      rewrite bool_decide_eq_false_2; [done|].
      intros ->. by destruct (Qclt_not_eq _ _ Hq).
    + rewrite (bool_decide_eq_false_2 _ Hq). by rewrite andb_false_r.
  - by rewrite (Hf _ Ht).
Qed.

(** C6, as the code has it.  For an enterprise subscription whose metadata
    can be read (none, an empty text, an object, or a text that
    [JSON.parse] reads as an object), [getPlanPricing] returns the
    metadata's [perSeatPrice] when that value parses to a positive number,
    and the default enterprise per-seat price in every other case (no
    metadata, no such field, a value that parses to [NaN], to zero or to a
    negative number).  On a non-empty metadata text that [JSON.parse]
    refuses, or reads as [null], it raises instead. *)
Theorem getPlanPricing_enterprise env subscription :
  parses_falsy env →
  (∀ o, metadata_of env subscription = Return o →
        getPlanPricing env (Some "enterprise") subscription
        = Return {| basePrice := default (getEnterpriseTierLimitPerSeat env)
                                   (price_override env o) |})
  ∧ (∀ sub s e,
       subscription = Some sub → subscription_metadata sub = MetadataText s →
       s ≠ "" → JSON_parse env s = Throw e →
       getPlanPricing env (Some "enterprise") subscription = Throw e)
  ∧ (∀ sub s,
       subscription = Some sub → subscription_metadata sub = MetadataText s →
       s ≠ "" → JSON_parse env s = Return None →
       getPlanPricing env (Some "enterprise") subscription = Throw "TypeError").
Proof.
  intros Hf. split_and!.
  - intros o Hm. unfold getPlanPricing, metadata_of in *. simpl.
    destruct subscription as [sub|]; simpl in *; [|by inversion Hm].
    destruct (subscription_metadata sub) as [|s|m]; simpl in *.
    + by inversion Hm.
    + case_bool_decide; simpl; [by inversion Hm|].
      destruct (JSON_parse env s) as [[m|]|]; inversion Hm; subst.
      by rewrite enterprise_pricing_override.
    + inversion Hm; subst. by rewrite enterprise_pricing_override.
  - intros sub s e -> Hmeta Hne Hparse. unfold getPlanPricing. simpl.
    rewrite Hmeta. simpl. rewrite (bool_decide_eq_false_2 _ Hne). simpl.
    by rewrite Hparse.
  - intros sub s -> Hmeta Hne Hparse. unfold getPlanPricing. simpl.
    rewrite Hmeta. simpl. rewrite (bool_decide_eq_false_2 _ Hne). simpl.
    by rewrite Hparse.
Qed.

(** C6, counterexample.  An enterprise subscription whose metadata column
    holds the text [{oops]: [JSON.parse] refuses it and [getPlanPricing]
    raises instead of returning the default price. *)
Lemma getPlanPricing_raises_on_malformed_metadata :
  ¬ enterprise_price_or_default Reference.env
      (Some (Scenario.subscription_row (Some "enterprise") "org_1" (Some 2)
               (MetadataText "{oops"))).
Proof. intros [o Ho]. vm_compute in Ho. discriminate Ho. Qed.

Lemma Reference_parses_falsy : parses_falsy Reference.env.
Proof.
  intros [| |[]|[|q]|s] Ht; simpl in Ht; try done.
  - apply negb_false_iff, bool_decide_eq_true in Ht. by subst.
  - apply negb_false_iff, bool_decide_eq_true in Ht. by subst.
Qed.

(** C6, on an example: the metadata value "75" is the base price. *)
Lemma getPlanPricing_enterprise_witness :
  getPlanPricing Reference.env (Some "enterprise")
    (Some (Scenario.subscription_row (Some "enterprise") "org_1" (Some 2)
             (MetadataObject {| perSeatPrice := JsString "75" |})))
  = Return {| basePrice := Qc_of_Z 75 |}.
Proof.
  destruct (getPlanPricing_enterprise Reference.env
              (Some (Scenario.subscription_row (Some "enterprise") "org_1" (Some 2)
                       (MetadataObject {| perSeatPrice := JsString "75" |})))
              Reference_parses_falsy) as (Hprice & _).
  rewrite (Hprice (Some {| perSeatPrice := JsString "75" |}) eq_refl).
  do 2 f_equal. apply Qc_is_canon. reflexivity.
Defined.

(** The price the example resolves to is 75; two seats make a base of 150
    and a total usage of 200 leaves an overage of 50. *)
Example enterprise_scenario :
  ∃ o, organizationOverage Reference.env Scenario.enterprise
         (Scenario.subscription_row (Some "enterprise") "org_1" (Some 2)
            (MetadataObject {| perSeatPrice := JsString "75" |}))
         (organization_members Scenario.enterprise "org_1") = Return o
       ∧ basePricePerSeat o = Qc_of_Z 75
       ∧ baseSubscriptionAmount o = Qc_of_Z 150
       ∧ totalTeamUsage o = Qc_of_Z 200
       ∧ totalOverage o = Qc_of_Z 50.
Proof.
  eexists. split; [reflexivity|].
  split_and!; apply Qc_is_canon; reflexivity.
Qed.

(** ** Overage of an individual *)

Lemma calculateUserOverage_Some env d userId r :
  calculateUserOverage env d userId = Some r →
  overageAmount r = Math_max 0 (actualUsage r - overage_basePrice r).
Proof.
  unfold calculateUserOverage.
  destruct (getHighestPrioritySubscription env d userId) as [subscription|];
    [|done].
  destruct (getUserUsageData env d userId) as [usageData|]; [|done].
  destruct (select_first _ _); [|done].
  destruct (getPlanPricing _ _ _); [|done].
  by intros [= <-].
Qed.

(** C2, as the code has it.  For an existing user whose subscription,
    usage and plan price are read without an exception,
    [calculateUserOverage] returns the usage, the base price of the plan
    and [overageAmount = max(0, currentUsage - basePrice)]; that amount is
    never negative, it is the excess when the usage exceeds the base price
    and zero otherwise.  Whatever it returns has these properties.  For an
    existing user it returns [null] exactly when one of the three reads
    raises. *)
Theorem calculateUserOverage_overage env d userId u :
  select_first (λ u, bool_decide (user_id u = userId)) (user d) = Some u →
  (∀ subscription usageData pricing,
     getHighestPrioritySubscription env d userId = Return subscription →
     getUserUsageData env d userId = Return usageData →
     getPlanPricing env
       (Some (string_or (subscription ≫= subscription_plan) "free")) subscription
     = Return pricing →
     ∃ r, calculateUserOverage env d userId = Some r
          ∧ actualUsage r = currentUsage usageData
          ∧ overage_basePrice r = basePrice pricing
          ∧ overage_plan r = string_or (subscription ≫= subscription_plan) "free"
          ∧ overageAmount r
            = Math_max 0 (currentUsage usageData - basePrice pricing))
  ∧ (∀ r, calculateUserOverage env d userId = Some r →
          (0 ≤ overageAmount r)%Qc
          ∧ (actualUsage r - overage_basePrice r ≤ overageAmount r)%Qc
          ∧ (overageAmount r = (actualUsage r - overage_basePrice r)%Qc
             ∨ overageAmount r = 0%Qc))
  ∧ (calculateUserOverage env d userId = None ↔
     (∃ e, getHighestPrioritySubscription env d userId = Throw e)
     ∨ (∃ e, getUserUsageData env d userId = Throw e)
     ∨ (∃ subscription e,
          getHighestPrioritySubscription env d userId = Return subscription
          ∧ getPlanPricing env
              (Some (string_or (subscription ≫= subscription_plan) "free"))
              subscription
            = Throw e)).
Proof.
  intros Hu. split_and!.
  - intros subscription usageData pricing Hs Hd Hp.
    unfold calculateUserOverage. rewrite Hs, Hd, Hu, Hp. by eexists.
  - intros r Hr. rewrite (calculateUserOverage_Some _ _ _ _ Hr). split_and!.
    + apply Math_max_nonneg.
    + apply Math_max_ge.
    + destruct (Math_max_cases (actualUsage r - overage_basePrice r))
        as [[-> _]|[-> _]]; [by left | by right].
  - unfold calculateUserOverage. rewrite Hu.
    destruct (getHighestPrioritySubscription env d userId)
      as [subscription|e1] eqn:Hs.
    2: { split; [intros _; left; by exists e1|done]. }
    destruct (getUserUsageData env d userId) as [usageData|e2] eqn:Hd.
    2: { split; [intros _; right; left; by exists e2|done]. }
    destruct (getPlanPricing env _ subscription) as [pricing|e3] eqn:Hp.
    + split; [done|].
      intros [[e He]|[[e He]|(sub' & e & Hs' & Hp')]]; try done.
      injection Hs' as <-. rewrite Hp in Hp'. discriminate Hp'.
    + split; [|done]. intros _. right. right. by exists subscription, e3.
Qed.

(** C2, counterexample.  The user "u1" exists and is on an enterprise plan
    whose metadata column holds the text [{oops]: reading the plan price
    raises and [calculateUserOverage] returns [null], no overage. *)
Lemma calculateUserOverage_null_for_existing_user :
  ¬ existing_user_has_overage Reference.env Scenario.unreadable_metadata "u1".
Proof.
  intros H. destruct H as (r & Hr & _); [by eexists|].
  vm_compute in Hr. discriminate Hr.
Qed.

(** C2, on an example: a pro user ($20 base) with a usage of 35 has an
    overage of 15. *)
Lemma calculateUserOverage_overage_witness :
  ∃ r, calculateUserOverage Reference.env (Scenario.individual (Some "pro") 35) "u1"
       = Some r
       ∧ overage_basePrice r = Qc_of_Z 20
       ∧ actualUsage r = Qc_of_Z 35
       ∧ overageAmount r = Qc_of_Z 15.
Proof.
  destruct (calculateUserOverage_overage Reference.env
              (Scenario.individual (Some "pro") 35) "u1"
              (Scenario.person "u1") eq_refl)
    as (Hreturns & _).
  destruct (Hreturns
              (Some (Scenario.subscription_row (Some "pro") "u1" None MetadataNull))
              {| currentUsage := Qc_of_Z 35; usage_limit := 0%Qc |}
              {| basePrice := Qc_of_Z 20 |}
              eq_refl eq_refl eq_refl)
    as (r & Hr & Hu & Hb & _ & Ho).
  exists r. split; [exact Hr|]. split; [exact Hb|]. split; [exact Hu|].
  rewrite Ho. apply Qc_is_canon. reflexivity.
Defined.



(** ** Overage of an organization *)




(** ** Computations over the world *)

Section Computations.
Context {A B : Type}.

Lemma keeps_db_ret (a : A) : keeps_db (ret a).
Proof. done. Qed.

Lemma keeps_db_throw e : keeps_db (@throw A e).
Proof. done. Qed.

Lemma keeps_db_lift (o : Outcome A) : keeps_db (lift o).
Proof. done. Qed.

Lemma keeps_db_api (op : Stripe → Z → Outcome A * Stripe) : keeps_db (api op).
Proof.
  intros w. unfold api. destruct (stripe_faults _) as [|[] ?]; [| done |];
    by destruct (op _ _).
Qed.

Lemma keeps_db_bind (m : M A) (k : A → M B) :
  keeps_db m → (∀ a, keeps_db (k a)) → keeps_db (bind m k).
Proof.
  intros Hm Hk w. unfold bind. specialize (Hm w).
  destruct (m w) as [[a|e] w1]; simpl in *; [|done].
  destruct (Hk a w1) as [-> ->]. done.
Qed.

Lemma keeps_db_try_catch (m : M A) (h : string → M A) :
  keeps_db m → (∀ e, keeps_db (h e)) → keeps_db (try_catch m h).
Proof.
  intros Hm Hh w. unfold try_catch. specialize (Hm w).
  destruct (m w) as [[a|e] w1]; simpl in *; [done|].
  destruct (Hh e w1) as [-> ->]. done.
Qed.

Lemma returns_ret (P : A → Prop) a : P a → returns P (ret a).
Proof. intros H w a' w' [= <- _]. done. Qed.

Lemma returns_bind (P : B → Prop) (m : M A) (k : A → M B) :
  (∀ a, returns P (k a)) → returns P (bind m k).
Proof.
  intros Hk w b w'. unfold bind. destruct (m w) as [[a|e] w1]; [|done].
  apply Hk.
Qed.

Lemma returns_try_catch (P : A → Prop) (m : M A) (h : string → M A) :
  returns P m → (∀ e, returns P (h e)) → returns P (try_catch m h).
Proof.
  intros Hm Hh w a w'. unfold try_catch.
  destruct (m w) as [[a1|e] w1] eqn:E.
  - intros [= <- <-]. by eapply Hm.
  - apply Hh.
Qed.

Lemma total_try_catch (m : M A) (h : string → M A) :
  (∀ e, total_computation (h e)) → total_computation (try_catch m h).
Proof.
  intros Hh w. unfold try_catch. destruct (m w) as [[a|e] w1]; [by eauto|].
  apply Hh.
Qed.

Lemma total_ret (a : A) : total_computation (ret a).
Proof. intros w. by eexists _, _. Qed.

End Computations.

Lemma keeps_db_get_db : keeps_db get_db.
Proof. done. Qed.

Lemma keeps_db_get_now : keeps_db get_now.
Proof. done. Qed.

(** Decomposes a goal about a computation along its structure. *)
Ltac step_computation :=
  lazymatch goal with
  | |- keeps_db (ret _) => apply keeps_db_ret
  | |- keeps_db (throw _) => apply keeps_db_throw
  | |- keeps_db (lift _) => apply keeps_db_lift
  | |- keeps_db get_db => apply keeps_db_get_db
  | |- keeps_db get_now => apply keeps_db_get_now
  | |- keeps_db (api _) => apply keeps_db_api
  | |- keeps_db (bind _ _) => apply keeps_db_bind; [|intros ?]
  | |- keeps_db (try_catch _ _) => apply keeps_db_try_catch; [|intros ?]
  | |- returns _ (bind _ _) => apply returns_bind; intros ?
  | |- returns _ (try_catch _ _) => apply returns_try_catch; [|intros ?]
  | |- returns _ (ret _) => apply returns_ret
  | |- keeps_db (match ?x with _ => _ end) => destruct x
  | |- returns _ (match ?x with _ => _ end) => destruct x
  | |- keeps_db (let _ := _ in _) => cbv zeta
  | |- returns _ (let _ := _ in _) => cbv zeta
  end.

Lemma createOverageBillingInvoice_keeps_db env customerId overageAmount description metadata :
  keeps_db (createOverageBillingInvoice env customerId overageAmount description metadata).
Proof.
  unfold createOverageBillingInvoice, invoices_list, customers_retrieve,
    invoiceItems_create, invoices_create, invoices_finalizeInvoice, invoices_pay.
  repeat step_computation.
Qed.

Lemma createOverageBillingInvoice_total env customerId overageAmount description metadata :
  total_computation
    (createOverageBillingInvoice env customerId overageAmount description metadata).
Proof. apply total_try_catch. intros e. apply total_ret. Qed.


Lemma try_catch_Return {A} (m : M A) h w a w' :
  m w = (Return a, w') → try_catch m h w = (Return a, w').
Proof. unfold try_catch. by intros ->. Qed.

Lemma bind_Return {A B} (m : M A) (k : A → M B) w a w' :
  m w = (Return a, w') → bind m k w = k a w'.
Proof. unfold bind. by intros ->. Qed.

(** The step that updates the customer's email never raises and leaves
    the store and the clock alone. *)
Lemma email_step_total (email : option string) (customer : string) w :
  ∃ w1,
    (match email with
     | Some email =>
         if truthy_string (Some email)
         then try_catch (customers_update customer email) (λ _, ret tt)
         else ret tt
     | None => ret tt
     end) w = (Return tt, w1)
    ∧ world_db w1 = world_db w ∧ world_now w1 = world_now w.
Proof.
  destruct email as [email|]; [|by eexists].
  destruct (truthy_string _); [|by eexists].
  pose proof (keeps_db_try_catch (customers_update customer email)
                (λ _, ret tt) (keeps_db_api _) (λ _, keeps_db_ret tt) w) as Hk.
  fold (customers_update customer email) in Hk.
  destruct (total_try_catch (customers_update customer email) (λ _, ret tt)
              (λ _, total_ret tt) w) as ([] & w1 & Hw).
  rewrite Hw in Hk. by exists w1.
Qed.

(** ** Calls to the provider *)

Lemma api_inv {A} (op : Stripe → Z → Outcome A * Stripe) w r w' :
  api op w = (r, w') →
  world_db w' = world_db w ∧ world_now w' = world_now w
  ∧ ((r = Throw "StripeError"
      ∧ same_data (world_stripe w) (world_stripe w')
      ∧ head (stripe_faults (world_stripe w)) = Some true)
     ∨ (head (stripe_faults (world_stripe w)) ≠ Some true
        ∧ ∃ s0, same_data (world_stripe w) s0
                ∧ op s0 (world_now w) = (r, world_stripe w'))).
Proof.
  unfold api. destruct (stripe_faults (world_stripe w)) as [|[] rest] eqn:E.
  - destruct (op _ _) as [r0 s'] eqn:Eop. intros [= <- <-].
    split_and!; [done..|]. right. split; [done|]. by eexists (with_faults _ _).
  - intros [= <- <-]. split_and!; [done..|]. by left.
  - destruct (op _ _) as [r0 s'] eqn:Eop. intros [= <- <-].
    split_and!; [done..|]. right. split; [done|]. by eexists (with_faults _ _).
Qed.

Lemma bind_inv {A B} (m : M A) (k : A → M B) w b w2 :
  bind m k w = (Return b, w2) →
  ∃ a w1, m w = (Return a, w1) ∧ k a w1 = (Return b, w2).
Proof.
  unfold bind. destruct (m w) as [[a|e] w1]; [|done]. by exists a, w1.
Qed.

Lemma try_catch_inv {A} (m : M A) h w a w2 :
  try_catch m h w = (Return a, w2) →
  m w = (Return a, w2) ∨ ∃ e w1, m w = (Throw e, w1) ∧ h e w1 = (Return a, w2).
Proof.
  unfold try_catch. destruct (m w) as [[a1|e] w1]; [by left|].
  right. by exists e, w1.
Qed.

Lemma invoices_list_inv customer gte limit w r w' :
  invoices_list customer gte limit w = (r, w') →
  world_db w' = world_db w ∧ world_now w' = world_now w
  ∧ same_data (world_stripe w) (world_stripe w').
Proof.
  unfold invoices_list.
  intros (Hd & Hn & [(_ & Hs & _)|(_ & s0 & Hs & Hop)])%api_inv;
    [done|]. by destruct gte; injection Hop as _ <-.
Qed.

Lemma customers_retrieve_inv customer w r w' :
  customers_retrieve customer w = (r, w') →
  world_db w' = world_db w ∧ world_now w' = world_now w
  ∧ same_data (world_stripe w) (world_stripe w').
Proof.
  unfold customers_retrieve.
  intros (Hd & Hn & [(_ & Hs & _)|(_ & s0 & Hs & Hop)])%api_inv;
    [done|]. by destruct (List.find _ _); injection Hop as _ <-.
Qed.

Lemma invoiceItems_create_inv p key w r w' :
  invoiceItems_create p key w = (r, w') →
  world_db w' = world_db w ∧ world_now w' = world_now w
  ∧ stripe_invoices (world_stripe w') = stripe_invoices (world_stripe w).
Proof.
  unfold invoiceItems_create.
  intros (Hd & Hn & [(_ & Hs & _)|(_ & s0 & Hs & Hop)])%api_inv.
  - split_and!; [done..|]. apply Hs.
  - split_and!; [done..|]. destruct Hs as [<- _].
    destruct (_ ≫= _); [destruct (same_params _ _)|destruct (has_customer _ _)];
      by injection Hop as _ <-.
Qed.

Lemma invoices_create_inv customer metadata w i w' :
  invoices_create customer metadata w = (Return i, w') →
  world_db w' = world_db w ∧ world_now w' = world_now w
  ∧ stripe_invoices (world_stripe w') = i :: stripe_invoices (world_stripe w)
  ∧ invoice_status i = draft
  ∧ is_invoice (invoice_id i) customer metadata (world_now w `div` 1000) i.
Proof.
  unfold invoices_create.
  intros (Hd & Hn & [([=] & _)|(_ & s0 & Hs & Hop)])%api_inv.
  destruct Hs as [<- _]. destruct (has_customer _ _); [|done].
  injection Hop as <- <-. by split_and!.
Qed.

Lemma replace_invoice_head i j rest :
  invoice_id j = invoice_id i →
  ∃ rest', replace_invoice i (j :: rest) = i :: rest'
           ∧ length rest' = length rest.
Proof.
  intros Hid. exists (replace_invoice i rest). unfold replace_invoice. simpl.
  rewrite (bool_decide_eq_true_2 _ Hid). by rewrite length_fmap.
Qed.

Lemma find_invoice_head s i rest :
  stripe_invoices s = i :: rest → find_invoice s (invoice_id i) = Some i.
Proof.
  unfold find_invoice. intros ->. simpl. by rewrite bool_decide_eq_true_2.
Qed.

(** Finalizing or paying the newest invoice keeps it the newest, with its
    id, customer, metadata and creation time, and never voids it; this
    also holds when the call raises. *)
Lemma advance_head_inv (status : InvoiceStatus) (next : Invoice → Invoice)
    (refusal : string) id customer metadata created i rest w r w' :
  (∀ j, invoice_id (next j) = invoice_id j
        ∧ invoice_customer (next j) = invoice_customer j
        ∧ invoice_metadata (next j) = invoice_metadata j
        ∧ invoice_created (next j) = invoice_created j
        ∧ invoice_status (next j) ≠ void) →
  stripe_invoices (world_stripe w) = i :: rest →
  is_invoice id customer metadata created i →
  api (λ s _,
         match find_invoice s id with
         | Some j =>
             if bool_decide (invoice_status j = status) then
               (Return (next j), with_invoices s (replace_invoice (next j) (stripe_invoices s)))
             else (Throw refusal, s)
         | None => (Throw "No such invoice", s)
         end) w = (r, w') →
  world_db w' = world_db w ∧ world_now w' = world_now w
  ∧ ∃ i' rest', stripe_invoices (world_stripe w') = i' :: rest'
                ∧ length rest' = length rest
                ∧ is_invoice id customer metadata created i'
                ∧ (∀ a, r = Return a → a = i')
                ∧ (∀ e, r = Throw e → i' = i).
Proof.
  intros Hnext Hinv (Hid & Hc & Hm & Ht & Hv).
  intros (Hd & Hn & [(-> & Hs & _)|(_ & s0 & Hs & Hop)])%api_inv;
    split_and!; try done.
  - exists i, rest. destruct Hs as [-> _]. by split_and!.
  - destruct Hs as [Hs _]. rewrite Hinv in Hs.
    rewrite <- Hid, (find_invoice_head s0 i rest Hs) in Hop.
    destruct (bool_decide _).
    + injection Hop as <- <-. simpl. rewrite Hs.
      destruct (Hnext i) as (Hi1 & Hi2 & Hi3 & Hi4 & Hi5).
      destruct (replace_invoice_head (next i) i rest) as (rest' & -> & Hlen);
        [done|].
      exists (next i), rest'. split_and!; try done.
      * unfold is_invoice. split_and!; congruence.
      * by intros a [= <-].
    + injection Hop as <- <-. exists i, rest. by split_and!.
Qed.

(** ** [createOverageBillingInvoice] *)

Lemma set_status_next status paidAmount attempted :
  status ≠ void →
  ∀ j, invoice_id (set_status j status (paidAmount j) (attempted j)) = invoice_id j
       ∧ invoice_customer (set_status j status (paidAmount j) (attempted j))
         = invoice_customer j
       ∧ invoice_metadata (set_status j status (paidAmount j) (attempted j))
         = invoice_metadata j
       ∧ invoice_created (set_status j status (paidAmount j) (attempted j))
         = invoice_created j
       ∧ invoice_status (set_status j status (paidAmount j) (attempted j)) ≠ void.
Proof. done. Qed.

(** A call that charges a positive overage has put a new invoice at the
    head of the provider's list: tagged with the metadata it was given,
    created now, not void, and named in the result. *)
Lemma createOverageBillingInvoice_creates
    env customerId amount description metadata w r1 w1 :
  createOverageBillingInvoice env customerId amount description metadata w
  = (Return r1, w1) →
  success r1 = true → chargedAmount r1 = Some amount → (0 < amount)%Qc →
  world_now w1 = world_now w
  ∧ ∃ i rest,
      stripe_invoices (world_stripe w1) = i :: rest
      ∧ length rest = length (stripe_invoices (world_stripe w))
      ∧ invoiceId r1 = Some (invoice_id i)
      ∧ is_invoice (invoice_id i) customerId
          (<["type" := "overage_billing"]> metadata)
          (world_now w `div` 1000) i.
Proof.
  intros Hcall Hok Hcharged Hpos. unfold createOverageBillingInvoice in Hcall.
  apply try_catch_inv in Hcall as [Hcall|(e & w0 & _ & [= <- _])]; [|done].
  case_decide as Hle.
  { injection Hcall as <- _. injection Hcharged as <-.
    by destruct (Qclt_not_eq _ _ Hpos). }
  apply bind_inv in Hcall as (now & wa & [= <- <-] & Hcall).
  apply bind_inv in Hcall as (recent & wb & Hlist & Hcall).
  apply invoices_list_inv in Hlist as (_ & Hnb & (Hib & _)).
  destruct (List.find _ recent) as [existing|].
  { injection Hcall as <- _. injection Hcharged as <-.
    by destruct (Qclt_not_eq _ _ Hpos). }
  apply bind_inv in Hcall as (customer & wc & Hretrieve & Hcall).
  apply customers_retrieve_inv in Hretrieve as (_ & Hnc & (Hic & _)).
  apply bind_inv in Hcall as (item & wd & Hitem & Hcall).
  apply invoiceItems_create_inv in Hitem as (_ & Hnd & Hid).
  apply bind_inv in Hcall as (invoice & we & Hcreate & Hcall).
  apply invoices_create_inv in Hcreate as (_ & Hne & Hie & Hdraft & Hinv).
  rewrite Hdraft in Hcall. simpl in Hcall.
  apply bind_inv in Hcall as (final1 & wf & Hfinalize & Hcall).
  unfold invoices_finalizeInvoice in Hfinalize.
  destruct (advance_head_inv draft
              (λ j, set_status j open (invoice_amount_paid j) (invoice_attempted j))
              _ _ _ _ _ _ _ _ _ _
              (set_status_next open _ _ ltac:(done)) Hie Hinv Hfinalize)
    as (_ & Hnf & i1 & rest1 & Hif & Hlen1 & Hinv1 & Hfin1 & _).
  rewrite (Hfin1 final1 eq_refl) in Hcall. clear Hfin1 Hfinalize final1.
  apply bind_inv in Hcall as (final2 & wg & Hpay & [= <- <-]).
  assert (invoice_id i1 = invoice_id invoice) as Hid1 by apply Hinv1.
  rewrite Hid1 in Hpay.
  assert (world_now wg = world_now wf
          ∧ ∃ rest2, stripe_invoices (world_stripe wg) = final2 :: rest2
                     ∧ length rest2 = length rest1
                     ∧ is_invoice (invoice_id invoice) customerId
                         (<["type":="overage_billing"]> metadata)
                         (world_now wd `div` 1000) final2)
    as (Hng & rest2 & Hig & Hlen2 & Hinv2).
  { destruct (bool_decide (invoice_status i1 = open)).
    - apply try_catch_inv in Hpay as [Hpay|(e & wp & Hpay & [= <- <-])];
        unfold invoices_pay in Hpay;
        destruct (advance_head_inv open
                    (λ j, set_status j paid (invoice_amount_due j) true)
                    _ _ _ _ _ _ _ _ _ _
                    (set_status_next paid _ (λ _, true) ltac:(done))
                    Hif Hinv1 Hpay)
          as (_ & Hnp & i2 & rest2 & Hip & Hlen2 & Hinv2 & Hfin2 & Hthrown).
      + rewrite (Hfin2 final2 eq_refl). split; [done|]. by exists rest2.
      + split; [done|]. exists rest2. by rewrite <- (Hthrown e eq_refl).
    - injection Hpay as <- <-. split; [done|]. by exists rest1. }
  split; [congruence|]. exists final2, rest2.
  split; [done|]. split; [congruence|]. split; [done|].
  destruct Hinv2 as (Hi & Hc & Hm & Ht & Hv).
  unfold is_invoice. split_and!; try done. rewrite Ht. congruence.
Qed.

Lemma string_or_Some s d : s ≠ "" → string_or (Some s) d = s.
Proof. intros H. unfold string_or. by rewrite bool_decide_eq_false_2. Qed.

(** A call that finds a matching invoice at the head of the provider's
    list creates nothing and reports that invoice with a zero charge
    (or the provider's failure, if the listing fails). *)
Lemma createOverageBillingInvoice_finds
    env customerId amount description metadata billingPeriod start i rest w :
  metadata !! "billingPeriod" = Some billingPeriod → billingPeriod ≠ "" →
  Date_parse env (billingPeriod +:+ "-01") = Some start →
  (0 < amount)%Qc →
  stripe_invoices (world_stripe w) = i :: rest →
  invoice_customer i = customerId →
  start `div` 1000 ≤ invoice_created i →
  is_overage_invoice_for billingPeriod i = true →
  ∃ r w',
    createOverageBillingInvoice env customerId amount description metadata w
    = (Return r, w')
    ∧ world_db w' = world_db w
    ∧ same_data (world_stripe w) (world_stripe w')
    ∧ (head (stripe_faults (world_stripe w)) ≠ Some true →
       r = succeeded 0 (Some (invoice_id i)))
    ∧ (head (stripe_faults (world_stripe w)) = Some true →
       r = failed "StripeError").
Proof.
  intros Hbp Hne Hstart Hpos Hinv Hc Hcreated Hmatch.
  unfold createOverageBillingInvoice.
  destruct (decide (amount ≤ 0)%Qc) as [Hle|_];
    [by apply Qclt_not_le in Hpos|].
  unfold try_catch, bind, get_now. cbv beta iota zeta.
  rewrite Hbp, (string_or_Some _ _ Hne), Hstart.
  unfold invoices_list, api. simpl.
  destruct (stripe_faults (world_stripe w)) as [|[] faults] eqn:Ef; simpl;
    rewrite ?Hinv; simpl.
  2: { eexists _, _. split; [reflexivity|]. by split_and!. }
  all: rewrite (bool_decide_eq_true_2 _ Hc), (bool_decide_eq_true_2 _ Hcreated);
    simpl; rewrite Hmatch;
    eexists _, _; (split; [reflexivity|]); split_and!; try done.
Qed.

Lemma is_invoice_overage id customerId metadata created billingPeriod i :
  metadata !! "billingPeriod" = Some billingPeriod →
  is_invoice id customerId (<["type" := "overage_billing"]> metadata) created i →
  is_overage_invoice_for billingPeriod i = true.
Proof.
  intros Hbp (_ & _ & Hm & _ & Hv). unfold is_overage_invoice_for.
  rewrite Hm, lookup_insert_eq, lookup_insert_ne, Hbp by done.
  rewrite !bool_decide_eq_true_2 by done.
  by rewrite bool_decide_eq_false_2.
Qed.

(** C4, as the code has it.  Take a call with a positive overage whose
    metadata names the billing period, at a time when that period's month
    has begun, and suppose it charged the overage.  Then it added exactly
    one invoice, and a second call for the same customer and period (at
    any time, for any positive amount) creates nothing: it returns success
    with a charged amount of zero and the id of that invoice, unless the
    provider fails to list the invoices, in which case it reports the
    failure. *)
Theorem createOverageBillingInvoice_idempotent
    env w customerId amount description metadata billingPeriod start r1 w1 :
  metadata !! "billingPeriod" = Some billingPeriod → billingPeriod ≠ "" →
  Date_parse env (billingPeriod +:+ "-01") = Some start →
  start `div` 1000 ≤ world_now w `div` 1000 →
  (0 < amount)%Qc →
  createOverageBillingInvoice env customerId amount description metadata w
  = (Return r1, w1) →
  success r1 = true → chargedAmount r1 = Some amount →
  ∃ i rest,
    stripe_invoices (world_stripe w1) = i :: rest
    ∧ length rest = length (stripe_invoices (world_stripe w))
    ∧ invoiceId r1 = Some (invoice_id i)
    ∧ ∀ t amount2 description2 metadata2,
        metadata2 !! "billingPeriod" = Some billingPeriod →
        (0 < amount2)%Qc →
        ∃ r2 w2,
          createOverageBillingInvoice env customerId amount2 description2
            metadata2 (set_now w1 t) = (Return r2, w2)
          ∧ world_db w2 = world_db w1
          ∧ same_data (world_stripe w1) (world_stripe w2)
          ∧ (head (stripe_faults (world_stripe w1)) ≠ Some true →
             r2 = succeeded 0 (Some (invoice_id i)))
          ∧ (head (stripe_faults (world_stripe w1)) = Some true →
             r2 = failed "StripeError").
Proof.
  intros Hbp Hne Hstart Hbegun Hpos Hcall Hok Hcharged.
  destruct (createOverageBillingInvoice_creates _ _ _ _ _ _ _ _
              Hcall Hok Hcharged Hpos)
    as (_ & i & rest & Hinv & Hlen & Hid & His).
  exists i, rest. split_and!; try done.
  intros t amount2 description2 metadata2 Hbp2 Hpos2.
  apply (createOverageBillingInvoice_finds env customerId amount2 description2
           metadata2 billingPeriod start i rest (set_now w1 t)); try done.
  - by destruct His as (_ & Hc & _).
  - destruct His as (_ & _ & _ & Ht & _). rewrite Ht. exact Hbegun.
  - exact (is_invoice_overage _ _ _ _ _ _ Hbp His).
Qed.

(** C4, on an example: two calls for the period 2026-11, made on
    2026-11-03; the second reports the invoice of the first. *)
Lemma createOverageBillingInvoice_idempotent_witness :
  ∃ r2 w2,
    createOverageBillingInvoice Reference.env "cus_u1" (Qc_of_Z 15) "Overage"
      {[ "billingPeriod" := "2026-11" ]}
      (createOverageBillingInvoice Reference.env "cus_u1" (Qc_of_Z 15) "Overage"
         {[ "billingPeriod" := "2026-11" ]} (Scenario.world Scenario.one_user)).2
    = (Return r2, w2)
    ∧ r2 = succeeded 0 (Some "in_2").
Proof.
  set (w := Scenario.world Scenario.one_user).
  set (metadata := {[ "billingPeriod" := "2026-11" ]} : gmap string string).
  set (first := createOverageBillingInvoice Reference.env "cus_u1" (Qc_of_Z 15)
                  "Overage" metadata w).
  destruct (createOverageBillingInvoice_idempotent Reference.env w "cus_u1"
              (Qc_of_Z 15) "Overage" metadata "2026-11" 1793491200000
              (succeeded (Qc_of_Z 15) (Some "in_2")) first.2)
    as (i & rest & Hinv & Hlen & Hid & Hsecond).
  - reflexivity.
  - discriminate.
  - reflexivity.
  - vm_compute. discriminate.
  - reflexivity.
  - vm_compute. reflexivity.
  - reflexivity.
  - reflexivity.
  - destruct (Hsecond (world_now first.2) (Qc_of_Z 15) "Overage" metadata)
      as (r2 & w2 & Hcall & _ & _ & Hr2 & _).
    + reflexivity.
    + reflexivity.
    + exists r2, w2. split.
      * exact Hcall.
      * injection Hid as Hid. rewrite Hid. apply Hr2. discriminate.
Defined.

(** C4, counterexample.  The billing period 2027-01 has not begun on
    2026-11-03: the invoice of the first call is older than the period and
    is not listed, so the second call creates and charges another one. *)
Lemma second_call_creates_another :
  ¬ second_call_creates_nothing Reference.env "cus_u1" (Qc_of_Z 15) "Overage"
      {[ "billingPeriod" := "2027-01" ]} (Scenario.world Scenario.one_user).
Proof.
  intros H.
  set (w := Scenario.world Scenario.one_user) in *.
  set (metadata := {[ "billingPeriod" := "2027-01" ]} : gmap string string) in *.
  set (first := createOverageBillingInvoice Reference.env "cus_u1" (Qc_of_Z 15)
                  "Overage" metadata w).
  set (second := createOverageBillingInvoice Reference.env "cus_u1" (Qc_of_Z 15)
                   "Overage" metadata first.2).
  destruct (H (succeeded (Qc_of_Z 15) (Some "in_2")) first.2
              (succeeded (Qc_of_Z 15) (Some "in_4")) second.2)
    as (Hsame & _).
  - vm_compute. reflexivity.
  - vm_compute. reflexivity.
  - apply (f_equal length) in Hsame. vm_compute in Hsame. discriminate Hsame.
Qed.

(** The same happens when the metadata does not name the billing period:
    the invoice is created without the tag the next call looks for. *)
Example untagged_call_creates_another :
  ¬ second_call_creates_nothing Reference.env "cus_u1" (Qc_of_Z 15) "Overage"
      ∅ (Scenario.world Scenario.one_user).
Proof.
  intros H.
  set (w := Scenario.world Scenario.one_user) in *.
  set (first := createOverageBillingInvoice Reference.env "cus_u1" (Qc_of_Z 15)
                  "Overage" ∅ w).
  set (second := createOverageBillingInvoice Reference.env "cus_u1" (Qc_of_Z 15)
                   "Overage" ∅ first.2).
  destruct (H (succeeded (Qc_of_Z 15) (Some "in_2")) first.2
              (succeeded (Qc_of_Z 15) (Some "in_4")) second.2)
    as (Hsame & _).
  - vm_compute. reflexivity.
  - vm_compute. reflexivity.
  - apply (f_equal length) in Hsame. vm_compute in Hsame. discriminate Hsame.
Qed.

(** ** A provider that answers every call *)







(** ** Which handlers reset the usage counters *)

Ltac step_handler :=
  lazymatch goal with
  | |- keeps_db (createOverageBillingInvoice _ _ _ _ _) =>
      apply createOverageBillingInvoice_keeps_db
  | |- keeps_db (customers_update _ _) => apply keeps_db_api
  | |- keeps_db (invoiceItems_create _ _) => apply keeps_db_api
  | _ => step_computation
  end.

Lemma processUserOverageBilling_keeps_db env userId :
  keeps_db (processUserOverageBilling env userId).
Proof.
  unfold processUserOverageBilling.
  repeat step_handler.
Qed.

Lemma processOrganizationOverageBilling_keeps_db env organizationId :
  keeps_db (processOrganizationOverageBilling env organizationId).
Proof.
  unfold processOrganizationOverageBilling.
  repeat step_handler.
Qed.

Lemma addOverageItem_keeps_db billingPeriod customerId subscriptionId amount metadata :
  keeps_db (addOverageItem billingPeriod customerId subscriptionId amount metadata).
Proof. unfold addOverageItem. repeat step_handler. Qed.

Lemma handleInvoiceUpcoming_keeps_db env event :
  keeps_db (handleInvoiceUpcoming env event).
Proof.
  unfold handleInvoiceUpcoming.
  repeat lazymatch goal with
    | |- keeps_db (addOverageItem _ _ _ _ _) => apply addOverageItem_keeps_db
    | _ => step_handler
    end.
Qed.

Lemma handleInvoiceFinalized_keeps_db env event :
  keeps_db (handleInvoiceFinalized env event).
Proof.
  unfold handleInvoiceFinalized.
  repeat lazymatch goal with
    | |- keeps_db (processUserOverageBilling _ _) =>
        apply processUserOverageBilling_keeps_db
    | |- keeps_db (processOrganizationOverageBilling _ _) =>
        apply processOrganizationOverageBilling_keeps_db
    | _ => step_handler
    end.
Qed.

Lemma handleInvoiceCreated_resets env event w id sub w' :
  invoice_subscription (event_object event) = Some id → id ≠ "" →
  invoice_billing_reason (event_object event) = Some "subscription_cycle" →
  subscription_by_stripe_id (world_db w) id = Some sub →
  handleInvoiceCreated env event w = (Return tt, w') →
  world_db w'
  = resetUsageForSubscription (subscription_plan sub)
      (subscription_referenceId sub) (world_db w).
Proof.
  intros Hsub Hne Hreason Hrec. unfold handleInvoiceCreated. cbv zeta.
  rewrite Hsub, Hreason. simpl.
  rewrite (bool_decide_eq_false_2 _ Hne). simpl.
  intros (d & w0 & [= <- <-] & Hcall)%bind_inv. rewrite Hrec in Hcall.
  apply bind_inv in Hcall as (r & w1 & [= _ <-] & Hcall).
  apply bind_inv in Hcall as ([] & w2 & Hitem & [= <-]). simpl. f_equal.
  assert (keeps_db
            (if decide (0 < r.1)%Qc
             then bind get_now (λ now,
                    addOverageItem
                      (Date_isoMonth env
                         (match invoice_period_end (event_object event) with
                          | Some t => if bool_decide (t = 0) then now `div` 1000 else t
                          | None => now `div` 1000
                          end * 1000))
                      (invoice_customer (event_object event)) id r.1 r.2)
             else ret tt)) as Hk.
  { repeat lazymatch goal with
      | |- keeps_db (addOverageItem _ _ _ _ _) => apply addOverageItem_keeps_db
      | _ => step_handler
      end. }
  destruct (Hk w) as [Hdb _]. by rewrite Hitem in Hdb.
Qed.

Lemma handleInvoicePaymentSucceeded_cases event d :
  handleInvoicePaymentSucceeded event d = d
  ∨ ∃ sub,
      subscription_by_stripe_id d
        (default "" (invoice_subscription (event_object event))) = Some sub
      ∧ handleInvoicePaymentSucceeded event d
        = if wasBlocked d sub
          then resetUsageForSubscription (subscription_plan sub)
                 (subscription_referenceId sub) (set_blocked_for false sub d)
          else set_blocked_for false sub d.
Proof.
  unfold handleInvoicePaymentSucceeded. cbv zeta.
  destruct (negb _); [by left|].
  destruct (subscription_by_stripe_id _ _) as [sub|]; [|by left].
  right. by exists sub.
Qed.

(** C3, as the code has it, revision by revision of [invoices.ts].
    [handleInvoiceUpcoming] (second revision) and [handleInvoiceFinalized]
    (third revision) leave the store as it is; [handleInvoicePaymentFailed]
    changes no cost in the first revision and nothing at all in the later
    ones; [handleSubscriptionUpdated] changes no usage row.  The usage
    counters are reset by [handleInvoicePaymentSucceeded] of the first
    revision, only when a subject was blocked; by
    [handleInvoicePaymentSucceeded] of the second and third revision, for
    every renewal invoice without the overage tag of a known subscription
    and for no other invoice; and by [handleInvoiceCreated] (first
    revision), whenever it completes for a renewal invoice of a known
    subscription. *)
Theorem handlers_that_reset_usage env :
  (∀ event w, world_db (handleInvoiceUpcoming env event w).2 = world_db w)
  ∧ (∀ event w, world_db (handleInvoiceFinalized env event w).2 = world_db w)
  ∧ (∀ event d,
       cost_view <$> userStats (handleInvoicePaymentFailed event d)
       = cost_view <$> userStats d)
  ∧ (∀ event d, Later.handleInvoicePaymentFailed event d = d)
  ∧ (∀ stripeSubscription d,
       userStats (handleSubscriptionUpdated stripeSubscription d) = userStats d)
  ∧ (∀ event d,
       Later.handleInvoicePaymentSucceeded event d = d
       ∨ ∃ id sub,
           invoice_metadata (event_object event) !! "type"
           ≠ Some "overage_billing"
           ∧ invoice_billing_reason (event_object event)
             = Some "subscription_cycle"
           ∧ invoice_subscription (event_object event) = Some id
           ∧ subscription_by_stripe_id d id = Some sub
           ∧ Later.handleInvoicePaymentSucceeded event d
             = resetUsageForSubscription (subscription_plan sub)
                 (subscription_referenceId sub) d)
  ∧ (∀ event d id sub,
       invoice_metadata (event_object event) !! "type" ≠ Some "overage_billing" →
       invoice_billing_reason (event_object event) = Some "subscription_cycle" →
       invoice_subscription (event_object event) = Some id → id ≠ "" →
       subscription_by_stripe_id d id = Some sub →
       Later.handleInvoicePaymentSucceeded event d
       = resetUsageForSubscription (subscription_plan sub)
           (subscription_referenceId sub) d)
  ∧ (∀ event d,
       cost_view <$> userStats (handleInvoicePaymentSucceeded event d)
       = cost_view <$> userStats d
       ∨ ∃ sub,
           subscription_by_stripe_id d
             (default "" (invoice_subscription (event_object event))) = Some sub
           ∧ wasBlocked d sub = true
           ∧ handleInvoicePaymentSucceeded event d
             = resetUsageForSubscription (subscription_plan sub)
                 (subscription_referenceId sub) (set_blocked_for false sub d))
  ∧ (∀ event w id sub w',
       invoice_subscription (event_object event) = Some id → id ≠ "" →
       invoice_billing_reason (event_object event) = Some "subscription_cycle" →
       subscription_by_stripe_id (world_db w) id = Some sub →
       handleInvoiceCreated env event w = (Return tt, w') →
       world_db w'
       = resetUsageForSubscription (subscription_plan sub)
           (subscription_referenceId sub) (world_db w)).
Proof.
  split_and!.
  - intros event w. apply handleInvoiceUpcoming_keeps_db.
  - intros event w. apply handleInvoiceFinalized_keeps_db.
  - intros event d.
    destruct (handleInvoicePaymentFailed_cases event d) as [->|(sub & -> & _)];
      [done|]. apply set_blocked_for_costs.
  - intros event d. unfold Later.handleInvoicePaymentFailed. cbv zeta.
    by repeat case_match.
  - intros s d. unfold handleSubscriptionUpdated.
    by destruct (subscription_by_stripe_id _ _).
  - intros event d. unfold Later.handleInvoicePaymentSucceeded. cbv zeta.
    case_bool_decide as Htype; [by left|].
    destruct (invoice_subscription (event_object event)) as [id|] eqn:Hid;
      simpl; [|by left].
    destruct (negb (bool_decide (id = ""))); [|by left].
    case_bool_decide as Hreason; simpl; [|by left].
    destruct (subscription_by_stripe_id d id) as [sub|] eqn:Hrec; [|by left].
    right. by exists id, sub.
  - intros event d id sub Htype Hreason Hid Hne Hrec.
    unfold Later.handleInvoicePaymentSucceeded. cbv zeta.
    rewrite (bool_decide_eq_false_2 _ Htype), Hid, Hreason. simpl.
    rewrite (bool_decide_eq_false_2 _ Hne). simpl. rewrite Hrec.
    unfold resetUsageForSubscription.
    by destruct (is_team_or_enterprise _).
  - intros event d.
    destruct (handleInvoicePaymentSucceeded_cases event d)
      as [->|(sub & Hrec & ->)]; [by left|].
    destruct (wasBlocked d sub) eqn:Hw.
    + right. by exists sub.
    + left. apply set_blocked_for_costs.
  - apply handleInvoiceCreated_resets.
Qed.

(** C3, counterexample.  The renewal invoice of a pro user who spent 42:
    [handleInvoiceCreated] bills the overage and sets the current cost to
    zero, before any payment has been confirmed. *)
Lemma handleInvoiceCreated_resets_usage :
  ¬ never_zeroes_usage (handleInvoiceCreated Reference.env).
Proof.
  intros H.
  specialize (H Scenario.renewal (Scenario.world Scenario.one_user) 0%nat
                (Scenario.usage_row "u1" 42)
                {| userStats_userId := "u1"; currentPeriodCost := Some 0%Qc;
                   lastPeriodCost := Some (Qc_of_Z 42); billingBlocked := false |}
                eq_refl).
  assert (Some (Qc_of_Z 42) = Some 0%Qc) as Hzero.
  { apply H; [vm_compute|]; reflexivity. }
  discriminate Hzero.
Qed.


(** C8, on an example: the payment of the renewal invoice of a blocked
    user unblocks the user and, the user having been blocked, resets the
    usage. *)
Lemma handleInvoicePaymentSucceeded_unblocks_witness :
  userStats (handleInvoicePaymentSucceeded Scenario.renewal Scenario.blocked_user)
  = [ {| userStats_userId := "u1"; currentPeriodCost := Some 0%Qc;
         lastPeriodCost := Some (Qc_of_Z 42); billingBlocked := false |} ].
Proof.
  destruct (handleInvoicePaymentSucceeded_unblocks Scenario.renewal
              Scenario.blocked_user "stripe_sub_1"
              (Scenario.subscription_row (Some "pro") "u1" None MetadataNull))
    as (_ & -> & _).
  - reflexivity.
  - discriminate.
  - reflexivity.
  - reflexivity.
Defined.

(** ** Runs of the embedding *)

(** Billing the team of the example creates one invoice over the overage
    of 15. *)
Example team_is_billed_15 :
  ∃ r w,
    processOrganizationOverageBilling Reference.env "org_1"
      (Scenario.world Scenario.team) = (Return r, w)
    ∧ success r = true
    ∧ chargedAmount r = Some (Qc_of_Z 15)
    ∧ invoice_amount_due <$> stripe_invoices (world_stripe w) = [1500].
Proof.
  eexists _, _. split; [vm_compute; reflexivity|].
  split_and!; [reflexivity| |reflexivity].
  simpl. f_equal. by apply Qc_is_canon.
Qed.

(** Billing the pro user who spent 42 charges the 22 above the base
    price of 20, tagged with the current month. *)
Example pro_user_is_billed_22 :
  ∃ r w i,
    processUserOverageBilling Reference.env "u1"
      (Scenario.world Scenario.one_user) = (Return r, w)
    ∧ chargedAmount r = Some (Qc_of_Z 22)
    ∧ stripe_invoices (world_stripe w) = [i]
    ∧ invoice_metadata i !! "billingPeriod" = Some "2026-11"
    ∧ invoice_status i = paid.
Proof.
  eexists _, _, _. split; [vm_compute; reflexivity|].
  split_and!; try reflexivity.
  simpl. f_equal. by apply Qc_is_canon.
Qed.

(** * Further properties *)

(** ** Results of the billing functions *)

Lemma createOverageBillingInvoice_well_formed env customerId amount description metadata :
  returns well_formed
    (createOverageBillingInvoice env customerId amount description metadata).
Proof.
  unfold createOverageBillingInvoice.
  repeat step_computation; unfold well_formed; simpl; by eauto.
Qed.

Lemma processUserOverageBilling_well_formed env userId :
  returns well_formed (processUserOverageBilling env userId).
Proof.
  unfold processUserOverageBilling.
  repeat lazymatch goal with
    | |- returns _ (createOverageBillingInvoice _ _ _ _ _) =>
        apply createOverageBillingInvoice_well_formed
    | _ => step_computation
    end; unfold well_formed; simpl; by eauto.
Qed.

Lemma processOrganizationOverageBilling_well_formed env organizationId :
  returns well_formed (processOrganizationOverageBilling env organizationId).
Proof.
  unfold processOrganizationOverageBilling.
  repeat lazymatch goal with
    | |- returns _ (createOverageBillingInvoice _ _ _ _ _) =>
        apply createOverageBillingInvoice_well_formed
    | _ => step_computation
    end; unfold well_formed; simpl; by eauto.
Qed.

Lemma billing_run {A} (m : M A) (P : A → Prop) :
  total_computation m → keeps_db m → returns P m →
  ∀ w, ∃ r w', m w = (Return r, w') ∧ world_db w' = world_db w
               ∧ world_now w' = world_now w ∧ P r.
Proof.
  intros Ht Hk Hr w. destruct (Ht w) as (r & w' & Hw).
  exists r, w'. destruct (Hk w) as [Hd Hn]. rewrite Hw in Hd, Hn.
  split_and!; [done..|]. by eapply Hr.
Qed.

(** X1.  The three billing functions never raise and never write the
    store: whatever the provider does, each returns a result, and that
    result either is a success that names the amount charged or a failure
    that carries a message and no amount. *)
Theorem billing_functions_always_report env :
  (∀ customerId amount description metadata w,
     ∃ r w',
       createOverageBillingInvoice env customerId amount description metadata w
       = (Return r, w')
       ∧ world_db w' = world_db w ∧ world_now w' = world_now w ∧ well_formed r)
  ∧ (∀ userId w,
       ∃ r w',
         processUserOverageBilling env userId w = (Return r, w')
         ∧ world_db w' = world_db w ∧ world_now w' = world_now w ∧ well_formed r)
  ∧ (∀ organizationId w,
       ∃ r w',
         processOrganizationOverageBilling env organizationId w = (Return r, w')
         ∧ world_db w' = world_db w ∧ world_now w' = world_now w ∧ well_formed r).
Proof.
  split_and!; intros.
  - apply billing_run.
    + apply createOverageBillingInvoice_total.
    + apply createOverageBillingInvoice_keeps_db.
    + apply createOverageBillingInvoice_well_formed.
  - apply billing_run.
    + apply total_try_catch. intros e. apply total_ret.
    + apply processUserOverageBilling_keeps_db.
    + apply processUserOverageBilling_well_formed.
  - apply billing_run.
    + apply total_try_catch. intros e. apply total_ret.
    + apply processOrganizationOverageBilling_keeps_db.
    + apply processOrganizationOverageBilling_well_formed.
Qed.

(** ** Invoices a computation creates *)

Section Counting.
Context {A B : Type}.

Lemma creates_ret n (a : A) : creates_at_most n (ret a).
Proof. intros w. simpl. lia. Qed.

Lemma creates_throw n e : creates_at_most n (@throw A e).
Proof. intros w. simpl. lia. Qed.

Lemma creates_lift n (o : Outcome A) : creates_at_most n (lift o).
Proof. intros w. simpl. lia. Qed.

Lemma creates_modify_db n f : creates_at_most n (modify_db f).
Proof. intros w. unfold invoices_of. simpl. lia. Qed.

(** A call to the provider whose operation adds at most [n] invoices. *)
Lemma creates_api n (op : Stripe → Z → Outcome A * Stripe) :
  (∀ s now, (length (stripe_invoices s) ≤ length (stripe_invoices (op s now).2)
             ≤ length (stripe_invoices s) + n)%nat) →
  creates_at_most n (api op).
Proof.
  intros Hop w. unfold api, invoices_of.
  destruct (stripe_faults (world_stripe w)) as [|[] rest] eqn:E; simpl; [|lia|].
  - specialize (Hop (with_faults (world_stripe w) []) (world_now w)).
    destruct (op _ _) as [r s']. simpl in *. lia.
  - specialize (Hop (with_faults (world_stripe w) rest) (world_now w)).
    destruct (op _ _) as [r s']. simpl in *. lia.
Qed.

Lemma creates_bind n (m : M A) (k : A → M B) :
  creates_at_most 0 m → (∀ a, creates_at_most n (k a)) →
  creates_at_most n (bind m k).
Proof.
  intros Hm Hk w. unfold bind. specialize (Hm w).
  destruct (m w) as [[a|e] w1]; simpl in *; [|lia].
  specialize (Hk a w1). lia.
Qed.

Lemma creates_bind_first n (m : M A) (k : A → M B) :
  creates_at_most n m → (∀ a, creates_at_most 0 (k a)) →
  creates_at_most n (bind m k).
Proof.
  intros Hm Hk w. unfold bind. specialize (Hm w).
  destruct (m w) as [[a|e] w1]; simpl in *; [|lia].
  specialize (Hk a w1). lia.
Qed.

Lemma creates_try_catch n (m : M A) (h : string → M A) :
  creates_at_most n m → (∀ e, creates_at_most 0 (h e)) →
  creates_at_most n (try_catch m h).
Proof.
  intros Hm Hh w. unfold try_catch. specialize (Hm w).
  destruct (m w) as [[a|e] w1]; simpl in *; [lia|].
  specialize (Hh e w1). lia.
Qed.

End Counting.

Lemma creates_get_db n : creates_at_most n get_db.
Proof. intros w. simpl. lia. Qed.

Lemma creates_get_now n : creates_at_most n get_now.
Proof. intros w. simpl. lia. Qed.

Lemma creates_invoices_list n customer gte limit :
  creates_at_most n (invoices_list customer gte limit).
Proof. apply creates_api. intros s now. destruct gte; simpl; lia. Qed.

Lemma creates_customers_retrieve n customer :
  creates_at_most n (customers_retrieve customer).
Proof. apply creates_api. intros s now. destruct (List.find _ _); simpl; lia. Qed.

Lemma creates_customers_update n customer email :
  creates_at_most n (customers_update customer email).
Proof. apply creates_api. intros s now. destruct (has_customer _ _); simpl; lia. Qed.

Lemma creates_invoiceItems_create n p key :
  creates_at_most n (invoiceItems_create p key).
Proof.
  apply creates_api. intros s now. cbv zeta.
  repeat case_match; simpl; lia.
Qed.

Lemma creates_invoices_create n customer metadata :
  creates_at_most (S n) (invoices_create customer metadata).
Proof.
  apply creates_api. intros s now. destruct (has_customer _ _); simpl; lia.
Qed.

Lemma creates_invoices_finalizeInvoice n id :
  creates_at_most n (invoices_finalizeInvoice id).
Proof.
  apply creates_api. intros s now.
  destruct (find_invoice _ _); [destruct (bool_decide _)|]; simpl;
    unfold replace_invoice; rewrite ?length_fmap; lia.
Qed.

Lemma creates_invoices_pay n id : creates_at_most n (invoices_pay id).
Proof.
  apply creates_api. intros s now.
  destruct (find_invoice _ _); [destruct (bool_decide _)|]; simpl;
    unfold replace_invoice; rewrite ?length_fmap; lia.
Qed.

(** Decomposes a goal about the invoices a computation creates. *)
Ltac step_count :=
  lazymatch goal with
  | |- creates_at_most _ (ret _) => apply creates_ret
  | |- creates_at_most _ (throw _) => apply creates_throw
  | |- creates_at_most _ (lift _) => apply creates_lift
  | |- creates_at_most _ (modify_db _) => apply creates_modify_db
  | |- creates_at_most _ get_db => apply creates_get_db
  | |- creates_at_most _ get_now => apply creates_get_now
  | |- creates_at_most _ (invoices_list _ _ _) => apply creates_invoices_list
  | |- creates_at_most _ (customers_retrieve _) => apply creates_customers_retrieve
  | |- creates_at_most _ (customers_update _ _) => apply creates_customers_update
  | |- creates_at_most _ (invoiceItems_create _ _) => apply creates_invoiceItems_create
  | |- creates_at_most _ (invoices_create _ _) => apply creates_invoices_create
  | |- creates_at_most _ (invoices_finalizeInvoice _) =>
      apply creates_invoices_finalizeInvoice
  | |- creates_at_most _ (invoices_pay _) => apply creates_invoices_pay
  | |- creates_at_most _ (bind (invoices_create _ _) _) =>
      apply creates_bind_first; [|intros ?]
  | |- creates_at_most _ (bind _ _) => apply creates_bind; [|intros ?]
  | |- creates_at_most _ (try_catch _ _) => apply creates_try_catch; [|intros ?]
  | |- creates_at_most _ (match ?x with _ => _ end) => destruct x
  | |- creates_at_most _ (let _ := _ in _) => cbv zeta
  end.

Lemma createOverageBillingInvoice_creates_at_most env customerId amount description metadata :
  creates_at_most 1
    (createOverageBillingInvoice env customerId amount description metadata).
Proof. unfold createOverageBillingInvoice. repeat step_count. Qed.

Lemma processUserOverageBilling_creates_at_most env userId :
  creates_at_most 1 (processUserOverageBilling env userId).
Proof.
  unfold processUserOverageBilling.
  repeat lazymatch goal with
    | |- creates_at_most _ (createOverageBillingInvoice _ _ _ _ _) =>
        apply createOverageBillingInvoice_creates_at_most
    | _ => step_count
    end.
Qed.

Lemma processOrganizationOverageBilling_creates_at_most env organizationId :
  creates_at_most 1 (processOrganizationOverageBilling env organizationId).
Proof.
  unfold processOrganizationOverageBilling.
  repeat lazymatch goal with
    | |- creates_at_most _ (createOverageBillingInvoice _ _ _ _ _) =>
        apply createOverageBillingInvoice_creates_at_most
    | _ => step_count
    end.
Qed.

(** X2.  A billing run adds at most one invoice at the provider and removes
    none, also when it fails midway; so does [handleInvoiceFinalized],
    which starts such a run.  [handleInvoiceCreated] and
    [handleInvoiceUpcoming] only add invoice items: the list of invoices
    keeps its length. *)
Theorem at_most_one_invoice_per_run env :
  (∀ customerId amount description metadata,
     creates_at_most 1
       (createOverageBillingInvoice env customerId amount description metadata))
  ∧ (∀ userId, creates_at_most 1 (processUserOverageBilling env userId))
  ∧ (∀ organizationId,
       creates_at_most 1 (processOrganizationOverageBilling env organizationId))
  ∧ (∀ event, creates_at_most 1 (handleInvoiceFinalized env event))
  ∧ (∀ event, creates_at_most 0 (handleInvoiceCreated env event))
  ∧ (∀ event, creates_at_most 0 (handleInvoiceUpcoming env event)).
Proof.
  split_and!; intros.
  - apply createOverageBillingInvoice_creates_at_most.
  - apply processUserOverageBilling_creates_at_most.
  - apply processOrganizationOverageBilling_creates_at_most.
  - unfold handleInvoiceFinalized.
    repeat lazymatch goal with
      | |- creates_at_most _ (bind (processUserOverageBilling _ _) _) =>
          apply creates_bind_first;
          [apply processUserOverageBilling_creates_at_most|intros ?]
      | |- creates_at_most _ (bind (processOrganizationOverageBilling _ _) _) =>
          apply creates_bind_first;
          [apply processOrganizationOverageBilling_creates_at_most|intros ?]
      | _ => step_count
      end.
  - unfold handleInvoiceCreated, addOverageItem. repeat step_count.
  - unfold handleInvoiceUpcoming, addOverageItem. repeat step_count.
Qed.

(** ** A zero charge *)

Lemma invoices_list_Return customer gte limit w recent w' :
  invoices_list customer gte limit w = (Return recent, w') →
  same_data (world_stripe w) (world_stripe w')
  ∧ ∀ i, i ∈ recent → i ∈ invoices_of w ∧ invoice_customer i = customer.
Proof.
  unfold invoices_list.
  intros (_ & _ & [([=] & _)|(_ & s0 & Hs & Hop)])%api_inv.
  destruct gte as [t|]; [|done]. injection Hop as <- <-.
  split; [done|]. intros i Hi.
  assert (i ∈ List.filter
                (λ i, bool_decide (invoice_customer i = customer)
                      && bool_decide (t ≤ invoice_created i))
                (stripe_invoices s0)) as Hin.
  { rewrite <- (take_drop limit (List.filter _ _)). apply elem_of_app. by left. }
  apply list_elem_of_In, filter_In in Hin as [Hin Hc].
  apply andb_prop in Hc as [Hc%bool_decide_eq_true _].
  split; [|done]. unfold invoices_of. destruct Hs as [<- _].
  by apply list_elem_of_In.
Qed.

(** X3.  When [createOverageBillingInvoice] reports a charged amount of
    zero, it has created nothing at the provider: either there was no
    overage to bill, or it names an invoice the provider already held for
    that customer, tagged as overage billing and not void. *)
Theorem zero_charge_creates_nothing
    env customerId amount description metadata w r w' :
  createOverageBillingInvoice env customerId amount description metadata w
  = (Return r, w') →
  chargedAmount r = Some 0%Qc →
  same_data (world_stripe w) (world_stripe w')
  ∧ (((amount ≤ 0)%Qc ∧ invoiceId r = None)
     ∨ ∃ i, i ∈ invoices_of w
            ∧ invoiceId r = Some (invoice_id i)
            ∧ invoice_customer i = customerId
            ∧ invoice_metadata i !! "type" = Some "overage_billing"
            ∧ invoice_status i ≠ void).
Proof.
  intros Hcall Hzero. unfold createOverageBillingInvoice in Hcall.
  apply try_catch_inv in Hcall as [Hcall|(e & w0 & _ & [= <- _])]; [|done].
  case_decide as Hle.
  { injection Hcall as <- <-. split; [done|]. by left. }
  apply bind_inv in Hcall as (now & wa & [= <- <-] & Hcall).
  apply bind_inv in Hcall as (recent & wb & Hlist & Hcall).
  apply invoices_list_Return in Hlist as [Hsame Hrecent].
  destruct (List.find _ recent) as [existing|] eqn:Hfind.
  - injection Hcall as <- <-. split; [done|]. right. exists existing.
    apply find_some in Hfind as [Hin Hmatch].
    apply list_elem_of_In, Hrecent in Hin as [Hin Hc].
    unfold is_overage_invoice_for in Hmatch.
    apply andb_prop in Hmatch as [Hmatch Hv].
    apply andb_prop in Hmatch as [Ht%bool_decide_eq_true _].
    apply negb_true_iff, bool_decide_eq_false in Hv.
    by split_and!.
  - exfalso.
    match type of Hcall with
    | ?m wb = _ =>
        assert (returns (λ r, chargedAmount r = Some amount) m) as Hr
          by (repeat step_computation; done)
    end.
    specialize (Hr _ _ _ Hcall). simpl in Hr. rewrite Hzero in Hr.
    injection Hr as <-. by apply Hle.
Qed.

(** ** Runs that bill nothing *)

Lemma calculateUserOverage_unknown_user env d userId :
  select_first (λ u, bool_decide (user_id u = userId)) (user d) = None →
  calculateUserOverage env d userId = None.
Proof.
  intros Hu. unfold calculateUserOverage.
  destruct (getHighestPrioritySubscription _ _ _); [|done].
  destruct (getUserUsageData _ _ _); [|done]. by rewrite Hu.
Qed.

(** X4.  [processUserOverageBilling] refuses without contacting the
    provider when the overage cannot be worked out (in particular for a
    user that is not in the store, or when the usage cannot be read) and
    when a user with an overage on a paid plan has no customer id: the
    result is the failure with the respective message and the world is as
    it was. *)
Theorem processUserOverageBilling_refuses env userId w :
  let d := world_db w in
  let refused message :=
    processUserOverageBilling env userId w = (Return (failed message), w) in
  (calculateUserOverage env d userId = None →
   refused "Failed to calculate overage information")
  ∧ (select_first (λ u, bool_decide (user_id u = userId)) (user d) = None →
     refused "Failed to calculate overage information")
  ∧ (∀ e, getUserUsageData env d userId = Throw e →
          refused "Failed to calculate overage information")
  ∧ (∀ info, calculateUserOverage env d userId = Some info →
             overage_plan info ≠ "free" → (0 < overageAmount info)%Qc →
             getStripeCustomerId d userId = None →
             refused "No Stripe customer ID found").
Proof.
  intros d refused.
  assert (calculateUserOverage env d userId = None →
          refused "Failed to calculate overage information") as Hnone.
  { intros Hc. unfold refused, processUserOverageBilling, try_catch, bind, get_db.
    fold d. by rewrite Hc. }
  split_and!.
  - exact Hnone.
  - intros Hu. by apply Hnone, calculateUserOverage_unknown_user.
  - intros e He. apply Hnone. unfold calculateUserOverage. rewrite He.
    by destruct (getHighestPrioritySubscription _ _ _).
  - intros info Hc Hplan Hpos Hcust.
    unfold refused, processUserOverageBilling, try_catch, bind, get_db.
    fold d. rewrite Hc, (bool_decide_eq_false_2 _ Hplan).
    destruct (decide (overageAmount info ≤ 0)%Qc) as [Hle|_];
      [by apply Qclt_not_le in Hpos|].
    by rewrite Hcust.
Qed.

(** No customer id is found for an organization without a member that has
    a user row, unless a user row carries the organization's id. *)
Lemma getStripeCustomerId_memberless d organizationId :
  organization_members d organizationId = [] →
  (∀ u, u ∈ user d → user_id u ≠ organizationId) →
  getStripeCustomerId d organizationId = None.
Proof.
  intros Hmembers Hids. unfold getStripeCustomerId.
  destruct (select_first _ (user d)) as [u|] eqn:Hu.
  { apply select_first_Some in Hu as [Hin Hid%bool_decide_eq_true].
    by destruct (Hids u Hin). }
  rewrite (left_id_L None (∪)).
  destruct (select_first _ (organization d)); [|done].
  destruct (head (owners_with_member d organizationId)) as [[owner m]|] eqn:Hhead;
    [|done].
  apply head_Some_elem_of in Hhead. unfold owners_with_member in Hhead.
  apply list_elem_of_bind in Hhead as (u & Hm & Hu').
  apply list_elem_of_bind in Hm as (m' & Heq & Hm').
  apply list_elem_of_singleton in Heq. injection Heq as <- <-.
  unfold select_where in Hm'. apply list_elem_of_In, filter_In in Hm' as [Hm' Hp].
  apply andb_prop in Hp as [[Hid%bool_decide_eq_true Horg%bool_decide_eq_true]%andb_prop _].
  assert ((m, owner) ∈ members_with_user d organizationId) as Hjoin.
  { unfold members_with_user. apply list_elem_of_bind. exists m. split.
    - apply list_elem_of_bind. exists owner. split; [by left|].
      unfold select_where. apply list_elem_of_In, filter_In.
      split; [by apply list_elem_of_In|]. by apply bool_decide_eq_true.
    - unfold select_where. apply list_elem_of_In, filter_In.
      split; [done|]. by apply bool_decide_eq_true. }
  unfold organization_members in Hmembers. apply fmap_nil_inv in Hmembers.
  rewrite Hmembers in Hjoin. by apply not_elem_of_nil in Hjoin.
Qed.

(** X5.  [processOrganizationOverageBilling] refuses without contacting the
    provider when the first active subscription of the organization is
    missing or is not a team or enterprise plan ('No valid subscription
    found') and when no customer id is found for the organization ('No
    Stripe customer ID found'); the latter is the answer for an
    organization none of whose members has a user row, unless a user row
    carries the organization's id.  Only when a customer id is found
    although there is no such member does the call report success with
    nothing charged, adding no invoice. *)
Theorem processOrganizationOverageBilling_refuses env organizationId w :
  let d := world_db w in
  let refused message :=
    processOrganizationOverageBilling env organizationId w
    = (Return (failed message), w) in
  (getOrganizationSubscription d organizationId = None →
   refused "No valid subscription found")
  ∧ (∀ sub, getOrganizationSubscription d organizationId = Some sub →
            is_team_or_enterprise (subscription_plan sub) = false →
            refused "No valid subscription found")
  ∧ (∀ sub, getOrganizationSubscription d organizationId = Some sub →
            is_team_or_enterprise (subscription_plan sub) = true →
            getStripeCustomerId d organizationId = None →
            refused "No Stripe customer ID found")
  ∧ (∀ sub, getOrganizationSubscription d organizationId = Some sub →
            is_team_or_enterprise (subscription_plan sub) = true →
            organization_members d organizationId = [] →
            (∀ u, u ∈ user d → user_id u ≠ organizationId) →
            refused "No Stripe customer ID found")
  ∧ (∀ sub customer,
       getOrganizationSubscription d organizationId = Some sub →
       is_team_or_enterprise (subscription_plan sub) = true →
       getStripeCustomerId d organizationId = Some customer →
       organization_members d organizationId = [] →
       ∃ w', processOrganizationOverageBilling env organizationId w
             = (Return (succeeded 0 None), w')
             ∧ world_db w' = d
             ∧ length (invoices_of w') = length (invoices_of w)).
Proof.
  intros d refused. split_and!.
  - intros Hs. unfold refused, processOrganizationOverageBilling, try_catch,
      bind, get_db. fold d. by rewrite Hs.
  - intros sub Hs Hp. unfold refused, processOrganizationOverageBilling,
      try_catch, bind, get_db. fold d. by rewrite Hs, Hp.
  - intros sub Hs Hp Hc. unfold refused, processOrganizationOverageBilling,
      try_catch, bind, get_db. fold d. by rewrite Hs, Hp, Hc.
  - intros sub Hs Hp Hm Hids.
    pose proof (getStripeCustomerId_memberless d organizationId Hm Hids) as Hc.
    unfold refused, processOrganizationOverageBilling, try_catch, bind, get_db.
    fold d. by rewrite Hs, Hp, Hc.
  - intros sub customer Hs Hp Hc Hm.
    destruct (email_step_total
                (head (List.filter
                         (λ mu, bool_decide (member_role mu.1 = "owner"))
                         (members_with_user d organizationId))
                 ≫= λ mu, user_email mu.2)
                customer w) as (w1 & Hw1 & Hdb & _).
    exists w1. split_and!; [|done|].
    + unfold processOrganizationOverageBilling. apply try_catch_Return.
      unfold bind at 1. unfold get_db at 1. fold d. rewrite Hs, Hp. simpl.
      rewrite Hc.
      match goal with
      | |- context [bind ?step ?k w] => rewrite (bind_Return step k w tt w1 Hw1)
      end.
      by rewrite Hm.
    + match type of Hw1 with
      | ?step w = _ =>
          assert (creates_at_most 0 step) as Hzero by repeat step_count
      end.
      specialize (Hzero w). rewrite Hw1 in Hzero. simpl in Hzero. lia.
Qed.

(** X5, on an example: the team without a member is refused for want of
    a customer id, and the world is as before. *)
Lemma processOrganizationOverageBilling_refuses_witness :
  processOrganizationOverageBilling Reference.env "org_1"
    (Scenario.world Cases.memberless)
  = (Return (failed "No Stripe customer ID found"),
     Scenario.world Cases.memberless).
Proof.
  destruct (processOrganizationOverageBilling_refuses Reference.env "org_1"
              (Scenario.world Cases.memberless))
    as (_ & _ & _ & Hmemberless & _).
  apply (Hmemberless
           (Scenario.subscription_row (Some "team") "org_1" (Some 3) MetadataNull));
    try reflexivity.
  intros u Hu. by apply not_elem_of_nil in Hu.
Defined.

(** ** Redelivery of an upcoming invoice *)

Lemma same_params_refl p id invoice :
  same_params p
    {| item_id := id; item_customer := params_customer p;
       item_subscription := params_subscription p;
       item_amount := params_amount p; item_currency := params_currency p;
       item_description := params_description p;
       item_metadata := params_metadata p; item_invoice := invoice |} = true.
Proof. unfold same_params. simpl. by rewrite !bool_decide_eq_true_2. Qed.

(** Once a keyed creation has returned, the key replays its item: a second
    creation with the same parameters changes nothing at the provider. *)
Lemma invoiceItems_create_replay p k w item w1 :
  invoiceItems_create p (Some k) w = (Return item, w1) →
  ∀ t r w2,
    invoiceItems_create p (Some k) (set_now w1 t) = (r, w2) →
    same_data (world_stripe w1) (world_stripe w2)
    ∧ world_db w2 = world_db w1
    ∧ (r = Return item ∨ r = Throw "StripeError").
Proof.
  intros Hfirst t r w2 Hsecond.
  assert (snd <$> List.find (λ e, bool_decide (fst e = k))
                    (stripe_idempotency (world_stripe w1)) = Some item
          ∧ same_params p item = true) as [Hkey Hsame].
  { unfold invoiceItems_create in Hfirst.
    apply api_inv in Hfirst as (_ & _ & [([=] & _)|(_ & s0 & Hs & Hop)]).
    cbv zeta in Hop. simpl in Hop.
    destruct (List.find _ (stripe_idempotency s0)) as [[k0 item0]|] eqn:Hfind;
      simpl in Hop.
    - destruct (same_params p item0) eqn:Hp; [|done].
      injection Hop as <- <-. by rewrite Hfind.
    - destruct (has_customer s0 (params_customer p)); [|done].
      injection Hop as <- <-. simpl. rewrite bool_decide_eq_true_2 by done.
      split; [done|]. apply same_params_refl. }
  unfold invoiceItems_create in Hsecond.
  apply api_inv in Hsecond as (Hd & _ & [(-> & Hs & _)|(_ & s0 & Hs & Hop)]).
  - split_and!; [done|done|by right].
  - cbv zeta in Hop. simpl in Hop.
    destruct Hs as (Hs1 & Hs2 & Hs3 & Hs4 & Hs5). simpl in *.
    rewrite Hs4 in Hop.
    destruct (List.find _ (stripe_idempotency (world_stripe w1)))
      as [[k0 item0]|]; [|done].
    simpl in Hkey. injection Hkey as ->. simpl in Hop. rewrite Hsame in Hop.
    injection Hop as <- <-. split_and!; [|done|by left].
    by unfold same_data.
Qed.

(** X6.  Once [handleInvoiceUpcoming] has completed for an event, the same
    event delivered again while the store is unchanged and the month is
    the same adds no second overage item: the idempotency key replays the
    first one, and the provider's data stay as they are whether the second
    delivery completes or the provider fails. *)
Theorem handleInvoiceUpcoming_redelivered env event w w1 t r w2 :
  handleInvoiceUpcoming env event w = (Return tt, w1) →
  Date_isoMonth env t = Date_isoMonth env (world_now w) →
  handleInvoiceUpcoming env event (set_now w1 t) = (r, w2) →
  same_data (world_stripe w1) (world_stripe w2)
  ∧ world_db w2 = world_db w
  ∧ (r = Return tt ∨ r = Throw "StripeError").
Proof.
  intros Hfirst Hmonth Hsecond.
  pose proof (handleInvoiceUpcoming_keeps_db env event w) as [Hdb _].
  rewrite Hfirst in Hdb. simpl in Hdb.
  unfold handleInvoiceUpcoming in Hfirst, Hsecond. cbv zeta in Hfirst, Hsecond.
  destruct (negb (truthy_string (invoice_subscription (event_object event)))).
  { injection Hfirst as <-. injection Hsecond as <- <-.
    split_and!; [done|done|by left]. }
  unfold bind at 1 in Hfirst. unfold get_db at 1 in Hfirst.
  unfold bind at 1 in Hsecond. unfold get_db at 1 in Hsecond.
  simpl in Hsecond. rewrite Hdb in Hsecond.
  destruct (subscription_by_stripe_id (world_db w) _) as [sub|].
  2: { injection Hfirst as <-. injection Hsecond as <- <-.
       split_and!; [done|done|by left]. }
  unfold bind at 1 in Hfirst. unfold lift at 1 in Hfirst.
  unfold bind at 1 in Hsecond. unfold lift at 1 in Hsecond.
  destruct (renewal_overage env (world_db w) sub) as [[overage metadata]|e];
    [|done].
  simpl in Hfirst, Hsecond.
  destruct (decide (0 < overage)%Qc) as [Hpos|_].
  2: { injection Hfirst as <-. injection Hsecond as <- <-.
       split_and!; [done|done|by left]. }
  unfold bind at 1 in Hfirst. unfold get_now at 1 in Hfirst.
  unfold bind at 1 in Hsecond. unfold get_now at 1 in Hsecond.
  simpl in Hsecond. rewrite Hmonth in Hsecond.
  unfold addOverageItem in Hfirst, Hsecond.
  apply bind_inv in Hfirst as (item & w0 & Hitem & [= <-]).
  unfold bind in Hsecond.
  destruct (invoiceItems_create _ _ (set_now w0 t)) as [r2 w3] eqn:Hagain.
  destruct (invoiceItems_create_replay _ _ _ _ _ Hitem _ _ _ Hagain)
    as (Hsame & Hd & [-> | ->]).
  - injection Hsecond as <- <-. split_and!; [done|congruence|by left].
  - injection Hsecond as <- <-. split_and!; [done|congruence|by right].
Qed.

(** ** Failures in the handlers *)

(** X7.  When [handleInvoiceCreated] raises (the usage cannot be read, the
    metadata cannot be parsed, or the provider refuses the invoice item),
    it has not reset anything: the store is as it was.  An invoice that is
    not a renewal ([billing_reason] other than 'subscription_cycle', or no
    subscription) is ignored altogether. *)
Theorem handleInvoiceCreated_raises_before_reset env event w :
  (∀ e w', handleInvoiceCreated env event w = (Throw e, w') →
           world_db w' = world_db w)
  ∧ (invoice_billing_reason (event_object event) ≠ Some "subscription_cycle" →
     handleInvoiceCreated env event w = (Return tt, w))
  ∧ (truthy_string (invoice_subscription (event_object event)) = false →
     handleInvoiceCreated env event w = (Return tt, w)).
Proof.
  split_and!.
  - intros e w'. unfold handleInvoiceCreated. cbv zeta.
    destruct (_ || _); [done|].
    unfold bind at 1. unfold get_db at 1.
    destruct (subscription_by_stripe_id _ _) as [sub|]; [|done].
    unfold bind at 1. unfold lift at 1.
    destruct (renewal_overage env (world_db w) sub) as [r|e0];
      [|by intros [= _ <-]].
    unfold bind at 1.
    match goal with
    | |- context [match ?step w with _ => _ end] =>
        assert (keeps_db step) as Hk
    end.
    { repeat lazymatch goal with
        | |- keeps_db (addOverageItem _ _ _ _ _) => apply addOverageItem_keeps_db
        | _ => step_handler
        end. }
    destruct (Hk w) as [Hdb _].
    match goal with
    | |- context [match ?step w with _ => _ end] => destruct (step w) as [[[]|e1] w1]
    end; [done|].
    by intros [= _ <-].
  - intros Hreason. unfold handleInvoiceCreated. cbv zeta.
    rewrite (bool_decide_eq_false_2 _ Hreason). simpl.
    by rewrite orb_true_r.
  - intros Hsub. unfold handleInvoiceCreated. cbv zeta. by rewrite Hsub.
Qed.

(** X8.  [handleInvoiceFinalized] never fails the webhook and never writes
    the store, whether the billing run it starts succeeds or not.  It
    ignores the invoices that are themselves overage invoices, so the
    invoice a billing run creates does not start another run, and it
    ignores the invoices that are not renewals. *)
Theorem handleInvoiceFinalized_never_fails env event w :
  (∃ w', handleInvoiceFinalized env event w = (Return tt, w')
         ∧ world_db w' = world_db w)
  ∧ (invoice_metadata (event_object event) !! "type" = Some "overage_billing" →
     handleInvoiceFinalized env event w = (Return tt, w))
  ∧ (invoice_billing_reason (event_object event) ≠ Some "subscription_cycle" →
     handleInvoiceFinalized env event w = (Return tt, w)).
Proof.
  split_and!.
  - assert (∃ w', handleInvoiceFinalized env event w = (Return tt, w'))
      as [w' Hw].
    { unfold handleInvoiceFinalized. cbv zeta.
      destruct (bool_decide _); [by eexists|].
      destruct (_ && _); [|by eexists].
      unfold bind at 1. unfold get_db at 1.
      destruct (subscription_by_stripe_id _ _) as [sub|]; [|by eexists].
      match goal with
      | |- context [try_catch ?m ?h] =>
          destruct (total_try_catch m h (λ _, total_ret tt) w) as ([] & w' & Hw)
      end.
      by exists w'. }
    exists w'. split; [done|].
    pose proof (handleInvoiceFinalized_keeps_db env event w) as [Hdb _].
    by rewrite Hw in Hdb.
  - intros Htype. unfold handleInvoiceFinalized. cbv zeta.
    by rewrite (bool_decide_eq_true_2 _ Htype).
  - intros Hreason. unfold handleInvoiceFinalized. cbv zeta.
    destruct (bool_decide (_ !! _ = _)); [done|].
    by rewrite (bool_decide_eq_false_2 _ Hreason), andb_false_r.
Qed.

(** ** The customer of a subject *)

Lemma option_union_Some_l {A} (a : A) (x : option A) : Some a ∪ x = Some a.
Proof. by destruct x. Qed.

Lemma truthy_string_Some s : truthy_string s = true → ∃ c, s = Some c ∧ c ≠ "".
Proof.
  destruct s as [c|]; [|done]. simpl. intros Hc%negb_true_iff%bool_decide_eq_false.
  by exists c.
Qed.

Lemma owners_with_member_head d referenceId owner m :
  head (owners_with_member d referenceId) = Some (owner, m) →
  owner ∈ user d ∧ m ∈ member d ∧ member_userId m = user_id owner
  ∧ member_organizationId m = referenceId ∧ member_role m = "owner".
Proof.
  intros Hh%head_Some_elem_of. unfold owners_with_member in Hh.
  apply list_elem_of_bind in Hh as (u' & Hm & Hu').
  apply list_elem_of_bind in Hm as (m' & Heq & Hm').
  apply list_elem_of_singleton in Heq as [= <- <-].
  apply list_elem_of_In, filter_In in Hm' as [Hm' Hcond].
  apply andb_prop in Hcond as [Hcond Hrole%bool_decide_eq_true].
  apply andb_prop in Hcond as [Hmu%bool_decide_eq_true Hmo%bool_decide_eq_true].
  split_and!; [done|by apply list_elem_of_In|done..].
Qed.

Lemma organization_owner_customer d referenceId customer :
  match select_first (λ o, bool_decide (organization_id o = referenceId))
          (organization d) with
  | Some _ =>
      match head (owners_with_member d referenceId) with
      | Some (owner, _) =>
          if truthy_string (user_stripeCustomerId owner)
          then user_stripeCustomerId owner else None
      | None => None
      end
  | None => None
  end = Some customer →
  customer ≠ ""
  ∧ ∃ u, u ∈ user d ∧ user_stripeCustomerId u = Some customer
         ∧ (∃ o, o ∈ organization d ∧ organization_id o = referenceId)
         ∧ ∃ m, m ∈ member d ∧ member_userId m = user_id u
                ∧ member_organizationId m = referenceId
                ∧ member_role m = "owner".
Proof.
  destruct (select_first _ (organization d)) as [o|] eqn:Ho; [|done].
  destruct (head _) as [[owner m]|] eqn:Hh; [|done].
  destruct (truthy_string (user_stripeCustomerId owner)) eqn:Ht; [|done].
  destruct (truthy_string_Some _ Ht) as (c & Hc & Hne). rewrite Hc.
  intros [= <-]. split; [done|].
  apply owners_with_member_head in Hh as (Hu & Hm & Hmu & Hmo & Hrole).
  apply find_some in Ho as [Hoin Hoid%bool_decide_eq_true].
  exists owner. split_and!; [done|done| |].
  - exists o. split; [by apply list_elem_of_In|done].
  - by exists m.
Qed.

(** X9.  A customer id that [getStripeCustomerId] returns is not empty and
    is the customer id of the user with the given id or, for an
    organization, of a user who is a member of it with the role 'owner'.
    A user's own customer id is returned whenever the first user row with
    the id has one. *)
Theorem getStripeCustomerId_sound d referenceId :
  (∀ customer,
     getStripeCustomerId d referenceId = Some customer →
     customer ≠ ""
     ∧ ∃ u, u ∈ user d ∧ user_stripeCustomerId u = Some customer
            ∧ (user_id u = referenceId
               ∨ ((∃ o, o ∈ organization d ∧ organization_id o = referenceId)
                  ∧ ∃ m, m ∈ member d ∧ member_userId m = user_id u
                         ∧ member_organizationId m = referenceId
                         ∧ member_role m = "owner")))
  ∧ (∀ u customer,
       select_first (λ u, bool_decide (user_id u = referenceId)) (user d) = Some u →
       user_stripeCustomerId u = Some customer → customer ≠ "" →
       getStripeCustomerId d referenceId = Some customer).
Proof.
  split.
  - intros customer. unfold getStripeCustomerId. cbv zeta.
    destruct (select_first _ (user d)) as [u|] eqn:Hu.
    + destruct (truthy_string (user_stripeCustomerId u)) eqn:Ht.
      * destruct (truthy_string_Some _ Ht) as (c & Hc & Hne).
        rewrite Hc, option_union_Some_l.
        intros [= <-]. split; [done|].
        apply find_some in Hu as [Hin Hid%bool_decide_eq_true].
        exists u. split_and!; [by apply list_elem_of_In|done|by left].
      * rewrite (left_id_L None (∪)).
        intros (Hne & u' & Hu' & Hc & Ho & Hm)%organization_owner_customer.
        split; [done|]. exists u'. split_and!; [done..|]. by right.
    + rewrite (left_id_L None (∪)).
      intros (Hne & u' & Hu' & Hc & Ho & Hm)%organization_owner_customer.
      split; [done|]. exists u'. split_and!; [done..|]. by right.
  - intros u customer Hu Hc Hne. unfold getStripeCustomerId. cbv zeta.
    rewrite Hu, Hc. simpl. rewrite (bool_decide_eq_false_2 _ Hne). simpl.
    apply option_union_Some_l.
Qed.

(** ** The payment handlers of the later revisions *)

Lemma later_handleInvoicePaymentSucceeded_cases event d :
  Later.handleInvoicePaymentSucceeded event d = d
  ∨ ∃ sub,
      subscription_by_stripe_id d
        (default "" (invoice_subscription (event_object event))) = Some sub
      ∧ Later.handleInvoicePaymentSucceeded event d
        = reset_all (subjects d (subscription_plan sub) (subscription_referenceId sub)) d.
Proof.
  unfold Later.handleInvoicePaymentSucceeded. cbv zeta.
  destruct (bool_decide (_ !! _ = _)); [by left|].
  destruct (truthy_string _); [|by left].
  destruct (negb _); [by left|].
  destruct (subscription_by_stripe_id _ _) as [sub|]; [|by left].
  right. exists sub. split; [done|]. unfold subjects, reset_all.
  by destruct (is_team_or_enterprise _).
Qed.

(** X10.  In the later revisions of the invoice webhooks the payment of a
    renewal invoice ([billing_reason] 'subscription_cycle') of a known
    subscription resets the usage exactly as [resetUsageForSubscription]
    does, so that every usage row of every subject has a current cost of
    zero; the payment of an overage invoice or of an invoice that is not a
    renewal changes nothing.  No payment handler of these revisions
    changes a blocked flag or another table, and a failed payment changes
    nothing at all. *)
Theorem later_paid_renewal_resets_usage event d :
  let invoice := event_object event in
  let d' := Later.handleInvoicePaymentSucceeded event d in
  billingBlocked <$> userStats d' = billingBlocked <$> userStats d
  ∧ user d' = user d ∧ organization d' = organization d
  ∧ member d' = member d ∧ subscription d' = subscription d
  ∧ (invoice_metadata invoice !! "type" = Some "overage_billing" → d' = d)
  ∧ (invoice_billing_reason invoice ≠ Some "subscription_cycle" → d' = d)
  ∧ (∀ id sub,
       invoice_metadata invoice !! "type" ≠ Some "overage_billing" →
       invoice_subscription invoice = Some id → id ≠ "" →
       invoice_billing_reason invoice = Some "subscription_cycle" →
       subscription_by_stripe_id d id = Some sub →
       d' = resetUsageForSubscription (subscription_plan sub)
              (subscription_referenceId sub) d
       ∧ ∀ u, u ∈ subjects d (subscription_plan sub) (subscription_referenceId sub) →
              zeroed u d')
  ∧ Later.handleInvoicePaymentFailed event d = d.
Proof.
  intros invoice d'.
  assert (billingBlocked <$> userStats d' = billingBlocked <$> userStats d
          ∧ user d' = user d ∧ organization d' = organization d
          ∧ member d' = member d ∧ subscription d' = subscription d)
    as (Hblocked & Huser & Horg & Hmember & Hsubs).
  { unfold d'.
    destruct (later_handleInvoicePaymentSucceeded_cases event d)
      as [->|(sub & _ & ->)]; [done|].
    split; [apply reset_all_blocked|apply reset_all_frame]. }
  split_and!; try done.
  - intros Htype. unfold d', Later.handleInvoicePaymentSucceeded. cbv zeta.
    fold invoice. by rewrite (bool_decide_eq_true_2 _ Htype).
  - intros Hreason. unfold d', Later.handleInvoicePaymentSucceeded. cbv zeta.
    fold invoice. rewrite (bool_decide_eq_false_2 _ Hreason). simpl.
    by repeat case_match.
  - intros id sub Htype Hsub Hne Hreason Hrec.
    assert (d' = reset_all (subjects d (subscription_plan sub)
                              (subscription_referenceId sub)) d) as ->.
    { unfold d', Later.handleInvoicePaymentSucceeded. cbv zeta. fold invoice.
      rewrite (bool_decide_eq_false_2 _ Htype), Hsub, Hreason. simpl.
      rewrite (bool_decide_eq_false_2 _ Hne). simpl. rewrite Hrec.
      unfold subjects, reset_all. by destruct (is_team_or_enterprise _). }
    split; [by rewrite reset_as_fold|].
    intros u Hu. by apply reset_all_zeroed.
  - unfold Later.handleInvoicePaymentFailed. cbv zeta.
    by repeat case_match.
Qed.

(** ** Updates of a subscription *)

Lemma handleSubscriptionUpdated_cases stripeSubscription d :
  handleSubscriptionUpdated stripeSubscription d = d
  ∧ subscription_by_stripe_id d (stripeSubscription_id stripeSubscription) = None
  ∨ handleSubscriptionUpdated stripeSubscription d
    = {| user := user d; organization := organization d; member := member d;
         subscription :=
           (λ s, if bool_decide (subscription_stripeSubscriptionId s
                                 = Some (stripeSubscription_id stripeSubscription))
                 then with_status (stripeSubscription_status stripeSubscription) s
                 else s) <$> subscription d;
         userStats := userStats d |}.
Proof.
  unfold handleSubscriptionUpdated.
  destruct (subscription_by_stripe_id _ _); [by right|by left].
Qed.

Lemma list_fmap_fixed {A} (f : A → A) (l : list A) :
  (∀ x, x ∈ l → f x = x) → f <$> l = l.
Proof.
  induction l as [|x l IH]; [done|]. intros H. rewrite fmap_cons. f_equal.
  - apply H. by left.
  - apply IH. intros y Hy. apply H. by right.
Qed.

Lemma subscription_by_stripe_id_None d id s :
  subscription_by_stripe_id d id = None → s ∈ subscription d →
  subscription_stripeSubscriptionId s ≠ Some id.
Proof.
  intros Hnone Hin Hid. unfold subscription_by_stripe_id, select_first in Hnone.
  apply list_elem_of_In in Hin.
  pose proof (find_none _ _ Hnone s Hin) as Hf. simpl in Hf.
  by rewrite bool_decide_eq_true_2 in Hf.
Qed.

(** X11.  [handleSubscriptionWebhook] acts on 'customer.subscription.updated'
    only.  In the store it touches nothing but the status of the
    subscription rows with the notified provider id: every such row gets
    the notified status, the plan, seats, reference, metadata and ids of
    all rows stay as they are (the plan it works out is not written), the
    other tables and the usage rows are untouched, an unknown id changes
    nothing, and a second delivery of the same notification changes
    nothing more. *)
Theorem handleSubscriptionWebhook_writes_status eventType stripeSubscription d :
  let id := stripeSubscription_id stripeSubscription in
  let d' := handleSubscriptionWebhook eventType stripeSubscription d in
  user d' = user d ∧ organization d' = organization d ∧ member d' = member d
  ∧ userStats d' = userStats d
  ∧ subscription_identity <$> subscription d'
    = subscription_identity <$> subscription d
  ∧ (eventType ≠ "customer.subscription.updated" → d' = d)
  ∧ (subscription_by_stripe_id d id = None → d' = d)
  ∧ (eventType = "customer.subscription.updated" →
     ∀ s, s ∈ subscription d' → subscription_stripeSubscriptionId s = Some id →
          subscription_status s = Some (stripeSubscription_status stripeSubscription))
  ∧ (∀ s, s ∈ subscription d' → subscription_stripeSubscriptionId s ≠ Some id →
          s ∈ subscription d)
  ∧ handleSubscriptionWebhook eventType stripeSubscription d' = d'.
Proof.
  intros id d'. unfold d', handleSubscriptionWebhook.
  destruct (bool_decide (eventType = _)) eqn:Htype.
  2: { apply bool_decide_eq_false in Htype. by split_and!. }
  apply bool_decide_eq_true in Htype.
  destruct (handleSubscriptionUpdated_cases stripeSubscription d)
    as [[Hd Hnone]|Hd]; rewrite !Hd.
  { split_and!; try done.
    intros _ s Hin Hid. by destruct (subscription_by_stripe_id_None _ _ _ Hnone Hin). }
  simpl. fold id. split_and!; try done.
  - rewrite <- list_fmap_compose. apply list_fmap_ext. intros i s _. simpl.
    by case_bool_decide.
  - intros Hnone. destruct d as [us os ms ss rs]. simpl in *. f_equal.
    apply list_fmap_fixed. intros s Hs.
    rewrite bool_decide_eq_false_2; [done|].
    by apply (subscription_by_stripe_id_None
                {| user := us; organization := os; member := ms;
                   subscription := ss; userStats := rs |}).
  - intros _ s (s0 & -> & Hin)%list_elem_of_fmap Hid.
    case_bool_decide as Hs0; [done|]. by destruct Hs0.
  - intros s (s0 & -> & Hin)%list_elem_of_fmap Hid.
    case_bool_decide as Hs0; [|done]. by destruct Hid.
  - unfold handleSubscriptionUpdated.
    destruct (subscription_by_stripe_id _ _) as [found|]; [|done]. simpl.
    f_equal. rewrite <- list_fmap_compose. apply list_fmap_ext.
    intros i row _. simpl. unfold id.
    destruct (bool_decide (subscription_stripeSubscriptionId row = _)) eqn:Hrow;
      simpl; by rewrite Hrow.
Qed.

(** ** The billing summary *)

Lemma base_le_projected b x : (b ≤ b + Math_max 0 x)%Qc.
Proof.
  replace b with (b + 0)%Qc at 1 by ring.
  apply Qcplus_le_compat; [apply Qcle_refl | apply Math_max_nonneg].
Qed.

Lemma daysRemaining_of_nonneg e now : 0 ≤ daysRemaining_of e now.
Proof. unfold daysRemaining_of. destruct e; lia. Qed.

Lemma Qcinv_pos (x : Qc) : (0 < x)%Qc → (0 < / x)%Qc.
Proof.
  unfold Qclt. intros H.
  change (this (/ x)%Qc) with (Qred (/ this x)).
  rewrite Qred_correct. by apply Qinv_lt_0_compat.
Qed.

Lemma Qcdiv_ge_1 (u l : Qc) : (0 < l)%Qc → (l ≤ u)%Qc → (1 ≤ u / l)%Qc.
Proof.
  intros Hl Hu. unfold Qcdiv. rewrite <- (Qcmult_inv_r l).
  - apply Qcmult_le_compat_r; [done|]. apply Qclt_le_weak. by apply Qcinv_pos.
  - intros ->. by apply (Qclt_not_eq _ _ Hl).
Qed.

(** A usage at or above a positive limit shows as at least 100 percent. *)
Lemma percentUsed_of_exceeded u l :
  (0 < l)%Qc → (l ≤ u)%Qc → 100 ≤ percentUsed_of u l.
Proof.
  intros Hl Hu. unfold percentUsed_of.
  destruct (decide (0 < l)%Qc) as [_|H]; [|done].
  unfold Math_round.
  change 100 with (Qfloor (inject_Z 100)) at 1.
  apply Qfloor_resp_le.
  assert (Qc_of_Z 100 ≤ u / l * Qc_of_Z 100 + Q2Qc (1 # 2))%Qc as H; [|exact H].
  apply Qcle_trans with (u / l * Qc_of_Z 100)%Qc.
  - rewrite <- (Qcmult_1_l (Qc_of_Z 100)) at 1.
    apply Qcmult_le_compat_r; [|done]. by apply Qcdiv_ge_1.
  - rewrite <- (Qcplus_0_r (u / l * Qc_of_Z 100)) at 1.
    apply Qcplus_le_compat; [apply Qcle_refl|done].
Qed.

(** A warning is never shown together with an exceeded limit. *)
Lemma warning_not_exceeded u l :
  isWarning_of (percentUsed_of u l) = true → bool_decide (l ≤ u)%Qc = false.
Proof.
  unfold isWarning_of. intros [H80%bool_decide_eq_true H100%bool_decide_eq_true]%andb_prop.
  apply bool_decide_eq_false. intros Hu.
  destruct (decide (0 < l)%Qc) as [Hl|Hl].
  - pose proof (percentUsed_of_exceeded u l Hl Hu). lia.
  - unfold percentUsed_of in H80. destruct (decide (0 < l)%Qc); [done|]. lia.
Qed.

(** X12.  Whatever the store holds and whichever collaborator fails,
    [getSimplifiedBillingSummary] returns a summary of the kind that was
    asked for (organization when an organization id is given) whose
    overage is not negative, whose projected total is base price plus
    overage and so never below the base price, and whose days remaining
    are not negative. *)
Theorem getSimplifiedBillingSummary_figures
    env getUsagePeriod d now userId organizationId :
  let s := getSimplifiedBillingSummary env getUsagePeriod d now userId
             organizationId in
  summary_type s
  = (if truthy_string organizationId then type_organization else type_individual)
  ∧ (0 ≤ summary_overageAmount s)%Qc
  ∧ summary_overageAmount s
    = Math_max 0 (summary_currentUsage s - summary_basePrice s)
  ∧ totalProjected s = (summary_basePrice s + summary_overageAmount s)%Qc
  ∧ (summary_basePrice s ≤ totalProjected s)%Qc
  ∧ 0 ≤ daysRemaining s.
Proof.
  intros s. unfold s, getSimplifiedBillingSummary, billing_summary. cbv zeta.
  assert (0 = Math_max 0 (0 - 0))%Qc as Hzero
    by (unfold Math_max; case_decide; [ring|done]).
  assert (0 = 0 + 0)%Qc as Hsum by ring.
  assert (0 = Math_max 0 0)%Qc as Hmax by (unfold Math_max; by case_decide).
  repeat case_match; simplify_eq; simpl; split_and!;
    try done; try apply Math_max_nonneg; try apply Qcle_refl;
    try exact Hzero; try exact Hsum; try exact Hmax;
    try apply base_le_projected; try apply daysRemaining_of_nonneg.
Qed.

Lemma isWarning_of_spec p : isWarning_of p = true ↔ 80 ≤ p < 100.
Proof.
  unfold isWarning_of. rewrite andb_true_iff, !bool_decide_eq_true. done.
Qed.

(** X13.  In every summary the warning flag is set exactly when the
    percentage shown is at least 80 and below 100, and it is never set
    together with the flag for an exceeded limit; the [usage] part repeats
    the percentage, the two flags, the limit and the days remaining of
    the summary itself. *)
Theorem getSimplifiedBillingSummary_warning
    env getUsagePeriod d now userId organizationId :
  let s := getSimplifiedBillingSummary env getUsagePeriod d now userId
             organizationId in
  (isWarning s = true ↔ 80 ≤ percentUsed s < 100)
  ∧ (isWarning s = true → isExceeded s = false)
  ∧ usage_percentUsed (usage s) = percentUsed s
  ∧ usage_isWarning (usage s) = isWarning s
  ∧ usage_isExceeded (usage s) = isExceeded s
  ∧ usage_limit_shown (usage s) = usageLimit s
  ∧ usage_daysRemaining (usage s) = daysRemaining s.
Proof.
  intros s. unfold s, getSimplifiedBillingSummary, billing_summary. cbv zeta.
  repeat case_match; simplify_eq; simpl; split_and!;
    try done; try apply isWarning_of_spec; try apply warning_not_exceeded;
    try lia.
Qed.



(** X15.  Without an organization id, and for a plan other than team and
    enterprise, the summary shows what [calculateUserOverage] reports:
    the same plan, base price, usage and overage. *)
Theorem summary_shows_the_user_overage env getUsagePeriod d now userId info :
  calculateUserOverage env d userId = Some info →
  overage_plan info ≠ "team" → overage_plan info ≠ "enterprise" →
  let s := getSimplifiedBillingSummary env getUsagePeriod d now userId None in
  summary_type s = type_individual
  ∧ summary_plan s = Some (overage_plan info)
  ∧ summary_basePrice s = overage_basePrice info
  ∧ summary_currentUsage s = actualUsage info
  ∧ summary_overageAmount s = overageAmount info.
Proof.
  intros Hinfo Hteam Henterprise s. unfold calculateUserOverage in Hinfo.
  unfold s, getSimplifiedBillingSummary, billing_summary. cbv zeta. simpl.
  destruct (getHighestPrioritySubscription env d userId) as [subscription|];
    [|done].
  destruct (getUserUsageData env d userId) as [usageData|]; [|done].
  destruct (select_first _ (user d)); [|done].
  destruct (getPlanPricing env _ subscription) as [pricing|]; [|done].
  injection Hinfo as <-. simpl in *.
  rewrite (bool_decide_eq_false_2 _ Hteam), (bool_decide_eq_false_2 _ Henterprise).
  simpl. by split_and!.
Qed.

(** X16.  [getSimplifiedBillingSummary] never raises.  When the usage of
    the user cannot be read, when the subscription of the user cannot be
    read, when the organization asked for has no active subscription, or
    when the usage of one of its members cannot be read, the result is the
    default summary of the kind asked for: the free plan with every figure
    zero and the free tier as the limit. *)
Theorem getSimplifiedBillingSummary_falls_back
    env getUsagePeriod d now userId organizationId :
  let s := getSimplifiedBillingSummary env getUsagePeriod d now userId
             organizationId in
  let requested :=
    if truthy_string organizationId then type_organization else type_individual in
  (∀ e, getUserUsageData env d userId = Throw e →
        s = getDefaultBillingSummary env requested)
  ∧ (truthy_string organizationId = false →
     ∀ e, getHighestPrioritySubscription env d userId = Throw e →
          s = getDefaultBillingSummary env type_individual)
  ∧ (truthy_string organizationId = true →
     getOrganizationSubscription d (default "" organizationId) = None →
     s = getDefaultBillingSummary env type_organization)
  ∧ (truthy_string organizationId = true →
     ∀ e, sum_usage env d (members_of d (default "" organizationId)) 0%Qc
          = Throw e →
          s = getDefaultBillingSummary env type_organization)
  ∧ (s = getDefaultBillingSummary env requested →
     summary_plan s = Some "free" ∧ summary_overageAmount s = 0%Qc
     ∧ totalProjected s = 0%Qc ∧ usageLimit s = getFreeTierLimit env
     ∧ isPaid s = false ∧ isWarning s = false ∧ isExceeded s = false).
Proof.
  intros s requested. split_and!.
  - intros e He. unfold s, getSimplifiedBillingSummary, billing_summary.
    rewrite He. destruct (truthy_string organizationId); [done|].
    by destruct (getHighestPrioritySubscription env d userId).
  - intros Horg e He. unfold s, getSimplifiedBillingSummary, billing_summary.
    by rewrite Horg, He.
  - intros Horg Hnone. unfold s, getSimplifiedBillingSummary, billing_summary.
    rewrite Horg, Hnone. by destruct (getUserUsageData env d userId).
  - intros Horg e He. unfold s, getSimplifiedBillingSummary, billing_summary.
    cbv zeta. rewrite Horg, He.
    destruct (getUserUsageData env d userId); [|done].
    destruct (getOrganizationSubscription d _) as [sub|]; [|done].
    by destruct (getPlanPricing env _ _).
  - by intros ->.
Qed.

(** ** Allowances and plans *)

(** X17.  A usage limit can be edited exactly for an active pro, team or
    enterprise subscription, that is when one of [checkProPlan],
    [checkTeamPlan] and [checkEnterprisePlan] holds; at most one of the
    three holds, and none for a missing or inactive subscription. *)
Theorem canEditUsageLimit_paid_plans subscription :
  canEditUsageLimit subscription
  = checkProPlan subscription || checkTeamPlan subscription
    || checkEnterprisePlan subscription
  ∧ (checkProPlan subscription = true → checkTeamPlan subscription = false
     ∧ checkEnterprisePlan subscription = false)
  ∧ (checkTeamPlan subscription = true → checkEnterprisePlan subscription = false)
  ∧ (subscription ≫= subscription_status ≠ Some "active" →
     canEditUsageLimit subscription = false).
Proof.
  unfold canEditUsageLimit, checkProPlan, checkTeamPlan, checkEnterprisePlan,
    check_plan.
  destruct subscription as [s|]; simpl; [|by split_and!].
  destruct (subscription_plan s) as [plan|], (subscription_status s) as [status|];
    simpl; repeat case_bool_decide; simplify_eq; simpl; split_and!; try done;
    by intros [].
Qed.

(** X18.  In this revision the per-user minimum limit is the allowance of
    the subscription, for every subscription: for a team or enterprise
    plan it is the pooled amount (seats x price per seat), not zero; and
    [getMinimumUsageLimit] is the same function. *)
Theorem minimum_limit_is_the_allowance cfg env subscription :
  getPerUserMinimumLimit cfg env subscription
  = getSubscriptionAllowance cfg env subscription
  ∧ getMinimumUsageLimit cfg env subscription
    = getSubscriptionAllowance cfg env subscription
  ∧ (∀ s, subscription = Some s → subscription_status s = Some "active" →
          subscription_plan s = Some "team" →
          getPerUserMinimumLimit cfg env subscription
          = (Qc_of_Z (licensedSeats_of (subscription_seats s))
             * setting_or (TEAM_TIER_COST_LIMIT cfg)
                 (DEFAULT_TEAM_TIER_COST_LIMIT cfg))%Qc).
Proof.
  split_and!; [done..|].
  intros s -> Hstatus Hplan. unfold getPerUserMinimumLimit.
  rewrite Hstatus, Hplan. done.
Qed.

Lemma enterprise_price_agrees cfg env m :
  getEnterpriseTierLimitPerSeat env
  = setting_or (ENTERPRISE_TIER_COST_LIMIT cfg)
      (DEFAULT_ENTERPRISE_TIER_COST_LIMIT cfg) →
  basePrice (enterprise_pricing env m)
  = enterprise_perSeatPrice cfg env (MetadataObject m).
Proof.
  intros He. unfold enterprise_pricing, parsed_perSeatPrice,
    enterprise_perSeatPrice. cbv zeta.
  destruct (truthy (perSeatPrice m)); [|done].
  destruct (parseFloat env _) as [|q]; simpl; [done|].
  rewrite !andb_true_r.
  destruct (bool_decide (0 < q)%Qc) eqn:Hq; [|by rewrite andb_false_r].
  apply bool_decide_eq_true in Hq.
  rewrite bool_decide_eq_false_2; [done|].
  intros ->. by apply Qclt_not_eq in Hq.
Qed.

(** X19.  When the tier limits of the billing core are the settings, the
    allowance of an active subscription whose metadata is not a text is
    the base amount the overage is measured against: the base price of
    [getPlanPricing] for a pro plan, and licensed seats x that base price
    for a team or enterprise plan.  For an enterprise subscription whose
    metadata is a text the allowance uses the setting, whatever the text
    says. *)
Theorem allowance_is_the_billed_base cfg env s :
  settings_agree cfg env →
  subscription_status s = Some "active" →
  (∀ pricing,
     (∀ text, subscription_metadata s ≠ MetadataText text) →
     getPlanPricing env (subscription_plan s) (Some s) = Return pricing →
     (subscription_plan s = Some "pro" →
      getSubscriptionAllowance cfg env (Some s) = basePrice pricing)
     ∧ (is_team_or_enterprise (subscription_plan s) = true →
        getSubscriptionAllowance cfg env (Some s)
        = (Qc_of_Z (licensedSeats_of (subscription_seats s)) * basePrice pricing)%Qc))
  ∧ (∀ text,
       subscription_metadata s = MetadataText text →
       subscription_plan s = Some "enterprise" →
       getSubscriptionAllowance cfg env (Some s)
       = (Qc_of_Z (licensedSeats_of (subscription_seats s))
          * setting_or (ENTERPRISE_TIER_COST_LIMIT cfg)
              (DEFAULT_ENTERPRISE_TIER_COST_LIMIT cfg))%Qc).
Proof.
  intros (Hpro & Hteam & Henterprise) Hstatus. split.
  - intros pricing Htext Hp. unfold getSubscriptionAllowance, getPlanPricing in *.
    rewrite Hstatus. simpl. split.
    + intros Hplan. rewrite Hplan in *. simpl in *. injection Hp as <-.
      by rewrite <- Hpro.
    + unfold is_team_or_enterprise.
      intros [Hplan%bool_decide_eq_true|Hplan%bool_decide_eq_true]%orb_prop;
        rewrite Hplan in *; simpl in *.
      * injection Hp as <-. by rewrite <- Hteam.
      * destruct (subscription_metadata s) as [|text|m] eqn:Hm.
        -- injection Hp as <-. simpl. by rewrite Henterprise.
        -- by destruct (Htext text).
        -- injection Hp as <-.
           by rewrite (enterprise_price_agrees cfg env m Henterprise).
  - intros text Hm Hplan. unfold getSubscriptionAllowance.
    rewrite Hstatus, Hplan, Hm. done.
Qed.

Lemma getPlanByName_None cfg planName :
  getPlanByName cfg planName = None ↔ planName ∉ ["free"; "pro"; "team"].
Proof.
  unfold getPlanByName, getPlans. rewrite !not_elem_of_cons. split.
  - intros Hnone. split_and!; [| | |apply not_elem_of_nil]; intros ->;
      simpl in Hnone; done.
  - intros (Hfree & Hpro & Hteam & _). simpl.
    by rewrite !bool_decide_eq_false_2.
Qed.

(** X20.  [getPlanByName] finds a plan exactly when the name is 'free',
    'pro' or 'team', and the plan it finds is the one of [getPlans] with
    that name.  For every other name, 'enterprise' included,
    [getPlanLimits] is the default of free credits. *)
Theorem getPlanByName_lookup cfg planName :
  (∀ plan, getPlanByName cfg planName = Some plan ↔
           plan ∈ getPlans cfg ∧ plan_name plan = planName)
  ∧ (getPlanByName cfg planName = None ↔ planName ∉ ["free"; "pro"; "team"])
  ∧ (planName ∉ ["free"; "pro"; "team"] →
     getPlanLimits cfg planName = DEFAULT_FREE_CREDITS cfg)
  ∧ getPlanLimits cfg "enterprise" = DEFAULT_FREE_CREDITS cfg.
Proof.
  split_and!.
  - intros plan. split.
    + intros [Hin Hname%bool_decide_eq_true]%find_some.
      split; [by apply list_elem_of_In|done].
    + intros [Hin <-]. unfold getPlans in Hin.
      rewrite !elem_of_cons, elem_of_nil in Hin.
      by destruct Hin as [->|[->|[->|[]]]].
  - apply getPlanByName_None.
  - intros Hn. unfold getPlanLimits.
    by rewrite (proj2 (getPlanByName_None cfg planName) Hn).
  - done.
Qed.

(** ** What a reset keeps of the usage *)

Lemma reset_user_captures uid d r :
  r ∈ userStats (reset_user uid d) → userStats_userId r = uid →
  currentPeriodCost r = Some 0%Qc ∧ lastPeriodCost r = Some (first_cost d uid).
Proof.
  intros Hin Hid. unfold reset_user, first_cost in *.
  destruct (select_first _ _) as [row|] eqn:E.
  - apply elem_of_update_userStats in Hin as (r0 & Hr0 & ->).
    case_bool_decide as Hu; [done|]. by destruct Hu.
  - assert (has_userId uid r = false) as Hn by by eapply select_first_None.
    apply has_userId_true in Hid. congruence.
Qed.

Lemma select_first_other uid m (f : UserStatsRow → UserStatsRow) rows :
  uid ≠ m → (∀ r, userStats_userId (f r) = userStats_userId r) →
  select_first (has_userId uid)
    ((λ r, if bool_decide (userStats_userId r = m) then f r else r) <$> rows)
  = select_first (has_userId uid) rows.
Proof.
  intros Hne Hf. unfold select_first, has_userId.
  induction rows as [|r rows IH]; [done|]. rewrite fmap_cons.
  destruct (decide (userStats_userId r = m)) as [Hm|Hm].
  - rewrite (bool_decide_eq_true_2 _ Hm). simpl.
    rewrite Hf, Hm, !bool_decide_eq_false_2 by done. exact IH.
  - rewrite (bool_decide_eq_false_2 _ Hm). simpl. by rewrite IH.
Qed.

Lemma first_cost_reset_user uid m d :
  uid ≠ m → first_cost (reset_user m d) uid = first_cost d uid.
Proof.
  intros Hne. unfold first_cost.
  destruct (reset_user_rows m d) as (f & Hf & ->).
  rewrite select_first_other; [done..|]. intros r. apply Hf.
Qed.

Lemma reset_all_row_of_other ms d r :
  r ∈ userStats (reset_all ms d) → userStats_userId r ∉ ms → r ∈ userStats d.
Proof.
  intros Hin Hnot. apply list_elem_of_lookup in Hin as [i Hi].
  assert (userStats_userId <$> userStats (reset_all ms d) !! i
          = userStats_userId <$> userStats d !! i) as Hids
    by by rewrite <- !list_lookup_fmap, reset_all_userIds.
  rewrite Hi in Hids. simpl in Hids.
  destruct (userStats d !! i) as [r0|] eqn:Hr0; [|done].
  injection Hids as Hid.
  assert (userStats (reset_all ms d) !! i = Some r0) as Hsame
    by (apply reset_all_other; [done|by rewrite <- Hid]).
  rewrite Hi in Hsame. injection Hsame as ->.
  by eapply list_elem_of_lookup_2.
Qed.

Lemma reset_all_captures ms d u r :
  NoDup ms → u ∈ ms → r ∈ userStats (reset_all ms d) → userStats_userId r = u →
  currentPeriodCost r = Some 0%Qc ∧ lastPeriodCost r = Some (first_cost d u).
Proof.
  revert d. induction ms as [|m ms IH]; intros d Hnodup Hu Hin Hid;
    [by apply elem_of_nil in Hu|].
  apply NoDup_cons in Hnodup as [Hm Hnodup]. simpl in Hin.
  destruct (decide (u = m)) as [->|Hne].
  - apply reset_user_captures; [|done].
    apply (reset_all_row_of_other ms); [done|by rewrite Hid].
  - apply elem_of_cons in Hu as [->|Hu]; [done|].
    rewrite <- (first_cost_reset_user u m d Hne). by apply IH.
Qed.

(** X21.  When no subject is listed twice, the reset moves the usage to
    the last period: afterwards every usage row of a subject has a current
    cost of zero and, as last-period cost, the current cost the first row
    of that subject had before (zero when that column was empty). *)
Theorem resetUsageForSubscription_captures_usage plan referenceId d u r :
  NoDup (subjects d plan referenceId) →
  u ∈ subjects d plan referenceId →
  r ∈ userStats (resetUsageForSubscription plan referenceId d) →
  userStats_userId r = u →
  currentPeriodCost r = Some 0%Qc ∧ lastPeriodCost r = Some (first_cost d u).
Proof. rewrite reset_as_fold. apply reset_all_captures. Qed.

(** ** The invoice of a charge *)

(** Finalizing or paying the newest invoice: on success the invoice is
    replaced by its successor, on a failure the list is as it was. *)
Lemma advance_head_result (status : InvoiceStatus) (next : Invoice → Invoice)
    (refusal : string) i rest w r w' :
  (∀ j, invoice_id (next j) = invoice_id j) →
  stripe_invoices (world_stripe w) = i :: rest →
  api (λ s _,
         match find_invoice s (invoice_id i) with
         | Some j =>
             if bool_decide (invoice_status j = status) then
               (Return (next j),
                with_invoices s (replace_invoice (next j) (stripe_invoices s)))
             else (Throw refusal, s)
         | None => (Throw "No such invoice", s)
         end) w = (r, w') →
  match r with
  | Return a =>
      a = next i
      ∧ ∃ rest', stripe_invoices (world_stripe w') = next i :: rest'
  | Throw _ => stripe_invoices (world_stripe w') = i :: rest
  end.
Proof.
  intros Hnext Hinv (_ & _ & [(-> & Hs & _)|(_ & s0 & Hs & Hop)])%api_inv.
  - destruct Hs as [-> _]. done.
  - destruct Hs as [Hs _]. rewrite Hinv in Hs.
    rewrite (find_invoice_head s0 i rest Hs) in Hop.
    destruct (bool_decide _).
    + injection Hop as <- <-. split; [done|]. simpl. rewrite Hs.
      destruct (replace_invoice_head (next i) i rest) as (rest' & -> & _);
        [by rewrite Hnext|].
      by exists rest'.
    + injection Hop as <- <-. done.
Qed.

(** X22.  When [createOverageBillingInvoice] reports the overage as
    charged, the invoice it names is the newest one at the provider, is of
    that customer and carries the metadata with the overage-billing tag;
    it has been finalized, and it is either paid in full or, when the
    payment attempt failed, still open with nothing paid: a failed payment
    does not fail the call. *)
Theorem charged_invoice_is_open_or_paid
    env customerId amount description metadata w r w' :
  createOverageBillingInvoice env customerId amount description metadata w
  = (Return r, w') →
  success r = true → chargedAmount r = Some amount → (0 < amount)%Qc →
  ∃ i rest,
    invoices_of w' = i :: rest
    ∧ invoiceId r = Some (invoice_id i)
    ∧ invoice_customer i = customerId
    ∧ invoice_metadata i = <["type" := "overage_billing"]> metadata
    ∧ ((invoice_status i = paid ∧ invoice_amount_paid i = invoice_amount_due i)
       ∨ (invoice_status i = open ∧ invoice_amount_paid i = 0)).
Proof.
  intros Hcall Hok Hcharged Hpos. unfold createOverageBillingInvoice in Hcall.
  apply try_catch_inv in Hcall as [Hcall|(e & w0 & _ & [= <- _])]; [|done].
  case_decide as Hle.
  { injection Hcall as <- _. injection Hcharged as <-.
    by destruct (Qclt_not_eq _ _ Hpos). }
  apply bind_inv in Hcall as (now & wa & [= <- <-] & Hcall).
  apply bind_inv in Hcall as (recent & wb & _ & Hcall).
  destruct (List.find _ recent) as [existing|].
  { injection Hcall as <- _. injection Hcharged as <-.
    by destruct (Qclt_not_eq _ _ Hpos). }
  apply bind_inv in Hcall as (customer & wc & _ & Hcall).
  apply bind_inv in Hcall as (item & wd & _ & Hcall).
  apply bind_inv in Hcall as (invoice & we & Hcreate & Hcall).
  pose proof Hcreate as Hnew. unfold invoices_create in Hnew.
  apply api_inv in Hnew as (_ & _ & [([=] & _)|(_ & s0 & _ & Hop)]).
  destruct (has_customer s0 customerId); [|done].
  injection Hop as Hinvoice _.
  apply invoices_create_inv in Hcreate as (_ & _ & Hie & Hdraft & _).
  rewrite Hdraft in Hcall. simpl in Hcall.
  apply bind_inv in Hcall as (final1 & wf & Hfinalize & Hcall).
  unfold invoices_finalizeInvoice in Hfinalize.
  pose proof (advance_head_result draft
                (λ j, set_status j open (invoice_amount_paid j) (invoice_attempted j))
                _ invoice _ we (Return final1) wf (λ _, eq_refl) Hie Hfinalize)
    as (-> & rest1 & Hif).
  simpl in Hcall.
  apply bind_inv in Hcall as (final2 & wg & Hpay & [= <- <-]).
  apply try_catch_inv in Hpay as [Hpay|(e & wp & Hpay & [= <- <-])];
    unfold invoices_pay in Hpay.
  - pose proof (advance_head_result open
                  (λ j, set_status j paid (invoice_amount_due j) true)
                  _ _ _ wf (Return final2) wg (λ _, eq_refl) Hif Hpay)
      as (-> & rest2 & Hig).
    exists (set_status
              (set_status invoice open (invoice_amount_paid invoice)
                 (invoice_attempted invoice))
              paid (invoice_amount_due invoice) true), rest2.
    unfold invoices_of. split; [exact Hig|].
    rewrite <- Hinvoice. split_and!; try done. by left.
  - pose proof (advance_head_result open
                  (λ j, set_status j paid (invoice_amount_due j) true)
                  _ _ _ wf (Throw e) wp (λ _, eq_refl) Hif Hpay) as Hip.
    exists (set_status invoice open (invoice_amount_paid invoice)
              (invoice_attempted invoice)), rest1.
    unfold invoices_of. split; [by rewrite Hip|].
    rewrite <- Hinvoice. split_and!; try done. by right.
Qed.

(** ** Allowances of the first revision *)

Lemma licensedSeats_of_nonzero seats : licensedSeats_of seats ≠ 0.
Proof.
  unfold licensedSeats_of. destruct seats as [n|]; [|done].
  by case_bool_decide.
Qed.

(** X25.  In the first revision of the subscription utilities the
    per-user minimum of an active team plan is zero, while its allowance
    is seats x the team limit.  For an active enterprise plan the
    allowance is seats x the per-user minimum whenever the metadata has a
    [perSeatAllowance] or has no [totalAllowance] (a [perSeatAllowance]
    wins over a [totalAllowance]); with a [totalAllowance] alone the
    allowance is that total and the per-user minimum is the total divided
    by the seats.  For every other subscription the two are equal. *)
Theorem first_revision_minimum_and_allowance cfg env s :
  let seats := licensedSeats_of (FirstRevision.seats s) in
  let allowance := FirstRevision.getSubscriptionAllowance cfg env (Some s) in
  let minimum := FirstRevision.getPerUserMinimumLimit cfg env (Some s) in
  let perSeat := FirstRevision.metadata_field FirstRevision.perSeatAllowance s in
  let total := FirstRevision.metadata_field FirstRevision.totalAllowance s in
  (FirstRevision.status s = Some "active" →
   FirstRevision.plan s = Some "team" →
   minimum = Num 0
   ∧ allowance
     = Num (Qc_of_Z seats
            * setting_or (TEAM_TIER_COST_LIMIT cfg) (DEFAULT_TEAM_TIER_COST_LIMIT cfg)))
  ∧ (FirstRevision.status s = Some "active" →
     FirstRevision.plan s = Some "enterprise" →
     (truthy perSeat = true ∨ truthy total = false →
      allowance = FirstRevision.times_seats seats minimum)
     ∧ (truthy perSeat = false → truthy total = true →
        allowance = parseFloat env (String_of env total)
        ∧ minimum = FirstRevision.per_seat allowance seats))
  ∧ (FirstRevision.status s ≠ Some "active"
     ∨ FirstRevision.plan s ∉ [Some "team"; Some "enterprise"] →
     minimum = allowance)
  ∧ FirstRevision.getPerUserMinimumLimit cfg env None
    = FirstRevision.getSubscriptionAllowance cfg env None.
Proof.
  intros seats allowance minimum perSeat total.
  unfold allowance, minimum, FirstRevision.getSubscriptionAllowance,
    FirstRevision.getPerUserMinimumLimit. cbv zeta. fold seats perSeat total.
  split_and!; [| | |done].
  - intros -> ->. simpl. done.
  - intros -> ->. simpl. split.
    + intros [Hp|Ht].
      * rewrite Hp. by destruct (parseFloat env _).
      * rewrite Ht. destruct (truthy perSeat); [by destruct (parseFloat env _)|].
        done.
    + intros -> ->. done.
  - intros [Hstatus|Hplan].
    + by rewrite (bool_decide_eq_false_2 _ Hstatus).
    + apply not_elem_of_cons in Hplan as [Hteam Hplan].
      apply not_elem_of_cons in Hplan as [Henterprise _].
      rewrite (bool_decide_eq_false_2 _ Hteam),
        (bool_decide_eq_false_2 _ Henterprise).
      by repeat case_match.
Qed.

Lemma times_seats_NaN seats x : FirstRevision.times_seats seats x = NaN ↔ x = NaN.
Proof. by destruct x. Qed.

(** X26.  The first revision returns [NaN] as allowance exactly for an
    active enterprise subscription whose metadata field in use (the
    [perSeatAllowance], or else the [totalAllowance]) is set to something
    [Number.parseFloat] cannot read. *)
Theorem first_revision_allowance_NaN cfg env s :
  let perSeat := FirstRevision.metadata_field FirstRevision.perSeatAllowance s in
  let total := FirstRevision.metadata_field FirstRevision.totalAllowance s in
  FirstRevision.getSubscriptionAllowance cfg env (Some s) = NaN ↔
  FirstRevision.status s = Some "active"
  ∧ FirstRevision.plan s = Some "enterprise"
  ∧ ((truthy perSeat = true ∧ parseFloat env (String_of env perSeat) = NaN)
     ∨ (truthy perSeat = false ∧ truthy total = true
        ∧ parseFloat env (String_of env total) = NaN)).
Proof.
  intros perSeat total. unfold FirstRevision.getSubscriptionAllowance.
  cbv zeta. fold perSeat total.
  destruct (decide (FirstRevision.status s = Some "active")) as [Hs|Hs].
  2: { rewrite (bool_decide_eq_false_2 _ Hs). simpl. split; [done|].
       by intros [? _]. }
  rewrite (bool_decide_eq_true_2 _ Hs). simpl.
  destruct (decide (FirstRevision.plan s = Some "enterprise")) as [Hp|Hp].
  2: { rewrite (bool_decide_eq_false_2 _ Hp).
       split; [by repeat case_match|]. by intros (_ & ? & _). }
  rewrite Hp. simpl.
  destruct (truthy perSeat) eqn:Hps.
  - rewrite times_seats_NaN. split.
    + intros Hn. split_and!; [done..|]. by left.
    + by intros (_ & _ & [[_ Hn]|[? _]]).
  - destruct (truthy total) eqn:Ht.
    + split.
      * intros Hn. split_and!; [done..|]. by right.
      * by intros (_ & _ & [[? _]|(_ & _ & Hn)]).
    + split; [done|]. by intros (_ & _ & [[? _]|(_ & ? & _)]).
Qed.

Lemma Qc_of_Z_pos n : 0 < n → (0 < Qc_of_Z n)%Qc.
Proof.
  intros Hn. unfold Qclt, Qlt. simpl. lia.
Qed.

Lemma Qcmult_pos x y : (0 < x)%Qc → (0 < y)%Qc → (0 < x * y)%Qc.
Proof.
  intros Hx Hy. rewrite <- (Qcmult_0_l y). by apply Qcmult_lt_compat_r.
Qed.

Lemma licensedSeats_of_pos seats :
  (∀ n, seats = Some n → 0 ≤ n) → 0 < licensedSeats_of seats.
Proof.
  intros Hn. unfold licensedSeats_of. destruct seats as [n|]; [|done].
  case_bool_decide; [done|]. specialize (Hn n eq_refl). lia.
Qed.

(** X27.  The second revision only takes a per-seat price from the
    metadata when it parses to a positive number, so that, once the four
    limits of the settings are positive and the seat count is not
    negative, the allowance of every subscription is a positive amount. *)
Theorem allowance_is_positive cfg env subscription :
  (0 < setting_or (FREE_TIER_COST_LIMIT cfg) (DEFAULT_FREE_CREDITS cfg))%Qc →
  (0 < setting_or (PRO_TIER_COST_LIMIT cfg) (DEFAULT_PRO_TIER_COST_LIMIT cfg))%Qc →
  (0 < setting_or (TEAM_TIER_COST_LIMIT cfg) (DEFAULT_TEAM_TIER_COST_LIMIT cfg))%Qc →
  (0 < setting_or (ENTERPRISE_TIER_COST_LIMIT cfg)
         (DEFAULT_ENTERPRISE_TIER_COST_LIMIT cfg))%Qc →
  (∀ s n, subscription = Some s → subscription_seats s = Some n → 0 ≤ n) →
  (0 < getSubscriptionAllowance cfg env subscription)%Qc.
Proof.
  intros Hfree Hpro Hteam Henterprise Hseats.
  unfold getSubscriptionAllowance. destruct subscription as [s|]; [|done].
  assert (0 < Qc_of_Z (licensedSeats_of (subscription_seats s)))%Qc as Hn.
  { apply Qc_of_Z_pos, licensedSeats_of_pos. intros n. by apply Hseats. }
  repeat case_match; try done; apply Qcmult_pos; try done.
  unfold enterprise_perSeatPrice. cbv zeta.
  destruct (truthy _); [|done].
  destruct (parseFloat env _) as [|q]; simpl; [done|].
  rewrite andb_true_r.
  destruct (bool_decide (0 < q)%Qc) eqn:Hq; [|done].
  by apply bool_decide_eq_true in Hq.
Qed.

(** ** A payment after a failed payment *)

Lemma user_blocked_first d uid r :
  r ∈ userStats d → userStats_userId r = uid →
  (∀ r', r' ∈ userStats d → userStats_userId r' = uid → billingBlocked r' = true) →
  user_blocked d uid = true.
Proof.
  intros Hin Hid Hall. unfold user_blocked.
  destruct (select_first _ _) as [row|] eqn:E.
  - apply select_first_Some in E as [Hrow Hp]. apply has_userId_true in Hp.
    by apply Hall.
  - pose proof (select_first_None _ _ r E Hin) as Hn.
    apply has_userId_true in Hid. congruence.
Qed.

Lemma wasBlocked_all_blocked d sub r :
  let ss := subjects d (subscription_plan sub) (subscription_referenceId sub) in
  r ∈ userStats d → userStats_userId r ∈ ss →
  (∀ r', r' ∈ userStats d → userStats_userId r' ∈ ss → billingBlocked r' = true) →
  wasBlocked d sub = true.
Proof.
  unfold wasBlocked, subjects. destruct (is_team_or_enterprise _); simpl.
  - intros Hin Hs Hall. apply existsb_exists. exists (userStats_userId r).
    split; [by apply list_elem_of_In|].
    apply (user_blocked_first d _ r); [done..|].
    intros r' Hr' Hid. apply Hall; [done|]. by rewrite Hid.
  - intros Hin Hs%list_elem_of_singleton Hall.
    apply (user_blocked_first d _ r); [done..|].
    intros r' Hr' Hid. apply Hall; [done|]. rewrite Hid. by left.
Qed.

Lemma set_blocked_for_row b sub d i r :
  userStats (set_blocked_for b sub d) !! i = Some r →
  ∃ r0, userStats d !! i = Some r0 ∧ userStats_userId r0 = userStats_userId r
        ∧ (userStats_userId r0
           ∉ subjects d (subscription_plan sub) (subscription_referenceId sub) →
           r = r0).
Proof.
  rewrite set_blocked_for_rows. simpl. rewrite list_lookup_fmap.
  destruct (userStats d !! i) as [r0|]; [|done]. simpl. intros [= <-].
  exists r0. split; [done|]. case_bool_decide; by split.
Qed.

(** X28.  A failed payment of an overage invoice followed by a successful
    payment on the same subscription (handlers of the first revision):
    after the failure every usage row of every subject is blocked; after
    the payment every such row is unblocked and, the subjects having been
    blocked, has a current cost of zero; the rows of all other users are
    as they were before the failure. *)
Theorem payment_after_failure_lifts_the_block failure payment d id sub :
  invoice_metadata (event_object failure) !! "type" = Some "overage_billing" →
  0 ≤ invoice_attempt_count (event_object failure) →
  invoice_subscription (event_object failure) = Some id → id ≠ "" →
  invoice_subscription (event_object payment) = Some id →
  subscription_by_stripe_id d id = Some sub →
  let ss := subjects d (subscription_plan sub) (subscription_referenceId sub) in
  let d1 := handleInvoicePaymentFailed failure d in
  let d2 := handleInvoicePaymentSucceeded payment d1 in
  (∀ r, r ∈ userStats d1 → userStats_userId r ∈ ss → billingBlocked r = true)
  ∧ (∀ r, r ∈ userStats d2 → userStats_userId r ∈ ss →
          billingBlocked r = false ∧ currentPeriodCost r = Some 0%Qc)
  ∧ (∀ i r, userStats d !! i = Some r → userStats_userId r ∉ ss →
            userStats d2 !! i = Some r).
Proof.
  intros Htype Hcount Hfailure Hne Hpayment Hrec ss d1 d2.
  assert (d1 = set_blocked_for true sub d) as Hd1.
  { unfold d1, handleInvoicePaymentFailed. cbv zeta.
    rewrite (bool_decide_eq_true_2 _ Htype). simpl.
    rewrite bool_decide_eq_true_2.
    2: { unfold attemptCount_of. case_bool_decide; lia. }
    rewrite Hfailure.
    assert (string_or (Some id) "" = id) as ->
      by (unfold string_or; simpl; by rewrite (bool_decide_eq_false_2 _ Hne)).
    rewrite (bool_decide_eq_false_2 _ Hne). simpl. by rewrite Hrec. }
  assert (subscription_by_stripe_id d1 id = Some sub) as Hrec1.
  { rewrite Hd1, <- Hrec. apply subscription_by_stripe_id_frame.
    apply set_blocked_for_frame. }
  assert (subjects d1 (subscription_plan sub) (subscription_referenceId sub) = ss)
    as Hss1 by (rewrite Hd1; apply subjects_set_blocked_for).
  assert (∀ r, r ∈ userStats d1 → userStats_userId r ∈ ss → billingBlocked r = true)
    as Hblocked.
  { intros r Hin Hs. rewrite Hd1 in Hin.
    by apply (set_blocked_for_blocked true sub d). }
  assert (d2 = if wasBlocked d1 sub
               then reset_all ss (set_blocked_for false sub d1)
               else set_blocked_for false sub d1) as Hd2.
  { unfold d2.
    rewrite (handleInvoicePaymentSucceeded_unfold payment d1 id sub Hpayment Hne Hrec1).
    destruct (wasBlocked d1 sub); [|done].
    by rewrite reset_as_fold, subjects_set_blocked_for, Hss1. }
  split_and!.
  - exact Hblocked.
  - intros r Hin Hs. rewrite Hd2 in Hin.
    destruct (wasBlocked d1 sub) eqn:Hw.
    + split.
      * apply list_elem_of_lookup_1 in Hin as [i Hi].
        apply reset_all_row in Hi as (r0 & Hi0 & Hu & Hb). rewrite <- Hb.
        apply (set_blocked_for_blocked false sub d1).
        -- by eapply list_elem_of_lookup_2.
        -- by rewrite Hss1, Hu.
      * by apply (reset_all_zeroed (userStats_userId r) ss
                    (set_blocked_for false sub d1)).
    + exfalso. apply list_elem_of_lookup_1 in Hin as [i Hi].
      apply set_blocked_for_row in Hi as (r0 & Hi0 & Hu & _).
      apply list_elem_of_lookup_2 in Hi0.
      assert (wasBlocked d1 sub = true) as Hw'; [|congruence].
      apply (wasBlocked_all_blocked d1 sub r0); rewrite ?Hss1; [done| |done].
      by rewrite Hu.
  - intros i r Hi Hs.
    assert (userStats d1 !! i = Some r) as Hi1.
    { rewrite Hd1, set_blocked_for_rows. simpl. rewrite list_lookup_fmap, Hi.
      simpl. by rewrite bool_decide_eq_false_2. }
    assert (userStats (set_blocked_for false sub d1) !! i = Some r) as Hi2.
    { rewrite set_blocked_for_rows. simpl. rewrite list_lookup_fmap, Hi1.
      simpl. rewrite Hss1. by rewrite bool_decide_eq_false_2. }
    rewrite Hd2. destruct (wasBlocked d1 sub); [|done].
    by apply reset_all_other.
Qed.

(** ** Failures of the pricing and of the overage calculation *)

(** X23.  [getPlanPricing] raises for one kind of input only: an
    enterprise subscription whose metadata column holds a non-empty text
    that [JSON.parse] refuses or reads as [null].  A plan other than
    'free', 'pro', 'team' and 'enterprise' has a base price of zero, like
    the free plan. *)
Theorem getPlanPricing_raises_on_unreadable_text env plan subscription :
  (∀ e, getPlanPricing env plan subscription = Throw e →
        plan = Some "enterprise"
        ∧ ∃ s text,
            subscription = Some s ∧ subscription_metadata s = MetadataText text
            ∧ text ≠ ""
            ∧ (JSON_parse env text = Throw e ∨ JSON_parse env text = Return None))
  ∧ (plan ∉ [Some "pro"; Some "team"; Some "enterprise"] →
     getPlanPricing env plan subscription = Return {| basePrice := 0 |})
  ∧ (plan = Some "pro" →
     getPlanPricing env plan subscription
     = Return {| basePrice := getProTierLimit env |})
  ∧ (plan = Some "team" →
     getPlanPricing env plan subscription
     = Return {| basePrice := getTeamTierLimitPerSeat env |}).
Proof.
  split_and!.
  - intros e. unfold getPlanPricing.
    repeat (case_bool_decide as Hp; [done|]; clear Hp).
    case_bool_decide as Hp; [|done]. split; [done|].
    destruct subscription as [s|]; [|done]. simpl in *.
    destruct (subscription_metadata s) as [|text|m] eqn:Hm; [done| |done].
    simpl in *. case_bool_decide as Htext; simpl in *; [done|].
    exists s, text. split_and!; [done..|].
    destruct (JSON_parse env text) as [[m|]|e0]; [done|by right|].
    left. congruence.
  - rewrite !not_elem_of_cons. intros (Hpro & Hteam & Henterprise & _).
    unfold getPlanPricing.
    rewrite (bool_decide_eq_false_2 _ Hpro), (bool_decide_eq_false_2 _ Hteam),
      (bool_decide_eq_false_2 _ Henterprise).
    by case_bool_decide.
  - by intros ->.
  - by intros ->.
Qed.

(** X24.  [calculateUserOverage] returns null exactly when the
    subscription or the usage of the user cannot be read, when the user
    is not in the store, or when the plan's pricing raises. *)
Theorem calculateUserOverage_null env d userId :
  calculateUserOverage env d userId = None ↔
  (∃ e, getHighestPrioritySubscription env d userId = Throw e)
  ∨ (∃ e, getUserUsageData env d userId = Throw e)
  ∨ select_first (λ u, bool_decide (user_id u = userId)) (user d) = None
  ∨ ∃ subscription e,
      getHighestPrioritySubscription env d userId = Return subscription
      ∧ getPlanPricing env
          (Some (string_or (subscription ≫= subscription_plan) "free"))
          subscription = Throw e.
Proof.
  unfold calculateUserOverage.
  destruct (getHighestPrioritySubscription env d userId) as [subscription|e1].
  2: { split; [|done]. intros _. left. by exists e1. }
  destruct (getUserUsageData env d userId) as [usageData|e2].
  2: { split; [|done]. intros _. right. left. by exists e2. }
  destruct (select_first _ (user d)) as [u|].
  2: { split; [|done]. intros _. by right; right; left. }
  destruct (getPlanPricing env _ subscription) as [pricing|e3] eqn:Hp.
  - split; [done|].
    intros [[e He]|[[e He]|[Hu|(s & e & [= <-] & Hs)]]]; congruence.
  - split; [|done]. intros _. right; right; right. by exists subscription, e3.
Qed.

(** ** The further properties on examples *)

(** X3, on an example: the customer who was charged for November 2026 is
    charged again; the second call reports the first invoice and leaves
    the provider's data alone. *)
Lemma zero_charge_creates_nothing_witness :
  same_data (world_stripe Cases.charged_once)
    (world_stripe (Cases.charge Cases.charged_once).2)
  ∧ ∃ i, i ∈ invoices_of Cases.charged_once ∧ invoice_id i = "in_2"
         ∧ invoice_status i ≠ void.
Proof.
  destruct (zero_charge_creates_nothing Reference.env "cus_u1" (Qc_of_Z 15)
              "Overage" Cases.november Cases.charged_once
              (succeeded 0 (Some "in_2")) (Cases.charge Cases.charged_once).2)
    as [Hsame [[Hle _]|(i & Hin & Hid & _ & _ & Hvoid)]].
  - vm_compute. reflexivity.
  - reflexivity.
  - vm_compute in Hle. by destruct Hle.
  - split; [exact Hsame|]. exists i. injection Hid as Hid. by split_and!.
Defined.

(** X6, on an example: the upcoming renewal of the pro user who spent 42
    is announced twice; the second delivery finds the item of the first. *)
Lemma handleInvoiceUpcoming_redelivered_witness :
  let w := Scenario.world Scenario.one_user in
  let first := handleInvoiceUpcoming Reference.env Scenario.renewal w in
  let second :=
    handleInvoiceUpcoming Reference.env Scenario.renewal
      (set_now first.2 (world_now w)) in
  same_data (world_stripe first.2) (world_stripe second.2)
  ∧ item_amount <$> stripe_invoiceItems (world_stripe second.2) = [2200].
Proof.
  intros w first second.
  destruct (handleInvoiceUpcoming_redelivered Reference.env Scenario.renewal
              w first.2 (world_now w) second.1 second.2)
    as (Hsame & _ & _).
  - vm_compute. reflexivity.
  - reflexivity.
  - apply surjective_pairing.
  - split; [exact Hsame|]. vm_compute. reflexivity.
Defined.


(** X15, on the pro user who spent 42: the summary shows the overage of
    22 that [calculateUserOverage] reports. *)
Lemma summary_shows_the_user_overage_witness :
  summary_overageAmount
    (getSimplifiedBillingSummary Reference.env Cases.period Scenario.one_user
       1793664000000 "u1" None)
  = Qc_of_Z 22.
Proof.
  destruct (calculateUserOverage Reference.env Scenario.one_user "u1")
    as [info|] eqn:Hinfo; [|vm_compute in Hinfo; discriminate Hinfo].
  destruct (summary_shows_the_user_overage Reference.env Cases.period
              Scenario.one_user 1793664000000 "u1" info Hinfo)
    as (_ & _ & _ & _ & Hoverage).
  - vm_compute in Hinfo. injection Hinfo as <-. discriminate.
  - vm_compute in Hinfo. injection Hinfo as <-. discriminate.
  - rewrite Hoverage. vm_compute in Hinfo. injection Hinfo as <-. simpl.
    apply Qc_is_canon. reflexivity.
Defined.

Lemma settings_agree_reference : settings_agree Cases.settings Reference.env.
Proof. by split_and!. Qed.

(** X19, on an example: two enterprise seats at the custom price of 75
    give an allowance of 150, the base amount of the billing run. *)
Lemma allowance_is_the_billed_base_witness :
  getSubscriptionAllowance Cases.settings Reference.env
    (Some Cases.enterprise_subscription)
  = Qc_of_Z 150.
Proof.
  destruct (allowance_is_the_billed_base Cases.settings Reference.env
              Cases.enterprise_subscription settings_agree_reference eq_refl)
    as [Hbase _].
  destruct (getPlanPricing Reference.env (Some "enterprise")
              (Some Cases.enterprise_subscription)) as [pricing|] eqn:Hp;
    [|vm_compute in Hp; discriminate Hp].
  destruct (Hbase pricing) as [_ Hseats].
  - discriminate.
  - exact Hp.
  - rewrite Hseats by reflexivity. vm_compute in Hp. injection Hp as <-.
    apply Qc_is_canon. reflexivity.
Defined.

(** X21, on the team of the specification: after the reset the row of "a"
    has a current cost of zero and the 50 of before as last-period cost. *)
Lemma resetUsageForSubscription_captures_usage_witness :
  ∃ r, userStats (resetUsageForSubscription (Some "team") "org_1" Scenario.team)
       !! 0%nat = Some r
       ∧ currentPeriodCost r = Some 0%Qc
       ∧ lastPeriodCost r = Some (Qc_of_Z 50).
Proof.
  destruct (userStats (resetUsageForSubscription (Some "team") "org_1" Scenario.team)
            !! 0%nat) as [r|] eqn:Hr; [|vm_compute in Hr; discriminate Hr].
  exists r. split; [reflexivity|].
  destruct (resetUsageForSubscription_captures_usage (Some "team") "org_1"
              Scenario.team "a" r) as [Hcurrent Hlast].
  - apply (bool_decide_unpack _). vm_compute. exact I.
  - apply (bool_decide_unpack _). vm_compute. exact I.
  - by eapply list_elem_of_lookup_2.
  - vm_compute in Hr. injection Hr as <-. reflexivity.
  - split; [exact Hcurrent|]. rewrite Hlast. reflexivity.
Defined.

(** X22, on an example: the first charge of the customer leaves a paid
    invoice. *)
Lemma charged_invoice_is_open_or_paid_witness :
  ∃ i rest, invoices_of Cases.charged_once = i :: rest
            ∧ invoice_customer i = "cus_u1"
            ∧ invoice_metadata i !! "billingPeriod" = Some "2026-11".
Proof.
  destruct (charged_invoice_is_open_or_paid Reference.env "cus_u1" (Qc_of_Z 15)
              "Overage" Cases.november (Scenario.world Scenario.one_user)
              (succeeded (Qc_of_Z 15) (Some "in_2")) Cases.charged_once)
    as (i & rest & Hinv & _ & Hcustomer & Hmeta & _).
  - vm_compute. reflexivity.
  - reflexivity.
  - reflexivity.
  - reflexivity.
  - exists i, rest. split_and!; [done..|]. by rewrite Hmeta.
Defined.

(** When the provider fails at the payment, the call still reports the
    charge and the invoice stays open. *)
Example failed_payment_leaves_invoice_open :
  ∃ r w i,
    Cases.charge Cases.payment_fails = (Return r, w)
    ∧ success r = true ∧ chargedAmount r = Some (Qc_of_Z 15)
    ∧ invoices_of w = [i] ∧ invoice_status i = open.
Proof.
  eexists _, _, _. split; [vm_compute; reflexivity|].
  split_and!; try reflexivity.
Qed.

(** X27, on an example: the allowance of the enterprise subscription of
    two seats at 75 is positive. *)
Lemma allowance_is_positive_witness :
  (0 < getSubscriptionAllowance Cases.settings Reference.env
         (Some Cases.enterprise_subscription))%Qc.
Proof.
  apply allowance_is_positive; try reflexivity.
  intros s n [= <-] [= <-]. lia.
Defined.

(** X28, on an example: the overage payment of the pro user fails and the
    renewal is paid afterwards; every row then is unblocked with a current
    cost of zero. *)
Lemma payment_after_failure_lifts_the_block_witness :
  Forall (λ r, billingBlocked r = false ∧ currentPeriodCost r = Some 0%Qc)
    (userStats
       (handleInvoicePaymentSucceeded Scenario.renewal
          (handleInvoicePaymentFailed Scenario.failed_overage_payment
             Scenario.one_user))).
Proof.
  apply Forall_forall. intros r Hr.
  destruct (payment_after_failure_lifts_the_block
              Scenario.failed_overage_payment Scenario.renewal
              Scenario.one_user "stripe_sub_1"
              (Scenario.subscription_row (Some "pro") "u1" None MetadataNull))
    as (_ & Hpaid & _); try reflexivity; try discriminate.
  apply Hpaid; [exact Hr|].
  apply list_elem_of_singleton in Hr. subst r. by left.
Defined.
